(** * HireGuard: face de-duplication engine

    A shallow embedding of
      - [FacePlusPlusManager] (api_manager/faceplusplus_manager.py): the image
        normalizer [resize_image_if_needed], the rate gate, the retrying
        [_make_request] and the five provider operations;
      - [FaceVerification] (face_verification/face_verification.py): attribute
        validation, the duplicate search, registration and [verify_face].

    Python values coming out of [response.json()] are dynamically typed, so the
    embedding keeps them as a tagged union [pyval] and gives every operation the
    source applies to them ([in], [[]], [.get], truthiness, [float()], iteration)
    its Python meaning, raising the exception Python raises on the wrong shape.
    Python [float] is IEEE binary64, taken here as Rocq's primitive [float]. *)

From Stdlib Require Import ZArith QArith Qround Qabs List String Ascii Bool Lia.
From Stdlib Require Import Floats Sorted Permutation.
Import ListNotations.

Set Warnings "-inexact-float,-register-all".
Set Implicit Arguments.
Open Scope string_scope.
Open Scope list_scope.
Open Scope Z_scope.

(* ================================================================= *)
(** ** Exceptions and results *)

(** The part of Python's [Exception] hierarchy the two modules raise, catch or
    can receive from a collaborator.  [HTTPException]'s payload is the
    [ErrorResponse] it is built from (status code and detail text). *)
Inductive exn : Type :=
| HTTPException (status_code : Z) (detail : string)
| RequestException (msg : string)
| TypeError
| AttributeError
| KeyError
| IndexError
| ValueError
| OverflowError
| JSONDecodeError
| OSError (msg : string)
| OtherException (name msg : string).

Definition is_HTTPException (e : exn) : bool :=
  match e with HTTPException _ _ => true | _ => false end.

Definition is_RequestException (e : exn) : bool :=
  match e with RequestException _ => true | _ => false end.

Inductive res (A : Type) : Type :=
| Ok (a : A)
| Raise (e : exn).
Arguments Ok {A} a.
Arguments Raise {A} e.

Definition is_ok {A} (r : res A) : bool :=
  match r with Ok _ => true | Raise _ => false end.

Definition result_bind {A B} (r : res A) (k : A -> res B) : res B :=
  match r with Ok a => k a | Raise e => Raise e end.

(* ================================================================= *)
(** ** Python values *)

Inductive pyval : Type :=
| PNone
| PBool (b : bool)
| PInt (n : Z)
| PFloat (f : float)
| PStr (s : string)
| PList (l : list pyval)
| PDict (kv : list (string * pyval)).

Module Py.

(** [float(n)] for an [int]: round to nearest even. *)
Definition float_of_Z (n : Z) : float :=
  SF2Prim (binary_normalize prec emax n 0 false).

(** [int(f)]: truncation toward zero; [ValueError] on nan, [OverflowError] on
    an infinity. *)
Definition int_of_float (f : float) : res Z :=
  match Prim2SF f with
  | S754_zero _ => Ok 0
  | S754_finite s m e =>
      let a := if 0 <=? e then Z.pos m * 2 ^ e else Z.pos m / 2 ^ (- e) in
      Ok (if s then - a else a)
  | S754_infinity _ => Raise OverflowError
  | S754_nan => Raise ValueError
  end.

(** [n < f] and [n > f] for an [int] and a [float], compared exactly as
    CPython does. *)
Definition Z_cmp_float (n : Z) (f : float) : option comparison :=
  match Prim2SF f with
  | S754_nan => None
  | S754_infinity s => Some (if s then Gt else Lt)
  | S754_zero _ => Some (n ?= 0)
  | S754_finite s m e =>
      let v := if s then Z.neg m else Z.pos m in
      Some (if 0 <=? e then n ?= v * 2 ^ e else n * 2 ^ (- e) ?= v)
  end.

(** [needle in hay] on two strings. *)
Fixpoint str_contains (needle hay : string) : bool :=
  String.prefix needle hay
  || match hay with
     | EmptyString => false
     | String _ rest => str_contains needle rest
     end.

Fixpoint lookup (key : string) (kv : list (string * pyval)) : option pyval :=
  match kv with
  | [] => None
  | (k, v) :: rest => if String.eqb k key then Some v else lookup key rest
  end.

Definition eq_str (v : pyval) (s : string) : bool :=
  match v with PStr t => String.eqb t s | _ => false end.

Fixpoint chars (s : string) : list pyval :=
  match s with
  | EmptyString => []
  | String c rest => PStr (String c EmptyString) :: chars rest
  end.

(** [bool(v)] *)
Definition truthy (v : pyval) : bool :=
  match v with
  | PNone => false
  | PBool b => b
  | PInt n => negb (n =? 0)
  | PFloat f => negb (PrimFloat.eqb f 0)
  | PStr s => negb (String.eqb s "")
  | PList l => match l with [] => false | _ => true end
  | PDict kv => match kv with [] => false | _ => true end
  end.

(** [key in v] for a string [key]. *)
Definition contains (key : string) (v : pyval) : res bool :=
  match v with
  | PDict kv => Ok (match lookup key kv with Some _ => true | None => false end)
  | PList l => Ok (existsb (fun x => eq_str x key) l)
  | PStr s => Ok (str_contains key s)
  | _ => Raise TypeError
  end.

(** [v[key]] for a string [key]. *)
Definition getitem (v : pyval) (key : string) : res pyval :=
  match v with
  | PDict kv => match lookup key kv with Some x => Ok x | None => Raise KeyError end
  | _ => Raise TypeError
  end.

(** [v[0]] *)
Definition getitem0 (v : pyval) : res pyval :=
  match v with
  | PList (x :: _) => Ok x
  | PList [] => Raise IndexError
  | PStr (String c _) => Ok (PStr (String c EmptyString))
  | PStr EmptyString => Raise IndexError
  | PDict _ => Raise KeyError
  | _ => Raise TypeError
  end.

(** [v.get(key, default)]: only a [dict] has the method. *)
Definition get (v : pyval) (key : string) (default : pyval) : res pyval :=
  match v with
  | PDict kv => Ok (match lookup key kv with Some x => x | None => default end)
  | _ => Raise AttributeError
  end.

(** [v.keys()] *)
Definition keys (v : pyval) : res (list pyval) :=
  match v with
  | PDict kv => Ok (map (fun p => PStr (fst p)) kv)
  | _ => Raise AttributeError
  end.

(** [for x in v] *)
Definition iter (v : pyval) : res (list pyval) :=
  match v with
  | PList l => Ok l
  | PDict kv => Ok (map (fun p => PStr (fst p)) kv)
  | PStr s => Ok (chars s)
  | _ => Raise TypeError
  end.

(** [v > 0] *)
Definition gt0 (v : pyval) : res bool :=
  match v with
  | PBool b => Ok b
  | PInt n => Ok (0 <? n)
  | PFloat f => Ok (PrimFloat.ltb 0 f)
  | _ => Raise TypeError
  end.

(** [v < bound] for a [float] bound. *)
Definition lt_float (v : pyval) (bound : float) : res bool :=
  match v with
  | PBool b => Ok (match Z_cmp_float (if b then 1 else 0) bound with Some Lt => true | _ => false end)
  | PInt n => Ok (match Z_cmp_float n bound with Some Lt => true | _ => false end)
  | PFloat f => Ok (PrimFloat.ltb f bound)
  | _ => Raise TypeError
  end.

Definition is_not_None (v : pyval) : bool :=
  match v with PNone => false | _ => true end.

End Py.

(** What the embedding takes from the Python runtime without defining it:
    number parsing in [float(str)], and the texts [str()] and [json.dumps]
    produce (they only ever end up inside messages). *)
Class PyRuntime : Type := {
  float_of_str : string -> res float;
  repr : pyval -> string;
  json_dumps : pyval -> string;
  exn_str : exn -> string
}.

Section PyBuiltins.
Context {rt : PyRuntime}.

(** [str(v)] *)
Definition py_str (v : pyval) : string :=
  match v with PStr s => s | _ => repr v end.

(** [float(v)] *)
Definition py_float (v : pyval) : res float :=
  match v with
  | PFloat f => Ok f
  | PInt n =>
      let f := Py.float_of_Z n in
      if PrimFloat.is_infinity f then Raise OverflowError else Ok f
  | PBool b => Ok (if b then 1%float else 0%float)
  | PStr s => float_of_str s
  | _ => Raise TypeError
  end.

End PyBuiltins.

(* ================================================================= *)
(** ** A state-and-exception monad

    Every Python function of the two modules becomes a computation that
    threads a state and either returns a value or raises. *)

Definition SE (S A : Type) : Type := S -> res A * S.

Definition ret {S A} (a : A) : SE S A := fun s => (Ok a, s).

Definition raise {S A} (e : exn) : SE S A := fun s => (Raise e, s).

Definition lift {S A} (r : res A) : SE S A := fun s => (r, s).

Definition bind {S A B} (m : SE S A) (k : A -> SE S B) : SE S B :=
  fun s => match m s with
           | (Ok a, s') => k a s'
           | (Raise e, s') => (Raise e, s')
           end.

(** [try: m  except Exception as e: h e] *)
Definition try_except {S A} (m : SE S A) (h : exn -> SE S A) : SE S A :=
  fun s => match m s with
           | (Ok a, s') => (Ok a, s')
           | (Raise e, s') => h e s'
           end.

(** [returns_only P m]: whatever [m] returns satisfies [P]. *)
Definition returns_only {S A} (P : A -> Prop) (m : SE S A) : Prop :=
  forall s a s', m s = (Ok a, s') -> P a.

(** [raises_only P m]: whatever [m] raises satisfies [P]. *)
Definition raises_only {S A} (P : exn -> Prop) (m : SE S A) : Prop :=
  forall s e s', m s = (Raise e, s') -> P e.

Declare Scope se_scope.
Delimit Scope se_scope with se.
Notation "x <- m ;; k" := (bind m (fun x => k))
  (at level 61, m at next level, right associativity) : se_scope.
Notation "' p <- m ;; k" := (bind m (fun x => match x with p => k end))
  (at level 61, p pattern, m at next level, right associativity) : se_scope.
Notation "m ;; k" := (bind m (fun _ => k))
  (at level 61, right associativity) : se_scope.
Open Scope se_scope.

(* ================================================================= *)
(** ** The image library (Pillow), as the normalizer uses it *)

Definition bytes : Type := list Byte.byte.

Record image (pixels : Type) : Type := {
  mode : string;
  width : Z;
  height : Z;
  data : pixels
}.

(** Decoding, colour conversion, LANCZOS resampling and JPEG encoding are left
    to the library; each may raise.  Sizes are computed below, from Pillow's
    own arithmetic. *)
Class Pillow : Type := {
  pixels : Type;
  Image_open : bytes -> res (image pixels);
  convert_pixels : image pixels -> string -> res pixels;
  resample : image pixels -> Z * Z -> res pixels;
  save_jpeg : image pixels -> Z -> res bytes
}.

Module Image.
Section Methods.
Context {pil : Pillow}.

(** [img.convert(mode)] *)
Definition convert (img : image pixels) (m : string) : res (image pixels) :=
  result_bind (convert_pixels img m) (fun px =>
  Ok {| mode := m; width := width img; height := height img; data := px |}).

(** [img.resize((w, h), LANCZOS)]: the core refuses an empty target. *)
Definition resize (img : image pixels) (size : Z * Z) : res (image pixels) :=
  let '(w, h) := size in
  if (w <? 1) || (h <? 1) then Raise ValueError
  else result_bind (resample img size) (fun px =>
       Ok {| mode := mode img; width := w; height := h; data := px |}).

(** [min(a, b, key=key)]: the first of the two unless the second is strictly
    smaller under [key]. *)
Definition min_by (key : Z -> Q) (a b : Z) : Z :=
  if Qle_bool (key a) (key b) then a else b.

(** [round_aspect] of [Image.thumbnail]. *)
Definition round_aspect (number : Q) (key : Z -> Q) : Z :=
  Z.max (min_by key (Qfloor number) (Qceiling number)) 1.

(** [preserve_aspect_ratio] of [Image.thumbnail]: [None] when the image already
    fits the box.  Pillow computes the quotients in floating point; they are
    exact rationals here. *)
Definition preserve_aspect_ratio (w h : Z) (box : Z * Z) : res (option (Z * Z)) :=
  let '(x, y) := box in
  if (w <=? x) && (h <=? y) then Ok None
  else if (h =? 0) || (y =? 0) || (w =? 0)
  then Raise (OtherException "ZeroDivisionError" "division by zero")
  else
    let aspect := (inject_Z w / inject_Z h)%Q in
    if Qle_bool aspect (inject_Z x / inject_Z y)%Q then
      Ok (Some (round_aspect (inject_Z y * aspect)%Q
                  (fun n => Qabs (aspect - inject_Z n / inject_Z y)%Q), y))
    else
      Ok (Some (x, round_aspect (inject_Z x / aspect)%Q
                  (fun n => if n =? 0 then 0%Q
                            else Qabs (aspect - inject_Z x / inject_Z n)%Q))).

(** [img.thumbnail(box, LANCZOS)] *)
Definition thumbnail (img : image pixels) (box : Z * Z) : res (image pixels) :=
  result_bind (preserve_aspect_ratio (width img) (height img) box) (fun size =>
  match size with
  | None => Ok img
  | Some (w, h) =>
      if (w =? width img) && (h =? height img) then Ok img else resize img (w, h)
  end).

End Methods.
End Image.

(* ================================================================= *)
(** ** FacePlusPlusManager.resize_image_if_needed *)

(** Which rung of the compression ladder produced the returned bytes. *)
Inductive rung : Type :=
| quality_rung (quality : Z)
| scale_rung (scale : float)
| last_resort.

(** How a [while] loop with an early [return] ends; [Fuel] marks an unrolling
    that was cut short (shown below never to happen). *)
Inductive loop_exit (A : Type) : Type :=
| Returned (a : A)
| Exit
| Fuel.
Arguments Returned {A} a.
Arguments Exit {A}.
Arguments Fuel {A}.

Section Normalizer.
Context {pil : Pillow}.

Record encoded : Type := {
  out_bytes : bytes;
  out_image : image pixels;
  out_rung : rung
}.

(** The normalizer's state is the list of JPEG encodings it has asked for:
    (width, height, quality). *)
Definition save_log : Type := list (Z * Z * Z).

(** [img.save(output, format='JPEG', quality=quality, optimize=True)] followed
    by [output.getvalue()]. *)
Definition save (img : image pixels) (quality : Z) : SE save_log bytes :=
  fun log => (save_jpeg img quality, log ++ [(width img, height img, quality)]).

(** [output.tell() / (1024 * 1024) <= max_size_mb] *)
Definition fits (b : bytes) (max_size_mb : Z) : bool :=
  Qle_bool (inject_Z (Z.of_nat (List.length b)) / inject_Z (1024 * 1024))%Q
           (inject_Z max_size_mb).

(** [while quality > 20: ...  quality -= 5] *)
Fixpoint quality_loop (fuel : nat) (img : image pixels) (quality max_size_mb : Z)
  : SE save_log (loop_exit encoded) :=
  if quality >? 20 then
    match fuel with
    | O => ret Fuel
    | S fuel' =>
        b <- save img quality ;;
        if fits b max_size_mb then
          ret (Returned {| out_bytes := b; out_image := img;
                           out_rung := quality_rung quality |})
        else quality_loop fuel' img (quality - 5) max_size_mb
    end
  else ret Exit.

(** [while scale > 0.3: ...  scale -= 0.1] *)
Fixpoint scale_loop (fuel : nat) (img : image pixels) (w h : Z) (scale : float)
  (max_size_mb min_dimension : Z) : SE save_log (loop_exit encoded) :=
  if PrimFloat.ltb 0.3 scale then
    match fuel with
    | O => ret Fuel
    | S fuel' =>
        new_width <- lift (Py.int_of_float (Py.float_of_Z w * scale)) ;;
        new_height <- lift (Py.int_of_float (Py.float_of_Z h * scale)) ;;
        if Z.min new_width new_height <? min_dimension then ret Exit
        else
          img_resized <- lift (Image.resize img (new_width, new_height)) ;;
          b <- save img_resized 85 ;;
          if fits b max_size_mb then
            ret (Returned {| out_bytes := b; out_image := img_resized;
                             out_rung := scale_rung scale |})
          else scale_loop fuel' img w h (scale - 0.1)%float max_size_mb min_dimension
    end
  else ret Exit.

Definition min_dimension : Z := 48.

(** "Convert to RGB if necessary" *)
Definition flatten (img : image pixels) : res (image pixels) :=
  if existsb (String.eqb (mode img)) ["RGBA"; "LA"; "P"]
  then Image.convert img "RGB" else Ok img.

(** "Check if image is too large" *)
Definition downscale (img : image pixels) (max_dimension : Z) : res (image pixels) :=
  if (width img >? max_dimension) || (height img >? max_dimension)
  then Image.thumbnail img (max_dimension, max_dimension)
  else Ok img.

(** "Check if image is too small" *)
Definition upscale (img : image pixels) : res (image pixels) :=
  if Z.min (width img) (height img) <? min_dimension then
    if Z.min (width img) (height img) =? 0
    then Raise (OtherException "ZeroDivisionError" "division by zero")
    else
      let scale := (Py.float_of_Z min_dimension
                    / Py.float_of_Z (Z.min (width img) (height img)))%float in
      result_bind (Py.int_of_float (Py.float_of_Z (width img) * scale)) (fun new_width =>
      result_bind (Py.int_of_float (Py.float_of_Z (height img) * scale)) (fun new_height =>
      Image.resize img (new_width, new_height)))
  else Ok img.

(** The first half of the [try] block: decode, flatten transparency, bring
    the dimensions within bounds. *)
Definition prepare (image_data : bytes) (max_dimension : Z) : res (image pixels) :=
  result_bind (Image_open image_data) (fun img =>
  result_bind (flatten img) (fun img =>
  result_bind (downscale img max_dimension) upscale)).

(** The second half ("now compress to meet file size requirements"); [None]
    stands for an unrolling cut short. *)
Definition compress (img : image pixels) (max_size_mb : Z)
  : SE save_log (option encoded) :=
  r <- quality_loop (Z.to_nat 90) img 90 max_size_mb ;;
  match r with
  | Returned e => ret (Some e)
  | Fuel => ret None
  | Exit =>
      r <- scale_loop 8 img (width img) (height img) 0.8%float max_size_mb min_dimension ;;
      match r with
      | Returned e => ret (Some e)
      | Fuel => ret None
      | Exit =>
          b <- save img 70 ;;
          ret (Some {| out_bytes := b; out_image := img; out_rung := last_resort |})
      end
  end.

(** The body of the [try] block. *)
Definition resize_body (image_data : bytes) (max_size_mb max_dimension : Z)
  : SE save_log (option encoded) :=
  img <- lift (prepare image_data max_dimension) ;;
  compress img max_size_mb.

(** What one call did: the encoding it returned, or the exception that made it
    fall back to the caller's bytes. *)
Definition resize_run (image_data : bytes) (max_size_mb max_dimension : Z)
  : res (option encoded) * save_log :=
  resize_body image_data max_size_mb max_dimension [].

(** [resize_image_if_needed(image_data, max_size_mb, max_dimension)] *)
Definition resize_image_if_needed (image_data : bytes) (max_size_mb max_dimension : Z)
  : bytes :=
  match fst (resize_run image_data max_size_mb max_dimension) with
  | Ok (Some e) => out_bytes e
  | Ok None => image_data
  | Raise _ => image_data
  end.

(** Vocabulary of the statements about the ladder. *)

(** The scale the second loop works with after [k] turns. *)
Fixpoint nth_scale (scale : float) (k : nat) : float :=
  match k with
  | O => scale
  | S k' => nth_scale (scale - 0.1)%float k'
  end.

(** How many turns of [while scale > 0.3] can run, out of [fuel]. *)
Fixpoint live_turns (fuel : nat) (scale : float) : nat :=
  match fuel with
  | O => O
  | S fuel' => if PrimFloat.ltb 0.3 scale then S (live_turns fuel' (scale - 0.1)%float)
               else O
  end.

(** How far [w] x [h] is from the aspect ratio of [W] x [H]: the two ratios
    agree exactly when this is 0, and [aspect_error W H w h < k * W] says that
    [h] is within [k] pixels of [w * H / W]. *)
Definition aspect_error (W H w h : Z) : Z := Z.abs (w * H - h * W).

(** For every width up to 2048 and every live turn [k] of the second loop,
    [int(w * scale)] is [w * (8 - k) / 10] rounded down: the binary64 scales
    0.8, 0.8 - 0.1, ... lie so little above the tenths that the products
    truncate as the exact ones do. *)
Definition scale_table_check : bool :=
  forallb (fun k =>
    forallb (fun n =>
      match Py.int_of_float (Py.float_of_Z (Z.of_nat n) * nth_scale 0.8 k) with
      | Ok v => v =? Z.of_nat n * (8 - Z.of_nat k) / 10
      | Raise _ => false
      end) (seq 1 2048)) (seq 0 6).

(** The byte budget [max_size_mb] stands for. *)
Definition budget (max_size_mb : Z) : Z := max_size_mb * 1024 * 1024.

(** What the upscaling step computes for a shorter side [m] and a side [x]:
    [int(x * (48 / m))], in binary64. *)
Definition upscaled (m x : Z) : res Z :=
  Py.int_of_float (Py.float_of_Z x * (Py.float_of_Z 48 / Py.float_of_Z m)).

(** The modes the normalizer converts to RGB. *)
Definition has_transparency (img : image pixels) : bool :=
  existsb (String.eqb (mode img)) ["RGBA"; "LA"; "P"].

End Normalizer.

(* ================================================================= *)
(** ** The outside world: clock, HTTP transport, persistence *)

Record request : Type := {
  url : string;
  form : list (string * pyval);
  files : option bytes
}.

(** An HTTP reply: its status code and its body as [response.json()] reads
    it ([None] when the body is not JSON). *)
Record response : Type := {
  status_code : Z;
  json : option pyval
}.

Definition response_json (r : response) : res pyval :=
  match json r with Some v => Ok v | None => Raise JSONDecodeError end.

(** Everything the engine calls and does not implement.  Each collaborator is
    an arbitrary transition of an arbitrary world state, so a statement over all
    [World]s covers every behaviour, raised exceptions included.  The
    persistence interface is [DBManager]'s, as the engine consumes it. *)
Class World : Type := {
  world : Type;
  time_time : world -> float * world;
  time_sleep : pyval -> world -> world;
  requests_post : request -> world -> res response * world;
  uuid4_hex : world -> string * world;
  get_all_stored_faces : world -> res (list (string * list string)) * world;
  find_available_faceset : world -> res (option (string * Z)) * world;
  save_face_token : pyval -> string -> world -> res bool * world;
  update_faceset_count : string -> pyval -> world -> res bool * world
}.

(** The calls made to the collaborators, in order. *)
Inductive event : Type :=
| ev_sleep (seconds : pyval)
| ev_post (operation : string) (r : request)
| ev_get_all_stored_faces
| ev_find_available_faceset
| ev_save_face_token (face_token : pyval) (faceset_id : string)
| ev_update_faceset_count (faceset_id : string) (count : pyval).

Section Engine.
Context {rt : PyRuntime} {pil : Pillow} {W : World}.

Record state : Type := {
  the_world : world;
  last_request_time : float;
  trace : list event
}.

Definition M : Type -> Type := SE state.

Definition log_event (ev : event) (s : state) : state :=
  {| the_world := the_world s; last_request_time := last_request_time s;
     trace := trace s ++ [ev] |}.

Definition set_world (w : world) (s : state) : state :=
  {| the_world := w; last_request_time := last_request_time s; trace := trace s |}.

(** A collaborator call: run the transition, record the event. *)
Definition call {A} (ev : event) (f : world -> res A * world) : M A :=
  fun s => let '(r, w) := f (the_world s) in (r, log_event ev (set_world w s)).

Definition now : M float :=
  fun s => let '(t, w) := time_time (the_world s) in (Ok t, set_world w s).

Definition sleep (seconds : pyval) : M unit :=
  call (ev_sleep seconds) (fun w => (Ok tt, time_sleep seconds w)).

Definition post (operation : string) (r : request) : M response :=
  call (ev_post operation r) (requests_post r).

Definition uuid4 : M string :=
  fun s => let '(h, w) := uuid4_hex (the_world s) in (Ok h, set_world w s).

Definition get_last_request_time : M float :=
  fun s => (Ok (last_request_time s), s).

(** The state a fresh manager starts in: [self.last_request_time = 0]. *)
Definition initial (w : world) : state :=
  {| the_world := w; last_request_time := 0; trace := [] |}.

Definition set_last_request_time (t : float) : M unit :=
  fun s => (Ok tt, {| the_world := the_world s; last_request_time := t;
                      trace := trace s |}).

(* ----------------------------------------------------------------- *)
(** *** FacePlusPlusManager *)

Record FacePlusPlusManager : Type := {
  api_key : string;
  api_secret : string;
  detect_url : string;
  search_url : string;
  create_url : string;
  add_url : string;
  get_detail_url : string;
  max_retries : nat;
  retry_delay : Z
}.

(** [Config]: the values read from the environment. *)
Record Config : Type := {
  cfg_api_key : option string;
  cfg_api_secret : option string;
  fpp_create : string;
  fpp_detect : string;
  fpp_search : string;
  fpp_add : string;
  fpp_get_detail : string
}.

Definition configured (v : option string) : bool :=
  match v with Some s => Py.truthy (PStr s) | None => false end.

(** [FacePlusPlusManager.__init__] *)
Definition FacePlusPlusManager_init (config : Config) : res FacePlusPlusManager :=
  match cfg_api_key config, cfg_api_secret config with
  | Some k, Some s =>
      if configured (Some k) && configured (Some s) then
        Ok {| api_key := k; api_secret := s;
              detect_url := fpp_detect config; search_url := fpp_search config;
              create_url := fpp_create config; add_url := fpp_add config;
              get_detail_url := fpp_get_detail config;
              max_retries := 3; retry_delay := 2 |}
      else Raise (HTTPException 500 "Face++ API credentials not configured")
  | _, _ => Raise (HTTPException 500 "Face++ API credentials not configured")
  end.

Definition detect_params : list (string * pyval) :=
  [("return_attributes", PStr "gender,age,ethnicity,facequality")].

Section Manager.
Variable self : FacePlusPlusManager.

Definition _get_base_params : list (string * pyval) :=
  [("api_key", PStr (api_key self)); ("api_secret", PStr (api_secret self))].

Definition _handle_rate_limit : M unit :=
  current_time <- now ;;
  last <- get_last_request_time ;;
  let time_since_last_request := (current_time - last)%float in
  (if PrimFloat.ltb time_since_last_request (Py.float_of_Z (retry_delay self))
   then sleep (PFloat (Py.float_of_Z (retry_delay self) - time_since_last_request)%float)
   else ret tt) ;;
  t <- now ;;
  set_last_request_time t.

(** How one turn of [for attempt in range(self.max_retries)] ends when it does
    not raise. *)
Inductive turn : Type :=
| Continue
| Return (result : pyval).

Definition last_attempt (attempt : Z) : bool :=
  negb (attempt <? Z.of_nat (max_retries self) - 1).

(** ['error_message' in result and 'CONCURRENCY_LIMIT_EXCEEDED' in
    result['error_message']] *)
Definition rate_limited (result : pyval) : res bool :=
  result_bind (Py.contains "error_message" result) (fun has =>
  if has then
    result_bind (Py.getitem result "error_message") (fun m =>
    Py.contains "CONCURRENCY_LIMIT_EXCEEDED" m)
  else Ok false).

(** The body of the loop of [_make_request]. *)
Definition attempt_body (u : string) (data : list (string * pyval))
  (fs : option bytes) (operation : string) (attempt : Z) : M turn :=
  try_except
    (_handle_rate_limit ;;
     resp <- post operation {| url := u; form := data; files := fs |} ;;
     try_except
       (result <- lift (response_json resp) ;;
        limited <- lift (rate_limited result) ;;
        if limited && negb (last_attempt attempt) then
          sleep (PInt (retry_delay self * (attempt + 1))) ;;
          ret Continue
        else if negb (status_code resp =? 200) then
          raise (HTTPException (status_code resp)
                   (operation ++ " failed: " ++ json_dumps result)%string)
        else
          has <- lift (Py.contains "error_message" result) ;;
          if has then
            m <- lift (Py.getitem result "error_message") ;;
            raise (HTTPException 400 (operation ++ " failed: " ++ py_str m)%string)
          else ret (Return result))
       (fun e =>
          match e with
          | JSONDecodeError =>
              if negb (last_attempt attempt) then
                sleep (PInt (retry_delay self)) ;; ret Continue
              else raise (HTTPException 500
                            ("Invalid response from Face++ API in " ++ operation)%string)
          | _ => raise e
          end))
    (fun e =>
       if is_RequestException e then
         if negb (last_attempt attempt) then
           sleep (PInt (retry_delay self)) ;; ret Continue
         else raise (HTTPException 503
                       ("API request failed in " ++ operation ++ ": " ++ exn_str e)%string)
       else raise e).

Fixpoint attempts_from (attempts : list nat) (u : string)
  (data : list (string * pyval)) (fs : option bytes) (operation : string) : M pyval :=
  match attempts with
  | [] => ret PNone
  | attempt :: rest =>
      t <- attempt_body u data fs operation (Z.of_nat attempt) ;;
      match t with
      | Return result => ret result
      | Continue => attempts_from rest u data fs operation
      end
  end.

Definition _make_request (u : string) (data : list (string * pyval))
  (fs : option bytes) (operation : string) : M pyval :=
  attempts_from (seq 0 (max_retries self)) u data fs operation.

(** [except HTTPException: raise] followed by
    [except Exception as e: raise HTTPException(500, prefix + str(e))] *)
Definition reraise {A} (prefix : string) (e : exn) : M A :=
  if is_HTTPException e then raise e
  else raise (HTTPException 500 (prefix ++ exn_str e)%string).

(** [result and key in result] *)
Definition truthy_and_contains (result : pyval) (key : string) : res bool :=
  if Py.truthy result then Py.contains key result else Ok false.

Definition create_new_faceset : M string :=
  try_except
    (hex <- uuid4 ;;
     let new_outer_id := ("faceset_" ++ String.substring 0 8 hex)%string in
     result <- _make_request (create_url self)
                 (_get_base_params ++
                  [("outer_id", PStr new_outer_id);
                   ("display_name", PStr new_outer_id);
                   ("tags", PStr "face_verification")])
                 None "create_faceset" ;;
     tok <- (if Py.truthy result then lift (Py.get result "faceset_token" PNone)
             else ret result) ;;
     if Py.truthy tok then ret new_outer_id
     else raise (HTTPException 500 "Failed to create FaceSet: Invalid response format"))
    (reraise "Failed to create FaceSet: ").

Definition add_face_to_faceset (face_token : pyval) (outer_id : string) : M bool :=
  try_except
    (result <- _make_request (add_url self)
                 (_get_base_params ++
                  [("face_tokens", face_token); ("outer_id", PStr outer_id)])
                 None "add_face" ;;
     ok <- lift (truthy_and_contains result "face_added") ;;
     if ok then ret true
     else raise (HTTPException 500 "Failed to add face: Invalid response format"))
    (reraise "Failed to add face to FaceSet: ").

(** [detect_face] answers [(None, None)] both when the provider found no face
    and when anything in its body raised. *)
Definition detect_face (image_data : bytes) : M (pyval * pyval) :=
  try_except
    (let processed_image := resize_image_if_needed image_data 2 2048 in
     result <- _make_request (detect_url self)
                 (_get_base_params ++ detect_params)
                 (Some processed_image) "detect_face" ;;
     faces <- lift (Py.get result "faces" PNone) ;;
     if negb (Py.truthy faces) then ret (PNone, PNone)
     else
       faces <- lift (Py.getitem result "faces") ;;
       face <- lift (Py.getitem0 faces) ;;
       face_token <- lift (Py.getitem face "face_token") ;;
       attributes <- lift (Py.get face "attributes" (PDict [])) ;;
       _ <- lift (Py.keys attributes) ;;
       quality <- lift (Py.get attributes "facequality" (PDict [])) ;;
       _ <- lift (Py.get quality "value" (PInt 0)) ;;
       ret (face_token, attributes))
    (fun _ => ret (PNone, PNone)).

Definition search_faces (face_token : pyval) (outer_id : string) (return_count : Z)
  : M pyval :=
  try_except
    (result <- _make_request (search_url self)
                 (_get_base_params ++
                  [("face_token", face_token); ("outer_id", PStr outer_id);
                   ("return_result_count", PInt return_count)])
                 None "search_faces" ;;
     ok <- lift (truthy_and_contains result "results") ;;
     if ok then lift (Py.getitem result "results")
     else raise (HTTPException 500 "Face search failed: Invalid response format"))
    (reraise "Face search failed: ").

Definition get_faceset_detail (outer_id : string) : M pyval :=
  try_except
    (result <- _make_request (get_detail_url self)
                 (_get_base_params ++ [("outer_id", PStr outer_id)])
                 None "get_faceset_detail" ;;
     ok <- lift (truthy_and_contains result "face_count") ;;
     if ok then ret result
     else raise (HTTPException 500
                   "Failed to get FaceSet details: Invalid response format"))
    (reraise "Failed to get FaceSet details: ").

End Manager.

(* ----------------------------------------------------------------- *)
(** *** FaceVerification *)

Record FaceVerification : Type := {
  confidence_threshold : float;
  min_face_quality : float;
  fpp_manager : FacePlusPlusManager
}.

(** The two response schemas live in [face_verification_schema], which is not
    part of the sources at hand; they are taken as plain records of the fields
    the engine fills in. *)
Record FaceVerificationMatch : Type := {
  confidence : float;
  face_token : pyval
}.

Record VerificationResponse : Type := {
  status : string;
  message : string;
  is_duplicate : bool;
  response_face_token : option pyval;
  response_confidence : option float;
  matches : option (list FaceVerificationMatch)
}.

(** [FaceVerification.__init__] *)
Definition FaceVerification_init (fpp : FacePlusPlusManager) : FaceVerification :=
  {| confidence_threshold := 90; min_face_quality := 40; fpp_manager := fpp |}.

Definition error_response (msg : string) : VerificationResponse :=
  {| status := "error"; message := msg; is_duplicate := false;
     response_face_token := None; response_confidence := None; matches := None |}.

(** [sorted(l, key=key, reverse=True)]: CPython reverses the list, sorts it
    stably in ascending order using only [<] on the keys, and reverses the
    outcome. *)
Section Sorted.
Variable A : Type.
Variable key : A -> float.

Fixpoint insert_asc (x : A) (l : list A) : list A :=
  match l with
  | [] => [x]
  | y :: l' => if PrimFloat.ltb (key x) (key y) then x :: y :: l'
               else y :: insert_asc x l'
  end.

Definition sort_asc (l : list A) : list A :=
  fold_left (fun acc x => insert_asc x acc) l [].

Definition sorted_reverse (l : list A) : list A := rev (sort_asc (rev l)).

End Sorted.

Section Verification.
Variable self : FaceVerification.

Definition _validate_face_attributes (attributes : pyval) : res (bool * string) :=
  if negb (Py.truthy attributes) then Ok (false, "No face attributes detected")
  else
    result_bind (Py.get attributes "facequality" (PDict [])) (fun quality =>
    result_bind (Py.get quality "value" (PInt 0)) (fun face_quality =>
    result_bind (Py.gt0 face_quality) (fun _ =>
    result_bind (Py.get attributes "gender" PNone) (fun gender =>
    result_bind (Py.get attributes "age" PNone) (fun age =>
    result_bind (Py.get attributes "ethnicity" PNone) (fun ethnicity =>
    if negb (Py.is_not_None gender || Py.is_not_None age || Py.is_not_None ethnicity)
    then Ok (false, "Unable to detect human face characteristics")
    else
      result_bind (Py.gt0 face_quality) (fun positive =>
      result_bind (if positive then Py.lt_float face_quality (min_face_quality self)
                   else Ok false) (fun _ =>
      Ok (true, "Valid human face detected"))))))))).

(** The inner [for result in results] of [search_similar_faces]: [matches] is
    appended to in place, so what was gathered before an exception stays. *)
Fixpoint gather (results : list pyval) (matches : list FaceVerificationMatch)
  : list FaceVerificationMatch * option exn :=
  match results with
  | [] => (matches, None)
  | result :: rest =>
      match result_bind (Py.get result "confidence" (PInt 0)) py_float with
      | Raise e => (matches, Some e)
      | Ok c =>
          if PrimFloat.leb (confidence_threshold self) c then
            match Py.get result "face_token" (PStr "") with
            | Raise e => (matches, Some e)
            | Ok tok => gather rest (matches ++ [{| confidence := c; face_token := tok |}])
            end
          else gather rest matches
      end
  end.

(** One turn of [for faceset_id, stored_tokens in facesets.items()]. *)
Definition search_faceset (face_token : pyval) (faceset : string * list string)
  (matches : list FaceVerificationMatch) : M (list FaceVerificationMatch) :=
  let '(faceset_id, stored_tokens) := faceset in
  match stored_tokens with
  | [] => ret matches
  | _ =>
      fun s =>
        match search_faces (fpp_manager self) face_token faceset_id 5 s with
        | (Raise _, s') => (Ok matches, s')
        | (Ok results, s') =>
            match Py.iter results with
            | Raise _ => (Ok matches, s')
            | Ok l => (Ok (fst (gather l matches)), s')
            end
        end
  end.

Fixpoint search_facesets (face_token : pyval) (facesets : list (string * list string))
  (matches : list FaceVerificationMatch) : M (list FaceVerificationMatch) :=
  match facesets with
  | [] => ret matches
  | faceset :: rest =>
      matches <- search_faceset face_token faceset matches ;;
      search_facesets face_token rest matches
  end.

Definition search_similar_faces (face_token : pyval) : M (list FaceVerificationMatch) :=
  try_except
    (facesets <- call ev_get_all_stored_faces get_all_stored_faces ;;
     matches <- search_facesets face_token facesets [] ;;
     ret (sorted_reverse confidence matches))
    (fun e => raise (HTTPException 500 ("Error during face search: " ++ exn_str e)%string)).

Definition save_face_data (face_token : pyval) : M bool :=
  try_except
    (faceset_info <- call ev_find_available_faceset find_available_faceset ;;
     faceset_id <-
       match faceset_info with
       | Some (faceset_id, _) =>
           details <- get_faceset_detail (fpp_manager self) faceset_id ;;
           stale <- (if negb (Py.truthy details) then ret true
                     else lift (Py.contains "error_message" details)) ;;
           ret (if stale then None else Some faceset_id)
       | None => ret None
       end ;;
     let create : M string :=
       faceset_id <- create_new_faceset (fpp_manager self) ;;
       if negb (Py.truthy (PStr faceset_id)) then
         raise (HTTPException 500 "Failed to create new FaceSet in Face++ API")
       else ret faceset_id in
     faceset_id <-
       match faceset_id with
       | Some faceset_id => if negb (Py.truthy (PStr faceset_id)) then create
                            else ret faceset_id
       | None => create
       end ;;
     added <- add_face_to_faceset (fpp_manager self) face_token faceset_id ;;
     (if negb added then
        raise (HTTPException 500
                 ("Failed to add face to FaceSet " ++ faceset_id ++ " in Face++ API")%string)
      else ret tt) ;;
     saved <- call (ev_save_face_token face_token faceset_id)
                (save_face_token face_token faceset_id) ;;
     (if negb saved then
        raise (HTTPException 500 "Failed to save face token to database")
      else ret tt) ;;
     details <- get_faceset_detail (fpp_manager self) faceset_id ;;
     has_count <- lift (truthy_and_contains details "face_count") ;;
     (if has_count then
        count <- lift (Py.getitem details "face_count") ;;
        _ <- call (ev_update_faceset_count faceset_id count)
               (update_faceset_count faceset_id count) ;;
        ret tt
      else ret tt) ;;
     ret true)
    (fun e => raise (HTTPException 500 ("Error saving face data: " ++ exn_str e)%string)).

Definition verify_face (image_data : bytes) : M VerificationResponse :=
  try_except
    ('(face_token, attributes) <- detect_face (fpp_manager self) image_data ;;
     if negb (Py.truthy face_token) then ret (error_response "No face detected in image")
     else
       '(is_valid, message) <- lift (_validate_face_attributes attributes) ;;
       if negb is_valid then ret (error_response message)
       else
         matches <- search_similar_faces face_token ;;
         match matches with
         | best_match :: _ =>
             ret {| status := "duplicate_found";
                    message := "Potential duplicate face detected";
                    is_duplicate := true;
                    response_face_token := Some face_token;
                    response_confidence := Some (confidence best_match);
                    matches := Some matches |}
         | [] =>
             saved <- save_face_data face_token ;;
             if negb saved then ret (error_response "Failed to save face data")
             else
               ret {| status := "success";
                      message := "New face registered successfully";
                      is_duplicate := false;
                      response_face_token := Some face_token;
                      response_confidence := None;
                      matches := None |}
         end)
    (fun e => ret (error_response (exn_str e))).

(** Vocabulary for the duplicate search. *)

(** How [search_similar_faces] reads one entry of a search reply. *)
Definition match_of (result : pyval) : res FaceVerificationMatch :=
  result_bind (result_bind (Py.get result "confidence" (PInt 0)) py_float) (fun c =>
  result_bind (Py.get result "face_token" (PStr "")) (fun tok =>
  Ok {| confidence := c; face_token := tok |})).

Definition above_threshold (m : FaceVerificationMatch) : bool :=
  PrimFloat.leb (confidence_threshold self) (confidence m).

(** The outcome of every gallery search made for one probe, in the order of
    the store's galleries; a gallery with no stored token is not searched. *)
Fixpoint gallery_searches (face_token : pyval) (facesets : list (string * list string))
  (s : state) : list (res pyval) * state :=
  match facesets with
  | [] => ([], s)
  | (faceset_id, stored_tokens) :: rest =>
      match stored_tokens with
      | [] => gallery_searches face_token rest s
      | _ =>
          let '(outcome, s1) := search_faces (fpp_manager self) face_token faceset_id 5 s in
          let '(outcomes, s2) := gallery_searches face_token rest s1 in
          (outcome :: outcomes, s2)
      end
  end.

(** What one gallery search contributes: nothing when it failed, the matches
    gathered from its results when it succeeded. *)
Definition gathered_from (outcome : res pyval) : list FaceVerificationMatch :=
  match outcome with
  | Raise _ => []
  | Ok results =>
      match Py.iter results with
      | Ok l => fst (gather l [])
      | Raise _ => []
      end
  end.

End Verification.

(** Vocabulary of the statements below. *)

(** [attributes] holds a non-null "gender", "age" or "ethnicity". *)
Definition has_human_attribute (attributes : pyval) : bool :=
  match attributes with
  | PDict kv =>
      existsb (fun k => match Py.lookup k kv with
                        | Some v => Py.is_not_None v
                        | None => false
                        end) ["gender"; "age"; "ethnicity"]
  | _ => false
  end.

(** The value [_validate_face_attributes] reads as [face_quality]. *)
Definition face_quality (attributes : pyval) : res pyval :=
  result_bind (Py.get attributes "facequality" (PDict [])) (fun quality =>
  Py.get quality "value" (PInt 0)).

Definition is_number (v : pyval) : bool :=
  match v with PBool _ | PInt _ | PFloat _ => true | _ => false end.

(** [emits P m]: running [m] appends events to the trace, all satisfying [P]. *)
Definition emits {A} (P : event -> bool) (m : M A) : Prop :=
  forall s, exists evs,
    trace (snd (m s)) = trace s ++ evs /\ forallb P evs = true.


Definition is_post (ev : event) : bool :=
  match ev with ev_post _ _ => true | _ => false end.

(** [posts_at_most n m]: running [m] appends events to the trace, at most [n]
    of them requests to the provider. *)
Definition posts_at_most {A} (n : nat) (m : M A) : Prop :=
  forall s, exists evs,
    trace (snd (m s)) = trace s ++ evs
    /\ (List.length (filter is_post evs) <= n)%nat.

(** A float that compares with itself is not a nan. *)
Definition comparable (f : float) : Prop := PrimFloat.leb f f = true.


(** A wait between two attempts of one request: [_make_request] waits a whole
    number of seconds, the rate gate a float. *)
Definition is_backoff (ev : event) : bool :=
  match ev with ev_sleep (PInt _) => true | _ => false end.


(** The form of [r] holds the string [value] under [key]. *)
Definition field_is (key value : string) (r : request) : bool :=
  match Py.lookup key (form r) with
  | Some v => Py.eq_str v value
  | None => false
  end.

(** The URL each operation posts to. *)
Definition endpoint (self : FacePlusPlusManager) (operation : string) : option string :=
  if String.eqb operation "detect_face" then Some (detect_url self)
  else if String.eqb operation "search_faces" then Some (search_url self)
  else if String.eqb operation "create_faceset" then Some (create_url self)
  else if String.eqb operation "add_face" then Some (add_url self)
  else if String.eqb operation "get_faceset_detail" then Some (get_detail_url self)
  else None.

(** A request of one of the five operations, sent to its URL with the
    manager's credentials; any other event passes. *)
Definition provider_request (self : FacePlusPlusManager) (ev : event) : bool :=
  match ev with
  | ev_post operation r =>
      match endpoint self operation with
      | Some u => String.eqb (url r) u
      | None => false
      end
      && field_is "api_key" (api_key self) r
      && field_is "api_secret" (api_secret self) r
  | _ => true
  end.

(** Events of the read-only part of a verification: waiting, detecting,
    listing the galleries and searching them. *)
Definition lookup_traffic (ev : event) : bool :=
  match ev with
  | ev_sleep _ => true
  | ev_post operation _ =>
      String.eqb operation "detect_face" || String.eqb operation "search_faces"
  | ev_get_all_stored_faces => true
  | _ => false
  end.

(** A detect request as [detect_face] builds it for the bytes [image]: it
    uploads [image] and asks for the four attributes; any other event passes. *)
Definition detect_request (image : bytes) (ev : event) : bool :=
  match ev with
  | ev_post operation r =>
      String.eqb operation "detect_face"
      && field_is "return_attributes" "gender,age,ethnicity,facequality" r
      && match files r with
         | Some b => if list_eq_dec Byte.byte_eq_dec b image then true else false
         | None => false
         end
  | _ => true
  end.

(** A JSON body that is no container: null, a boolean or a number. *)
Definition is_scalar (v : pyval) : bool :=
  match v with PNone | PBool _ | PInt _ | PFloat _ => true | _ => false end.

(** Events of registering into the gallery [id] without creating it: waiting,
    asking the store, detail and add requests naming [id], saving under [id]
    and updating the count of [id]. *)
Definition registers_into (id : string) (ev : event) : bool :=
  match ev with
  | ev_sleep _ => true
  | ev_post operation r =>
      (String.eqb operation "get_faceset_detail" || String.eqb operation "add_face")
      && field_is "outer_id" id r
  | ev_find_available_faceset => true
  | ev_save_face_token _ faceset_id => String.eqb faceset_id id
  | ev_update_faceset_count faceset_id _ => String.eqb faceset_id id
  | ev_get_all_stored_faces => false
  end.

(** A gallery the duplicate search queries: one with a stored token. *)
Definition searched (faceset : string * list string) : bool :=
  match snd faceset with [] => false | _ => true end.

(** Events of creating the gallery [id]: waiting, and create requests naming
    [id] as outer id and display name. *)
Definition creates_gallery (id : string) (ev : event) : bool :=
  match ev with
  | ev_sleep _ => true
  | ev_post operation r =>
      String.eqb operation "create_faceset"
      && field_is "outer_id" id r && field_is "display_name" id r
  | _ => false
  end.

End Engine.

(* ================================================================= *)
(** ** Concrete collaborators

    Small instances of the three interfaces, used to run the engine on
    concrete inputs. *)

Module Fixture.

Definition runtime : PyRuntime := {|
  float_of_str := fun _ => Raise ValueError;
  repr := fun _ => "<value>";
  json_dumps := fun _ => "<json>";
  exn_str := fun e =>
    match e with
    | HTTPException _ detail => detail
    | RequestException msg => msg
    | OSError msg => msg
    | OtherException _ msg => msg
    | _ => "<error>"
    end
|}.

(** An image library whose decoder always yields a [w] x [h] image of mode [m]
    and whose encoder yields [size w' h' q] zero bytes, or refuses when
    [writable] says the mode cannot be written as JPEG. *)
Definition pillow (m : string) (w h : Z) (writable : string -> bool)
  (size : Z -> Z -> Z -> nat) : Pillow := {|
  pixels := unit;
  Image_open := fun _ => Ok {| mode := m; width := w; height := h; data := tt |};
  convert_pixels := fun _ _ => Ok tt;
  resample := fun _ _ => Ok tt;
  save_jpeg := fun img q =>
    if writable (mode img)
    then Ok (repeat Byte.x00 (size (width img) (height img) q))
    else Raise (OSError "cannot write mode as JPEG")
|}.

(** A 16-bit greyscale image (Pillow's mode "I;16"): it decodes, and the JPEG
    encoder refuses it. *)
Definition deep_grey_pillow : Pillow :=
  pillow "I;16" 4000 3000 (fun m => String.eqb m "RGB") (fun _ _ _ => 4%nat).

(** Three million bytes of input. *)
Definition three_megabytes : bytes := repeat Byte.x00 (N.to_nat 3000000).

Definition rgb_pillow (w h : Z) : Pillow :=
  pillow "RGB" w h (fun _ => true) (fun _ _ _ => 4%nat).





(** A scripted world: the transport answers with [replies] in order and
    fails once they are used up; the store answers the same every time;
    sleeping advances the clock. *)
Record script : Type := {
  replies : list (res response);
  clock : float;
  stored : res (list (string * list string));
  available : res (option (string * Z));
  save_answer : res bool;
  update_answer : res bool
}.

Definition scripted : World := {|
  world := script;
  time_time := fun w => (clock w, w);
  time_sleep := fun seconds w =>
    let d := match seconds with
             | PInt n => PrimFloat.of_uint63 (Uint63.of_Z n)
             | PFloat f => f
             | _ => 0%float
             end in
    {| replies := replies w; clock := (clock w + d)%float; stored := stored w;
       available := available w; save_answer := save_answer w;
       update_answer := update_answer w |};
  requests_post := fun _ w =>
    match replies w with
    | [] => (Raise (RequestException "connection refused"), w)
    | r :: rest =>
        (r, {| replies := rest; clock := clock w; stored := stored w;
               available := available w; save_answer := save_answer w;
               update_answer := update_answer w |})
    end;
  uuid4_hex := fun w => ("0123456789abcdef0123456789abcdef", w);
  get_all_stored_faces := fun w => (stored w, w);
  find_available_faceset := fun w => (available w, w);
  save_face_token := fun _ _ w => (save_answer w, w);
  update_faceset_count := fun _ _ w => (update_answer w, w)
|}.

Definition manager : FacePlusPlusManager := {|
  api_key := "key"; api_secret := "secret";
  detect_url := "https://fpp/detect"; search_url := "https://fpp/search";
  create_url := "https://fpp/create"; add_url := "https://fpp/add";
  get_detail_url := "https://fpp/getdetail";
  max_retries := 3; retry_delay := 2
|}.

Definition verifier : FaceVerification := FaceVerification_init manager.

Definition reply (code : Z) (body : list (string * pyval)) : res response :=
  Ok {| status_code := code; json := Some (PDict body) |}.

Definition empty_store (rs : list (res response)) : script := {|
  replies := rs; clock := 100;
  stored := Ok []; available := Ok None;
  save_answer := Ok true; update_answer := Ok true
|}.

Definition small_image : Pillow := rgb_pillow 640 480.
Definition face_reply (attributes : list (string * pyval)) : res response :=
  reply 200 [("faces", PList [PDict [("face_token", PStr "tokA");
                                     ("attributes", PDict attributes)]])].

Definition low_quality : string * pyval :=
  ("facequality", PDict [("value", PFloat 12.5); ("threshold", PFloat 70.1)]).

Definition gender_male : string * pyval :=
  ("gender", PDict [("value", PStr "Male")]).

(** The store offers "faceset_old"; the provider no longer knows it and
    answers the detail request with HTTP 400; it would accept every later
    request. *)
Definition stale_world : script := {|
  replies := [reply 400 [("error_message", PStr "INVALID_OUTER_ID")];
              reply 200 [("faceset_token", PStr "fs1")];
              reply 200 [("face_added", PInt 1)];
              reply 200 [("face_count", PInt 1)]];
  clock := 100;
  stored := Ok [];
  available := Ok (Some ("faceset_old", 5));
  save_answer := Ok true;
  update_answer := Ok true
|}.

Definition is_create_request (ev : event) : bool :=
  match ev with
  | ev_post operation _ => String.eqb operation "create_faceset"
  | _ => false
  end.

Definition search_entry (c : float) (tok : string) : pyval :=
  PDict [("confidence", PFloat c); ("face_token", PStr tok)].

(** Three galleries: one empty, one the provider no longer knows, one that
    answers with three candidates, two of them at 90 or more. *)
Definition three_galleries : script := {|
  replies := [reply 400 [("error_message", PStr "INVALID_OUTER_ID")];
              reply 200 [("results", PList [search_entry 91.5 "t7";
                                            search_entry 80.25 "t8";
                                            search_entry 97.75 "t9"])]];
  clock := 100;
  stored := Ok [("fs_empty", []); ("fs_gone", ["t1"]); ("fs_live", ["t7"; "t8"; "t9"])];
  available := Ok None;
  save_answer := Ok true;
  update_answer := Ok true
|}.

Definition busy : res response :=
  reply 403 [("error_message", PStr "CONCURRENCY_LIMIT_EXCEEDED")].

Definition search_request : request :=
  {| url := "https://fpp/search"; form := []; files := None |}.

(** The state of a fresh manager in a scripted world. *)
Definition start (w : script) : @state scripted := @initial scripted w.


(** What the encoder of [small_image] yields for the 640 x 480 image at the
    last resort. *)
Definition small_decoded : image (@pixels small_image) :=
  {| mode := "RGB"; width := 640; height := 480; data := (tt : @pixels small_image) |}.

Definition small_last_resort : @encoded small_image :=
  {| out_bytes := repeat Byte.x00 4; out_image := small_decoded;
     out_rung := last_resort |}.

(** An image with an alpha channel, for an encoder that writes RGB only. *)
Definition rgba_pillow : Pillow :=
  pillow "RGBA" 640 480 (fun m => String.eqb m "RGB") (fun _ _ _ => 4%nat).

Definition rgba_decoded : image (@pixels rgba_pillow) :=
  {| mode := "RGBA"; width := 640; height := 480; data := (tt : @pixels rgba_pillow) |}.

Definition rgba_encoded : @encoded rgba_pillow :=
  {| out_bytes := repeat Byte.x00 4;
     out_image := {| mode := "RGB"; width := 640; height := 480;
                     data := (tt : @pixels rgba_pillow) |};
     out_rung := quality_rung 90 |}.




Definition strip_pillow : Pillow := rgb_pillow 47 100.

Definition strip_decoded : image (@pixels strip_pillow) :=
  {| mode := "RGB"; width := 47; height := 100; data := (tt : @pixels strip_pillow) |}.

Definition strip_encoded : @encoded strip_pillow :=
  {| out_bytes := repeat Byte.x00 4;
     out_image := {| mode := "RGB"; width := 47; height := 102;
                     data := (tt : @pixels strip_pillow) |};
     out_rung := quality_rung 90 |}.

(** A face that is already known: detection succeeds, the one gallery answers
    with a candidate at 97.75. *)
Definition known_face : script := {|
  replies := [face_reply [gender_male; low_quality];
              reply 200 [("results", PList [search_entry 97.75 "t9";
                                            search_entry 42.5 "t3"])]];
  clock := 100;
  stored := Ok [("fs_live", ["t3"; "t9"])];
  available := Ok None;
  save_answer := Ok true;
  update_answer := Ok true
|}.

Definition duplicate_response : VerificationResponse :=
  {| status := "duplicate_found";
     message := "Potential duplicate face detected";
     is_duplicate := true;
     response_face_token := Some (PStr "tokA");
     response_confidence := Some 97.75%float;
     matches := Some [{| confidence := 97.75; face_token := PStr "t9" |}] |}.

(** A new face and an empty store: detection, then a fresh gallery, the
    addition and the gallery's details. *)
Definition new_face : script :=
  empty_store [face_reply [gender_male];
               reply 200 [("faceset_token", PStr "fs1")];
               reply 200 [("face_added", PInt 1)];
               reply 200 [("face_count", PInt 1)]].

Definition success_response : VerificationResponse :=
  {| status := "success";
     message := "New face registered successfully";
     is_duplicate := false;
     response_face_token := Some (PStr "tokA");
     response_confidence := None;
     matches := None |}.

(** The store offers "faceset_live", which the provider knows: its details,
    the addition, and its details again. *)
Definition offered_gallery : script := {|
  replies := [reply 200 [("face_count", PInt 5)];
              reply 200 [("face_added", PInt 1)];
              reply 200 [("face_count", PInt 6)]];
  clock := 100;
  stored := Ok [];
  available := Ok (Some ("faceset_live", 5));
  save_answer := Ok true;
  update_answer := Ok true
|}.

(** A reply whose body is the JSON value null. *)
Definition null_reply : response := {| status_code := 500; json := Some PNone |}.

Definition no_results : list (string * pyval) := [("results", PList [])].

End Fixture.

(* ================================================================= *)
(** * Properties *)

(** ** Reasoning about computations *)

Section Monad_facts.
Variables S A B : Type.

Lemma bind_Ok_inv (m : SE S A) (k : A -> SE S B) s b s' :
  bind m k s = (Ok b, s') ->
  exists a s1, m s = (Ok a, s1) /\ k a s1 = (Ok b, s').
Proof.
  unfold bind. destruct (m s) as [[a|e] s1]; intros H.
  - exists a, s1. auto.
  - discriminate.
Qed.

Lemma bind_Raise_inv (m : SE S A) (k : A -> SE S B) s e s' :
  bind m k s = (Raise e, s') ->
  m s = (Raise e, s') \/ exists a s1, m s = (Ok a, s1) /\ k a s1 = (Raise e, s').
Proof.
  unfold bind. destruct (m s) as [[a|e0] s1]; intros H.
  - right. exists a, s1. auto.
  - left. now inversion H.
Qed.

Lemma returns_only_ret (P : A -> Prop) (a : A) : P a -> returns_only P (ret a : SE S A).
Proof. intros H s a' s' E. unfold ret in E. now inversion E; subst. Qed.

Lemma returns_only_raise (P : A -> Prop) (e : exn) : returns_only P (raise e : SE S A).
Proof. intros s a' s' E. discriminate E. Qed.

Lemma returns_only_try (P : A -> Prop) (m : SE S A) (h : exn -> SE S A) :
  returns_only P m -> (forall e, returns_only P (h e)) ->
  returns_only P (try_except m h).
Proof.
  intros Hm Hh s a s' E. unfold try_except in E.
  destruct (m s) as [[a0|e] s1] eqn:Em.
  - inversion E; subst. eapply Hm; eauto.
  - eapply Hh; eauto.
Qed.

End Monad_facts.

Lemma Ok_inj A (a b : A) : Ok a = Ok b -> a = b.
Proof. now intros [= ->]. Qed.

Lemma bind_lift_Ok S A B (a : A) (k : A -> SE S B) s :
  bind (lift (Ok a)) k s = k a s.
Proof. reflexivity. Qed.

Lemma bind_lift_Raise S A B e (k : A -> SE S B) s :
  bind (lift (Raise e)) k s = (Raise e, s).
Proof. reflexivity. Qed.

Lemma returns_only_bind S A B (P : B -> Prop) (m : SE S A) (k : A -> SE S B) :
  (forall a, returns_only P (k a)) -> returns_only P (bind m k).
Proof.
  intros Hk s b s' E. apply bind_Ok_inv in E as (a & s1 & _ & E).
  eapply Hk; eauto.
Qed.

Lemma returns_only_bind_lift S A B (P : B -> Prop) (r : res A) (k : A -> SE S B) :
  (forall a, r = Ok a -> returns_only P (k a)) -> returns_only P (bind (lift r) k).
Proof.
  intros Hk s b s' E. unfold bind, lift in E. destruct r as [a|e]; [|discriminate].
  eapply Hk; eauto.
Qed.

Lemma returns_only_bind_after S A B (Q : A -> Prop) (P : B -> Prop)
  (m : SE S A) (k : A -> SE S B) :
  returns_only Q m -> (forall a, Q a -> returns_only P (k a)) ->
  returns_only P (bind m k).
Proof.
  intros Hm Hk s b s' E. apply bind_Ok_inv in E as (a & s1 & Ea & E).
  eapply Hk; eauto.
Qed.

Ltac returns_only_step :=
  match goal with
  | |- returns_only _ (bind _ _) => apply returns_only_bind; intros
  | |- returns_only _ (try_except _ _) => apply returns_only_try; intros
  | |- returns_only _ (ret _) => apply returns_only_ret
  | |- returns_only _ (raise _) => apply returns_only_raise
  | |- returns_only _ (if ?c then _ else _) => destruct c
  | |- returns_only _ (match ?x with _ => _ end) => destruct x
  end.

(** ** The order of binary64 values

    [<=] on floats is a total preorder away from nan; the facts are read off
    the specification of the primitive comparisons. *)

Ltac sf_cases :=
  repeat match goal with
         | s : bool |- _ => destruct s
         end;
  simpl; try discriminate; try reflexivity;
  change (Pos.compare_cont Eq) with Pos.compare;
  repeat match goal with
         | |- context [(?a ?= ?b)%Z] => destruct (Z.compare_spec a b)
         | |- context [(?a ?= ?b)%positive] => destruct (Pos.compare_spec a b)
         end;
  simpl; try discriminate; try reflexivity; intros; try lia.

Ltac sf_destruct x y :=
  destruct x as [?|?| |? ? ?], y as [?|?| |? ? ?];
  simpl; try discriminate; try reflexivity.

Lemma SFleb_trans x y z :
  SFleb x y = true -> SFleb y z = true -> SFleb x z = true.
Proof.
  unfold SFleb. sf_destruct x y; destruct z as [?|?| |? ? ?];
    simpl; try discriminate; try reflexivity; sf_cases.
Qed.

Lemma SFleb_total x y :
  SFleb x x = true -> SFleb y y = true -> SFltb x y = false -> SFleb y x = true.
Proof. unfold SFleb, SFltb. sf_destruct x y; sf_cases. Qed.

Lemma SFleb_refl_l x y : SFleb x y = true -> SFleb x x = true.
Proof. unfold SFleb. sf_destruct x y; sf_cases. Qed.

Lemma SFleb_refl_r x y : SFleb x y = true -> SFleb y y = true.
Proof. unfold SFleb. sf_destruct x y; sf_cases. Qed.

Lemma SFltb_leb x y : SFltb x y = true -> SFleb x y = true.
Proof. unfold SFleb, SFltb. destruct (SFcompare x y) as [[ | | ]|]; auto. Qed.

Lemma leb_trans (a b c : float) :
  PrimFloat.leb a b = true -> PrimFloat.leb b c = true -> PrimFloat.leb a c = true.
Proof. rewrite !leb_spec. apply SFleb_trans. Qed.

Lemma leb_total (a b : float) :
  comparable a -> comparable b -> PrimFloat.ltb a b = false -> PrimFloat.leb b a = true.
Proof. unfold comparable. rewrite !leb_spec, ltb_spec. apply SFleb_total. Qed.

Lemma leb_comparable_l (a b : float) : PrimFloat.leb a b = true -> comparable a.
Proof. unfold comparable. rewrite !leb_spec. apply SFleb_refl_l. Qed.

Lemma leb_comparable_r (a b : float) : PrimFloat.leb a b = true -> comparable b.
Proof. unfold comparable. rewrite !leb_spec. apply SFleb_refl_r. Qed.

Lemma ltb_leb (a b : float) : PrimFloat.ltb a b = true -> PrimFloat.leb a b = true.
Proof. rewrite leb_spec, ltb_spec. apply SFltb_leb. Qed.

(** ** [sorted(..., reverse=True)] *)

Section Sorted_facts.
Variable A : Type.
Variable key : A -> float.

Let asc (a b : A) : Prop := PrimFloat.leb (key a) (key b) = true.
Let desc (a b : A) : Prop := PrimFloat.leb (key b) (key a) = true.

Lemma insert_asc_perm x l : Permutation (insert_asc key x l) (x :: l).
Proof.
  induction l as [|y l IH]; simpl; [reflexivity|].
  destruct (PrimFloat.ltb (key x) (key y)); [reflexivity|].
  rewrite IH. apply perm_swap.
Qed.

Lemma insert_asc_sorted x l :
  comparable (key x) -> Forall (fun y => comparable (key y)) l ->
  StronglySorted asc l -> StronglySorted asc (insert_asc key x l).
Proof.
  intros Hx Hl Hs. induction Hs as [|y l Hs IH Hy]; simpl.
  - repeat constructor.
  - inversion Hl as [|? ? Cy Cl]; subst.
    destruct (PrimFloat.ltb (key x) (key y)) eqn:E.
    + constructor; [now constructor|]. apply ltb_leb in E.
      constructor; [exact E|].
      eapply Forall_impl; [|exact Hy]. intros z Hz. unfold asc in *.
      eapply leb_trans; eauto.
    + constructor; [now apply IH|].
      apply (Permutation_Forall (Permutation_sym (insert_asc_perm x l))).
      constructor; [|exact Hy]. now apply leb_total.
Qed.

Lemma fold_insert_perm l acc :
  Permutation (fold_left (fun acc x => insert_asc key x acc) l acc) (l ++ acc).
Proof.
  revert acc. induction l as [|x l IH]; intros acc; simpl; [reflexivity|].
  rewrite IH, insert_asc_perm. symmetry. apply Permutation_middle.
Qed.

Lemma fold_insert_sorted l acc :
  Forall (fun y => comparable (key y)) l ->
  Forall (fun y => comparable (key y)) acc ->
  StronglySorted asc acc ->
  StronglySorted asc (fold_left (fun acc x => insert_asc key x acc) l acc).
Proof.
  revert acc. induction l as [|x l IH]; intros acc Hl Ha Hs; simpl; [exact Hs|].
  inversion Hl; subst. apply IH; auto.
  - apply (Permutation_Forall (Permutation_sym (insert_asc_perm x acc))).
    now constructor.
  - now apply insert_asc_sorted.
Qed.

Lemma sorted_snoc (R : A -> A -> Prop) l x :
  StronglySorted R l -> Forall (fun y => R y x) l -> StronglySorted R (l ++ [x]).
Proof.
  induction 1 as [|y l Hs IH Hy]; intros Hx; simpl.
  - repeat constructor.
  - inversion Hx; subst. constructor; [now apply IH|].
    apply Forall_app. split; [exact Hy|now constructor].
Qed.

Lemma sorted_rev l : StronglySorted asc l -> StronglySorted desc (rev l).
Proof.
  induction 1 as [|y l Hs IH Hy]; simpl; [constructor|].
  apply sorted_snoc; [exact IH|]. apply Forall_rev. exact Hy.
Qed.

Lemma sorted_reverse_perm l : Permutation (sorted_reverse key l) l.
Proof.
  unfold sorted_reverse, sort_asc.
  rewrite <- Permutation_rev, fold_insert_perm, app_nil_r.
  symmetry. apply Permutation_rev.
Qed.

Lemma sorted_reverse_descending l :
  Forall (fun y => comparable (key y)) l ->
  StronglySorted desc (sorted_reverse key l).
Proof.
  intros H. unfold sorted_reverse, sort_asc. apply sorted_rev.
  apply fold_insert_sorted; [now apply Forall_rev|constructor|constructor].
Qed.

End Sorted_facts.

(** ** The image normalizer *)

Section Normalizer_facts.
Context {pil : Pillow}.

Lemma fits_spec (b : bytes) (max_size_mb : Z) :
  fits b max_size_mb = true <-> Z.of_nat (List.length b) <= budget max_size_mb.
Proof.
  unfold fits, budget. rewrite Qle_bool_iff. unfold Qle, Qdiv, Qmult, Qinv, inject_Z.
  simpl. lia.
Qed.

Lemma quality_turns_step q : 20 < q ->
  Z.to_nat ((q - 16) / 5) = S (Z.to_nat ((q - 5 - 16) / 5)).
Proof.
  intros H. rewrite <- Z2Nat.inj_succ by (apply Z.div_pos; lia).
  f_equal. replace (q - 16) with ((q - 5 - 16) + 1 * 5) by lia.
  rewrite Z.div_add by lia. lia.
Qed.

Lemma quality_turns_done q : q <= 20 -> Z.to_nat ((q - 16) / 5) = 0%nat.
Proof.
  intros H. assert ((q - 16) / 5 < 1) by (apply Z.div_lt_upper_bound; lia).
  lia.
Qed.

(** The first loop: with enough fuel it never stops short; it encodes at most
    once per quality 5 apart above 20; what it returns fits the budget. *)
Lemma quality_loop_spec fuel img q max_size_mb log :
  (Z.to_nat ((q - 16) / 5) <= fuel)%nat ->
  exists l,
    snd (quality_loop fuel img q max_size_mb log) = log ++ l
    /\ (List.length l <= Z.to_nat ((q - 16) / 5))%nat
    /\ match fst (quality_loop fuel img q max_size_mb log) with
       | Ok (Returned e) =>
           fits (out_bytes e) max_size_mb = true /\ out_image e = img
           /\ exists q', out_rung e = quality_rung q' /\ 20 < q' <= q
       | Ok Exit => True
       | Ok Fuel => False
       | Raise _ => True
       end.
Proof.
  revert q log. induction fuel as [|fuel IH]; intros q log Hf.
  - simpl. destruct (Z.gtb_spec q 20) as [Hq|Hq].
    + rewrite quality_turns_step in Hf by lia. lia.
    + exists []. rewrite app_nil_r. simpl. repeat split; auto. lia.
  - simpl. destruct (Z.gtb_spec q 20) as [Hq|Hq].
    2:{ exists []. rewrite app_nil_r. simpl. repeat split; auto. lia. }
    rewrite quality_turns_step in * by lia.
    unfold bind, save. destruct (save_jpeg img q) as [b|e].
    + destruct (fits b max_size_mb) eqn:Hfit.
      * exists [(width img, height img, q)]. simpl. repeat split; auto; try lia.
        exists q. split; [reflexivity|lia].
      * destruct (IH (q - 5) (log ++ [(width img, height img, q)])) as (l & E & L & R);
          [lia|].
        exists ((width img, height img, q) :: l). rewrite E, <- app_assoc. simpl.
        split; [reflexivity|]. split; [lia|].
        destruct (fst (quality_loop _ _ _ _ _)) as [[e| |]|]; auto.
        destruct R as (R1 & R2 & q' & R3 & R4). repeat split; auto.
        exists q'. split; [exact R3|lia].
    + exists [(width img, height img, q)]. simpl. repeat split; auto. lia.
Qed.

(** The second loop, likewise; the encoding it returns is the image resized
    to [int(w * scale)] by [int(h * scale)] for the scale of some live turn. *)
Lemma scale_loop_spec fuel img w h scale max_size_mb min_dim log r log' :
  scale_loop fuel img w h scale max_size_mb min_dim log = (r, log') ->
  exists l,
    log' = log ++ l
    /\ (List.length l <= live_turns fuel scale)%nat
    /\ match r with
       | Ok (Returned e) =>
           fits (out_bytes e) max_size_mb = true
           /\ exists k, (k < live_turns fuel scale)%nat
                /\ out_rung e = scale_rung (nth_scale scale k)
                /\ Py.int_of_float (Py.float_of_Z w * nth_scale scale k)
                   = Ok (width (out_image e))
                /\ Py.int_of_float (Py.float_of_Z h * nth_scale scale k)
                   = Ok (height (out_image e))
       | Ok Exit => True
       | Ok Fuel => live_turns fuel scale = fuel
       | Raise _ => True
       end.
Proof.
  revert scale log r log'. induction fuel as [|fuel IH]; intros scale log r log' H.
  - cbn [scale_loop live_turns] in *. destruct (PrimFloat.ltb 0.3 scale);
      inversion H; subst; exists []; rewrite app_nil_r; simpl; auto.
  - cbn [scale_loop live_turns] in *. destruct (PrimFloat.ltb 0.3 scale).
    2:{ inversion H; subst. exists []. rewrite app_nil_r. simpl. auto. }
    assert (Stop : forall x, match x with
                             | Ok Exit | Raise _ => True
                             | _ => False
                             end ->
                   (x, log) = (r, log') ->
              exists l : save_log,
                log' = log ++ l /\ (List.length l <= S (live_turns fuel (scale - 0.1)))%nat
                /\ match r with
                   | Ok (Returned e) =>
                       fits (out_bytes e) max_size_mb = true
                       /\ exists k, (k < S (live_turns fuel (scale - 0.1)))%nat
                            /\ out_rung e = scale_rung (nth_scale scale k)
                            /\ Py.int_of_float (Py.float_of_Z w * nth_scale scale k)
                               = Ok (width (out_image e))
                            /\ Py.int_of_float (Py.float_of_Z h * nth_scale scale k)
                               = Ok (height (out_image e))
                   | Ok Exit => True
                   | Ok Fuel => S (live_turns fuel (scale - 0.1)) = S fuel
                   | Raise _ => True
                   end).
    { intros x Hx E. inversion E; subst. exists []. rewrite app_nil_r. simpl.
      split; [reflexivity|]. split; [lia|].
      destruct r as [[?| |]|]; auto; contradiction. }
    destruct (Py.int_of_float (Py.float_of_Z w * scale)) as [nw|e] eqn:Ew;
      [rewrite bind_lift_Ok in H|rewrite bind_lift_Raise in H; now apply Stop in H].
    destruct (Py.int_of_float (Py.float_of_Z h * scale)) as [nh|e] eqn:Eh;
      [rewrite bind_lift_Ok in H|rewrite bind_lift_Raise in H; now apply Stop in H].
    destruct (Z.min nw nh <? min_dim); [now apply Stop in H|].
    destruct (Image.resize img (nw, nh)) as [img'|e] eqn:Er;
      [rewrite bind_lift_Ok in H|rewrite bind_lift_Raise in H; now apply Stop in H].
    assert (Hd : width img' = nw /\ height img' = nh).
    { unfold Image.resize in Er. destruct ((nw <? 1) || (nh <? 1)); [discriminate|].
      destruct (resample img (nw, nh)); simpl in Er; [|discriminate].
      inversion Er; subst img'. simpl. auto. }
    destruct Hd as [Hw Hh].
    unfold bind at 1, save at 1 in H. destruct (save_jpeg img' 85) as [b|e].
    + destruct (fits b max_size_mb) eqn:Hfit.
      * injection H as <- <-. exists [(width img', height img', 85)]. simpl.
        split; [reflexivity|]. split; [lia|]. split; [exact Hfit|].
        exists 0%nat. simpl. rewrite Hw, Hh. repeat split; auto. lia.
      * apply IH in H as (l & E & L & R).
        exists ((width img', height img', 85) :: l). rewrite E, <- app_assoc. simpl.
        split; [reflexivity|]. split; [lia|].
        destruct r as [[e| |]|]; auto.
        destruct R as (R1 & k & R2 & R3 & R4 & R5). split; [exact R1|].
        exists (S k). simpl. repeat split; auto. lia.
    + injection H as <- <-. exists [(width img', height img', 85)]. simpl.
      split; [reflexivity|]. split; [lia|exact I].
Qed.

Lemma live_turns_default : live_turns 8 0.8 = 6%nat.
Proof. vm_compute. reflexivity. Qed.

(** The whole ladder: at most 14 + 6 + 1 encodings, never cut short, and what
    it returns fits the budget unless it is the last resort. *)
Lemma compress_spec img max_size_mb r log :
  compress img max_size_mb [] = (r, log) ->
  (List.length log <= 21)%nat
  /\ match r with
     | Ok (Some e) =>
         match out_rung e with
         | quality_rung q =>
             fits (out_bytes e) max_size_mb = true /\ out_image e = img
             /\ 20 < q <= 90
         | scale_rung scale =>
             fits (out_bytes e) max_size_mb = true
             /\ exists k, (k < 6)%nat /\ scale = nth_scale 0.8 k
                  /\ Py.int_of_float (Py.float_of_Z (width img) * scale)
                     = Ok (width (out_image e))
                  /\ Py.int_of_float (Py.float_of_Z (height img) * scale)
                     = Ok (height (out_image e))
         | last_resort => out_image e = img
         end
     | Ok None => False
     | Raise _ => True
     end.
Proof.
  intros H. unfold compress, bind in H.
  destruct (@quality_loop_spec (Z.to_nat 90) img 90 max_size_mb [])
    as (l1 & E1 & L1 & R1); [vm_compute; lia|].
  change (Z.to_nat ((90 - 16) / 5)) with 14%nat in L1.
  destruct (quality_loop (Z.to_nat 90) img 90 max_size_mb []) as [r1 log1].
  simpl in E1, R1. subst log1.
  destruct r1 as [[e| |]|e].
  - injection H as <- <-. split; [lia|].
    destruct R1 as (F & I & q & -> & Q). auto.
  - destruct (scale_loop 8 img (width img) (height img) 0.8 max_size_mb
                min_dimension l1) as [r2 log2] eqn:E2.
    apply scale_loop_spec in E2 as (l2 & -> & L2 & R2).
    rewrite live_turns_default in L2, R2.
    destruct r2 as [[e| |]|e].
    + injection H as <- <-. split; [rewrite length_app; lia|].
      destruct R2 as (F & k & K & -> & Hw & Hh). split; [exact F|].
      exists k. auto.
    + unfold save in H. destruct (save_jpeg img 70) as [b|e]; injection H as <- <-.
      * split; [rewrite !length_app; simpl; lia|reflexivity].
      * split; [rewrite !length_app; simpl; lia|exact I].
    + discriminate R2.
    + injection H as <- <-. split; [rewrite length_app; lia|exact I].
  - contradiction.
  - injection H as <- <-. split; [lia|exact I].
Qed.

(** *** Downscaling *)

Lemma Qfloor_ratio (a : Z) (p : positive) : Qfloor (a # p) = a / Z.pos p.
Proof. reflexivity. Qed.

Lemma Qceiling_ratio (a : Z) (p : positive) : Qceiling (a # p) = - ((- a) / Z.pos p).
Proof. reflexivity. Qed.

(** [round_aspect] of a positive ratio [num / den] is its floor or its
    ceiling, and at least 1. *)
Lemma round_aspect_close (num : Z) (den : positive) (number : Q) (key : Z -> Q) :
  0 < num -> (number == num # den)%Q ->
  let r := Image.round_aspect number key in
  1 <= r /\ Z.abs (r * Z.pos den - num) < Z.pos den
  /\ num / Z.pos den <= r /\ (forall x, num <= x * Z.pos den -> 1 <= x -> r <= x).
Proof.
  intros Hn Hq r. unfold r, Image.round_aspect, Image.min_by.
  rewrite (Qfloor_comp _ _ Hq), (Qceiling_comp _ _ Hq), Qfloor_ratio, Qceiling_ratio.
  destruct (Qle_bool _ _).
  - split; [lia|]. split; [|split].
    + Z.div_mod_to_equations. nia.
    + lia.
    + intros x Hx H1. Z.div_mod_to_equations. nia.
  - split; [lia|]. split; [|split].
    + Z.div_mod_to_equations. nia.
    + Z.div_mod_to_equations. nia.
    + intros x Hx H1. Z.div_mod_to_equations. nia.
Qed.

(** The size [thumbnail] picks for a [d] x [d] box: it fills the box along the
    longer side and is within a pixel of the aspect ratio along the other. *)
Lemma preserve_aspect_ratio_spec (W H d : Z) :
  0 < W -> 0 < H -> 0 < d -> d < Z.max W H ->
  exists w1 h1,
    Image.preserve_aspect_ratio W H (d, d) = Ok (Some (w1, h1))
    /\ 1 <= w1 <= d /\ 1 <= h1 <= d /\ Z.max w1 h1 = d
    /\ aspect_error W H w1 h1 < Z.max W H
    /\ d * Z.min W H / Z.max W H <= Z.min w1 h1.
Proof.
  intros HW HH Hd Hmax. unfold Image.preserve_aspect_ratio.
  destruct ((W <=? d) && (H <=? d)) eqn:Efit.
  { apply andb_true_iff in Efit as [A B]. apply Z.leb_le in A, B. lia. }
  replace ((H =? 0) || (d =? 0) || (W =? 0)) with false
    by (symmetry; rewrite !orb_false_iff, !Z.eqb_neq; lia).
  destruct W as [|pw|pw]; try lia. destruct H as [|ph|ph]; try lia.
  destruct d as [|pd|pd]; try lia.
  set (aspect := (inject_Z (Z.pos pw) / inject_Z (Z.pos ph))%Q).
  destruct (Qle_bool aspect (inject_Z (Z.pos pd) / inject_Z (Z.pos pd))%Q) eqn:Eb.
  - apply Qle_bool_iff in Eb. unfold aspect, Qle, Qdiv, Qmult, Qinv, inject_Z in Eb.
    simpl in Eb.
    assert (Hle : Z.pos pw <= Z.pos ph) by nia.
    edestruct (round_aspect_close (num := Z.pos pd * Z.pos pw) (den := ph)
                 (number := (inject_Z (Z.pos pd) * aspect)%Q)) as (R1 & R2 & R3 & R4).
    + lia.
    + unfold aspect, Qeq, Qdiv, Qmult, Qinv, inject_Z. simpl. lia.
    + eexists _, _. split; [reflexivity|].
      match goal with |- context [Image.round_aspect ?n ?k] =>
        set (w1 := Image.round_aspect n k) in * end.
      assert (w1 <= Z.pos pd) by (apply R4; nia).
      unfold aspect_error. rewrite (Z.max_r (Z.pos pw)), (Z.min_l (Z.pos pw)) by lia.
      rewrite Z.max_r, Z.min_l by lia.
      repeat split; try lia.
  - assert (Hgt : Z.pos ph < Z.pos pw).
    { destruct (Z.ltb_spec (Z.pos ph) (Z.pos pw)); [assumption|exfalso].
      assert (Qle_bool aspect (inject_Z (Z.pos pd) / inject_Z (Z.pos pd))%Q = true);
        [|congruence].
      apply Qle_bool_iff. unfold aspect, Qle, Qdiv, Qmult, Qinv, inject_Z. simpl. nia. }
    edestruct (round_aspect_close (num := Z.pos pd * Z.pos ph) (den := pw)
                 (number := (inject_Z (Z.pos pd) / aspect)%Q)) as (R1 & R2 & R3 & R4).
    + lia.
    + unfold aspect, Qeq, Qdiv, Qmult, Qinv, inject_Z. simpl. lia.
    + eexists _, _. split; [reflexivity|].
      match goal with |- context [Image.round_aspect ?n ?k] =>
        set (h1 := Image.round_aspect n k) in * end.
      assert (h1 <= Z.pos pd) by (apply R4; nia).
      unfold aspect_error. rewrite (Z.max_l (Z.pos pw)), (Z.min_r (Z.pos pw)) by lia.
      rewrite Z.max_l, Z.min_r by lia.
      repeat split; try lia.
Qed.

Lemma convert_keeps_size (img img' : image pixels) m :
  Image.convert img m = Ok img' -> width img' = width img /\ height img' = height img.
Proof.
  unfold Image.convert. destruct (convert_pixels img m); simpl; [|discriminate].
  intros E. inversion E. auto.
Qed.

Lemma resize_gives_size (img img' : image pixels) w h :
  Image.resize img (w, h) = Ok img' -> width img' = w /\ height img' = h.
Proof.
  unfold Image.resize. destruct ((w <? 1) || (h <? 1)); [discriminate|].
  destruct (resample img (w, h)); simpl; [|discriminate].
  intros E. inversion E. auto.
Qed.


Lemma scale_table_checked : scale_table_check = true.
Proof. vm_compute. reflexivity. Qed.

Lemma scale_table (k : nat) (w : Z) :
  (k < 6)%nat -> 1 <= w <= 2048 ->
  Py.int_of_float (Py.float_of_Z w * nth_scale 0.8 k) = Ok (w * (8 - Z.of_nat k) / 10).
Proof.
  intros Hk Hw.
  assert (T : forallb (fun k =>
    forallb (fun n =>
      match Py.int_of_float (Py.float_of_Z (Z.of_nat n) * nth_scale 0.8 k) with
      | Ok v => v =? Z.of_nat n * (8 - Z.of_nat k) / 10
      | Raise _ => false
      end) (seq 1 2048)) (seq 0 6) = true) by (vm_compute; reflexivity).
  rewrite forallb_forall in T.
  specialize (T k). rewrite forallb_forall in T by (apply in_seq; lia).
  specialize (T ltac:(apply in_seq; lia) (Z.to_nat w)).
  rewrite Z2Nat.id in T by lia.
  destruct (Py.int_of_float _) as [v|e].
  - f_equal. apply Z.eqb_eq. apply T. apply in_seq. lia.
  - discriminate T. apply in_seq. lia.
Qed.


(** C6. For every input, [resize_image_if_needed] asks for at most 21 JPEG
    encodings (14 qualities, 6 scales, 1 last resort) and is never cut short.
    Its bytes are those of the encoding the ladder returned, which fit the
    byte budget unless they come from the last-resort step; or, when an image
    operation raised, they are the caller's bytes unchanged. *)
Theorem ladder_is_bounded (image_data : bytes) (max_size_mb max_dimension : Z) :
  let run := resize_run image_data max_size_mb max_dimension in
  (List.length (snd run) <= 21)%nat
  /\ match fst run with
     | Ok (Some e) =>
         resize_image_if_needed image_data max_size_mb max_dimension = out_bytes e
         /\ (Z.of_nat (List.length (out_bytes e)) <= budget max_size_mb
             \/ out_rung e = last_resort)
     | Ok None => False
     | Raise _ =>
         resize_image_if_needed image_data max_size_mb max_dimension = image_data
     end.
Proof.
  intros run. unfold resize_image_if_needed. fold run.
  unfold run, resize_run, resize_body.
  destruct (prepare image_data max_dimension) as [img|e].
  2:{ rewrite bind_lift_Raise. simpl. split; [lia|reflexivity]. }
  rewrite bind_lift_Ok.
  destruct (compress img max_size_mb []) as [r log] eqn:E.
  apply compress_spec in E as [L R]. simpl. split; [exact L|].
  destruct r as [[e|]|e]; auto. split; [reflexivity|].
  destruct (out_rung e); [left|left|right; reflexivity];
    apply fits_spec; tauto.
Qed.

End Normalizer_facts.

Section Engine_facts.
Context {rt : PyRuntime} {pil : Pillow} {W : World}.

(** *** The trace only grows, and by events of a known kind *)

Lemma emits_ret A P (a : A) : emits P (ret a).
Proof. intros s. exists []. simpl. now rewrite app_nil_r. Qed.

Lemma emits_raise A P e : emits P (@raise _ A e).
Proof. intros s. exists []. simpl. now rewrite app_nil_r. Qed.

Lemma emits_lift A P (r : res A) : emits P (lift r).
Proof. intros s. exists []. simpl. now rewrite app_nil_r. Qed.

Lemma emits_bind A B P (m : M A) (k : A -> M B) :
  emits P m -> (forall a, emits P (k a)) -> emits P (bind m k).
Proof.
  intros Hm Hk s. unfold bind. destruct (Hm s) as (e1 & E1 & F1).
  destruct (m s) as [[a|e] s1]; simpl in *.
  - destruct (Hk a s1) as (e2 & E2 & F2). exists (e1 ++ e2).
    rewrite E2, E1, app_assoc, forallb_app, F1, F2. auto.
  - exists e1. auto.
Qed.

Lemma emits_try A P (m : M A) (h : exn -> M A) :
  emits P m -> (forall e, emits P (h e)) -> emits P (try_except m h).
Proof.
  intros Hm Hh s. unfold try_except. destruct (Hm s) as (e1 & E1 & F1).
  destruct (m s) as [[a|e] s1]; simpl in *.
  - exists e1. auto.
  - destruct (Hh e s1) as (e2 & E2 & F2). exists (e1 ++ e2).
    rewrite E2, E1, app_assoc, forallb_app, F1, F2. auto.
Qed.

Lemma emits_call A P ev (f : world -> res A * world) :
  P ev = true -> emits P (call ev f).
Proof.
  intros H s. unfold call. destruct (f (the_world s)) as [r w].
  exists [ev]. simpl. now rewrite H.
Qed.

Lemma emits_now P : emits P now.
Proof.
  intros s. unfold now. destruct (time_time (the_world s)).
  exists []. simpl. now rewrite app_nil_r.
Qed.

Lemma emits_uuid4 P : emits P uuid4.
Proof.
  intros s. unfold uuid4. destruct (uuid4_hex (the_world s)).
  exists []. simpl. now rewrite app_nil_r.
Qed.

Lemma emits_get_last P : emits P get_last_request_time.
Proof. intros s. exists []. simpl. now rewrite app_nil_r. Qed.

Lemma emits_set_last P t : emits P (set_last_request_time t).
Proof. intros s. exists []. simpl. now rewrite app_nil_r. Qed.

Ltac emits_step :=
  match goal with
  | |- emits _ (bind _ _) => apply emits_bind; [|intros]
  | |- emits _ (try_except _ _) => apply emits_try; [|intros]
  | |- emits _ (ret _) => apply emits_ret
  | |- emits _ (raise _) => apply emits_raise
  | |- emits _ (lift _) => apply emits_lift
  | |- emits _ now => apply emits_now
  | |- emits _ uuid4 => apply emits_uuid4
  | |- emits _ get_last_request_time => apply emits_get_last
  | |- emits _ (set_last_request_time _) => apply emits_set_last
  | |- emits _ (sleep _) => apply emits_call
  | |- emits _ (post _ _) => apply emits_call
  | |- emits _ (call _ _) => apply emits_call
  | |- emits _ (if ?c then _ else _) => destruct c
  | |- emits _ (match ?x with _ => _ end) => destruct x
  end.



(** *** Requests made per call *)

Lemma posts_at_most_pure A (m : M A) n :
  (forall s, trace (snd (m s)) = trace s) -> posts_at_most n m.
Proof.
  intros H s. exists []. rewrite H, app_nil_r. split; [reflexivity|simpl; lia].
Qed.

Lemma posts_at_most_bind n1 n2 A B (m : M A) (k : A -> M B) :
  posts_at_most n1 m -> (forall a, posts_at_most n2 (k a)) ->
  posts_at_most (n1 + n2) (bind m k).
Proof.
  intros Hm Hk s. unfold bind. destruct (Hm s) as (e1 & E1 & F1).
  destruct (m s) as [[a|e] s1]; simpl in *.
  - destruct (Hk a s1) as (e2 & E2 & F2). exists (e1 ++ e2).
    rewrite E2, E1, app_assoc, filter_app, length_app. split; [reflexivity|lia].
  - exists e1. split; [exact E1|lia].
Qed.

Lemma posts_at_most_try n1 n2 A (m : M A) (h : exn -> M A) :
  posts_at_most n1 m -> (forall e, posts_at_most n2 (h e)) ->
  posts_at_most (n1 + n2) (try_except m h).
Proof.
  intros Hm Hh s. unfold try_except. destruct (Hm s) as (e1 & E1 & F1).
  destruct (m s) as [[a|e] s1]; simpl in *.
  - exists e1. split; [exact E1|lia].
  - destruct (Hh e s1) as (e2 & E2 & F2). exists (e1 ++ e2).
    rewrite E2, E1, app_assoc, filter_app, length_app. split; [reflexivity|lia].
Qed.

Lemma posts_at_most_call A ev (f : world -> res A * world) :
  posts_at_most (if is_post ev then 1 else 0) (call ev f).
Proof.
  intros s. unfold call. destruct (f (the_world s)) as [r w].
  exists [ev]. split; [reflexivity|]. simpl. destruct (is_post ev); simpl; lia.
Qed.

Lemma posts_at_most_sleep seconds : posts_at_most 0 (sleep seconds).
Proof. exact (posts_at_most_call (ev_sleep seconds) _). Qed.

Lemma handle_rate_limit_posts (self : FacePlusPlusManager) :
  posts_at_most 0 (_handle_rate_limit self).
Proof.
  unfold _handle_rate_limit.
  apply (posts_at_most_bind (n1 := 0) (n2 := 0)).
  { apply posts_at_most_pure. intros s. unfold now.
    now destruct (time_time (the_world s)). }
  intros t. apply (posts_at_most_bind (n1 := 0) (n2 := 0)).
  { now apply posts_at_most_pure. }
  intros last. apply (posts_at_most_bind (n1 := 0) (n2 := 0)).
  { destruct (PrimFloat.ltb _ _); [apply posts_at_most_sleep|].
    now apply posts_at_most_pure. }
  intros _. apply (posts_at_most_bind (n1 := 0) (n2 := 0)).
  { apply posts_at_most_pure. intros s. unfold now.
    now destruct (time_time (the_world s)). }
  intros t'. now apply posts_at_most_pure.
Qed.

Lemma retry_or_raise_posts (self : FacePlusPlusManager) attempt e :
  posts_at_most 0
    (if negb (last_attempt self attempt)
     then sleep (PInt (retry_delay self)) ;; ret Continue
     else raise e).
Proof.
  destruct (negb _); [|now apply posts_at_most_pure].
  apply (posts_at_most_bind (n1 := 0) (n2 := 0)); [apply posts_at_most_sleep|].
  intros _. now apply posts_at_most_pure.
Qed.

Lemma attempt_body_posts (self : FacePlusPlusManager) u data fs operation attempt :
  posts_at_most 1 (attempt_body self u data fs operation attempt).
Proof.
  unfold attempt_body.
  apply (posts_at_most_try (n1 := 1) (n2 := 0)).
  2:{ intros e. destruct (is_RequestException e);
        [apply retry_or_raise_posts|now apply posts_at_most_pure]. }
  apply (posts_at_most_bind (n1 := 0) (n2 := 1)); [apply handle_rate_limit_posts|].
  intros _. apply (posts_at_most_bind (n1 := 1) (n2 := 0)).
  { exact (posts_at_most_call (ev_post operation _) _). }
  intros resp. apply (posts_at_most_try (n1 := 0) (n2 := 0)).
  2:{ intros e. destruct e; try (now apply posts_at_most_pure).
      apply retry_or_raise_posts. }
  apply (posts_at_most_bind (n1 := 0) (n2 := 0)); [now apply posts_at_most_pure|].
  intros result. apply (posts_at_most_bind (n1 := 0) (n2 := 0));
    [now apply posts_at_most_pure|].
  intros limited. destruct (_ && _).
  { apply (posts_at_most_bind (n1 := 0) (n2 := 0)); [apply posts_at_most_sleep|].
    intros _. now apply posts_at_most_pure. }
  destruct (negb _); [now apply posts_at_most_pure|].
  apply (posts_at_most_bind (n1 := 0) (n2 := 0)); [now apply posts_at_most_pure|].
  intros has. destruct has; [|now apply posts_at_most_pure].
  apply (posts_at_most_bind (n1 := 0) (n2 := 0)); now (intros; apply posts_at_most_pure).
Qed.

Lemma attempts_from_posts (self : FacePlusPlusManager) attempts u data fs operation :
  posts_at_most (List.length attempts) (attempts_from self attempts u data fs operation).
Proof.
  induction attempts as [|attempt rest IH]; simpl.
  - now apply posts_at_most_pure.
  - apply (posts_at_most_bind (n1 := 1)); [apply attempt_body_posts|].
    intros [|result]; [exact IH|now apply posts_at_most_pure].
Qed.

Lemma handle_rate_limit_returns (self : FacePlusPlusManager) s :
  _handle_rate_limit self s = (Ok tt, snd (_handle_rate_limit self s)).
Proof.
  unfold _handle_rate_limit, bind, now, get_last_request_time, sleep, call,
    set_last_request_time, ret.
  destruct (time_time (the_world s)) as [t w]. simpl.
  destruct (PrimFloat.ltb _ _); simpl;
    match goal with |- context [time_time ?x] => destruct (time_time x) end;
    reflexivity.
Qed.

(** C4. A call of [_make_request] posts at most [max_retries] times (3 for
    the manager [__init__] builds).  Take attempt number [attempt + 1] and a
    reply whose body is an object with a string "error_message".  If the
    message names the concurrency limit and the attempt is not the last one,
    the client sleeps [retry_delay * (attempt + 1)] seconds right after the
    request and goes on with the next attempt.  Otherwise (another message, or
    the last attempt) nothing more is requested or waited for: the call raises
    at once an [HTTPException] with the provider's status code and the whole
    body when that code is not 200, and with status 400 and the provider's
    message when the error came in an HTTP 200 reply. *)
Theorem retry_policy (self : FacePlusPlusManager) (u : string)
  (data : list (string * pyval)) (fs : option bytes) (operation : string) :
  posts_at_most (max_retries self) (_make_request self u data fs operation)
  /\ forall (attempt : nat) (rest : list nat) (s : state) (resp : response)
            (w' : world) (kv : list (string * pyval)) (msg : string),
      let req := {| url := u; form := data; files := fs |} in
      let s0 := snd (_handle_rate_limit self s) in
      requests_post req (the_world s0) = (Ok resp, w') ->
      json resp = Some (PDict kv) ->
      Py.lookup "error_message" kv = Some (PStr msg) ->
      (Py.str_contains "CONCURRENCY_LIMIT_EXCEEDED" msg = true ->
       Z.of_nat attempt < Z.of_nat (max_retries self) - 1 ->
       exists s1,
         attempt_body self u data fs operation (Z.of_nat attempt) s = (Ok Continue, s1)
         /\ trace s1 = trace s0 ++ [ev_post operation req;
                                    ev_sleep (PInt (retry_delay self * (Z.of_nat attempt + 1)))]
         /\ attempts_from self (attempt :: rest) u data fs operation s
            = attempts_from self rest u data fs operation s1)
      /\ (Py.str_contains "CONCURRENCY_LIMIT_EXCEEDED" msg = false
          \/ Z.of_nat (max_retries self) - 1 <= Z.of_nat attempt ->
          exists s1,
            attempts_from self (attempt :: rest) u data fs operation s
            = (Raise (if status_code resp =? 200
                      then HTTPException 400 (operation ++ " failed: " ++ msg)%string
                      else HTTPException (status_code resp)
                             (operation ++ " failed: " ++ json_dumps (PDict kv))%string),
               s1)
            /\ trace s1 = trace s0 ++ [ev_post operation req]).
Proof.
  split.
  { pose proof (attempts_from_posts self (seq 0 (max_retries self))
                  u data fs operation) as H.
    rewrite length_seq in H. exact H. }
  intros attempt rest s resp w' kv msg req s0 Hpost Hjson Hmsg.
  assert (Hbody : forall limited_now,
            limited_now = Py.str_contains "CONCURRENCY_LIMIT_EXCEEDED" msg
                          && negb (last_attempt self (Z.of_nat attempt)) ->
            attempt_body self u data fs operation (Z.of_nat attempt) s
            = if limited_now
              then (Ok Continue,
                    log_event (ev_sleep (PInt (retry_delay self * (Z.of_nat attempt + 1))))
                      (set_world (time_sleep (PInt (retry_delay self * (Z.of_nat attempt + 1))) w')
                         (log_event (ev_post operation req) (set_world w' s0))))
              else (Raise (if status_code resp =? 200
                           then HTTPException 400 (operation ++ " failed: " ++ msg)%string
                           else HTTPException (status_code resp)
                                  (operation ++ " failed: " ++ json_dumps (PDict kv))%string),
                    log_event (ev_post operation req) (set_world w' s0))).
  { intros limited_now ->. unfold attempt_body, try_except, bind at 1.
    rewrite handle_rate_limit_returns. fold s0.
    unfold bind at 1. unfold post, call at 1. fold req. rewrite Hpost.
    unfold response_json, rate_limited. rewrite Hjson. simpl.
    unfold bind, lift. simpl. rewrite Hmsg. simpl.
    destruct (Py.str_contains "CONCURRENCY_LIMIT_EXCEEDED" msg); simpl.
    - destruct (negb (last_attempt self (Z.of_nat attempt))); simpl.
      + reflexivity.
      + destruct (status_code resp =? 200); reflexivity.
    - destruct (status_code resp =? 200); reflexivity. }
  split.
  - intros Hc Hlt.
    assert (Hl : last_attempt self (Z.of_nat attempt) = false).
    { unfold last_attempt. apply negb_false_iff. apply Z.ltb_lt. exact Hlt. }
    specialize (Hbody true). rewrite Hc, Hl in Hbody. specialize (Hbody eq_refl).
    eexists. split; [exact Hbody|]. split.
    + simpl. rewrite <- app_assoc. reflexivity.
    + simpl. unfold bind at 1. rewrite Hbody. reflexivity.
  - intros Hc.
    assert (Hf : Py.str_contains "CONCURRENCY_LIMIT_EXCEEDED" msg
                 && negb (last_attempt self (Z.of_nat attempt)) = false).
    { destruct Hc as [-> | Hge]; [reflexivity|].
      unfold last_attempt. rewrite negb_involutive.
      apply andb_false_iff. right. apply Z.ltb_ge. exact Hge. }
    specialize (Hbody false). rewrite Hf in Hbody. specialize (Hbody eq_refl).
    eexists. split.
    + simpl. unfold bind at 1. rewrite Hbody. reflexivity.
    + reflexivity.
Qed.

(** *** What a request can return *)

(** [detect_face] turns every exception of its request into [(None, None)]. *)
Lemma detect_face_swallows (self : FacePlusPlusManager) image_data s e s' :
  _make_request self (detect_url self) (_get_base_params self ++ detect_params)
    (Some (resize_image_if_needed image_data 2 2048)) "detect_face" s = (Raise e, s') ->
  detect_face self image_data s = (Ok (PNone, PNone), s').
Proof.
  intros H. unfold detect_face, try_except, bind. now rewrite H.
Qed.

(** A value [_make_request] returns never holds "error_message" (the loop
    returns [None] only when [max_retries] is 0). *)
Lemma make_request_returns_no_error (self : FacePlusPlusManager) u data fs operation :
  returns_only (fun r => r = PNone \/ Py.contains "error_message" r = Ok false)
    (_make_request self u data fs operation).
Proof.
  unfold _make_request. generalize (seq 0 (max_retries self)) as attempts.
  induction attempts as [|attempt rest IH]; simpl.
  - apply returns_only_ret. now left.
  - apply returns_only_bind_after
      with (Q := fun t => match t with
                          | Continue => True
                          | Return r => Py.contains "error_message" r = Ok false
                          end).
    + unfold attempt_body.
      apply returns_only_try; [|intros; repeat returns_only_step; exact I].
      do 2 (apply returns_only_bind; intros).
      apply returns_only_try; [|intros; repeat returns_only_step; exact I].
      do 2 (apply returns_only_bind; intros).
      destruct (_ && _); [repeat returns_only_step; exact I|].
      destruct (negb _); [repeat returns_only_step|].
      apply returns_only_bind_lift. intros has Hhas.
      destruct has; repeat returns_only_step. exact Hhas.
    + intros [|r] Hr; [exact IH|]. apply returns_only_ret. now right.
Qed.

(** So [get_faceset_detail] returns only truthy values without
    "error_message": the test [not details or 'error_message' in details] of
    [save_face_data] is false whenever it is reached. *)
Lemma get_faceset_detail_never_stale (self : FacePlusPlusManager) outer_id :
  returns_only (fun details => Py.truthy details = true
                               /\ Py.contains "error_message" details = Ok false)
    (get_faceset_detail self outer_id).
Proof.
  unfold get_faceset_detail.
  apply returns_only_try; [|intros; unfold reraise; repeat returns_only_step].
  eapply returns_only_bind_after; [apply make_request_returns_no_error|].
  intros r Hr. apply returns_only_bind_lift. intros ok Hok.
  destruct ok; repeat returns_only_step.
  unfold truthy_and_contains in Hok.
  destruct (Py.truthy r) eqn:Ht; [|discriminate Hok].
  split; [reflexivity|]. destruct Hr as [->|Hr]; [discriminate Ht|exact Hr].
Qed.

(** *** Attribute validation *)

Lemma validate_number (self : FaceVerification) kv q :
  has_human_attribute (PDict kv) = true ->
  face_quality (PDict kv) = Ok q -> is_number q = true ->
  _validate_face_attributes self (PDict kv) = Ok (true, "Valid human face detected").
Proof.
  intros Hh Hq Hn. unfold _validate_face_attributes, face_quality in *.
  assert (Ht : Py.truthy (PDict kv) = true).
  { destruct kv; [discriminate Hh|reflexivity]. }
  rewrite Ht. simpl negb. cbv iota.
  destruct (Py.get (PDict kv) "facequality" (PDict [])) as [quality|]; [|discriminate].
  simpl result_bind in *. rewrite Hq. simpl result_bind.
  assert (Hg : exists b, Py.gt0 q = Ok b).
  { destruct q; try discriminate Hn; simpl; eauto. }
  destruct Hg as [b Hg]. rewrite Hg. simpl result_bind.
  assert (Hl : exists b', Py.lt_float q (min_face_quality self) = Ok b').
  { destruct q; try discriminate Hn; simpl; eauto. }
  destruct Hl as [b' Hl].
  unfold has_human_attribute in Hh. simpl in Hh. simpl Py.get.
  destruct (Py.lookup "gender" kv) as [g|], (Py.lookup "age" kv) as [a|],
    (Py.lookup "ethnicity" kv) as [e|]; simpl in *;
    repeat match goal with
           | H : context [Py.is_not_None ?x] |- _ => destruct (Py.is_not_None x)
           end; simpl in *; try discriminate Hh;
    destruct b; try rewrite Hl; reflexivity.
Qed.

Lemma validate_rejects (self : FaceVerification) attributes :
  has_human_attribute attributes = false ->
  match _validate_face_attributes self attributes with
  | Ok (valid, msg) =>
      valid = false
      /\ (msg = "No face attributes detected"
          \/ msg = "Unable to detect human face characteristics")
  | Raise _ => forall q, face_quality attributes = Ok q -> is_number q = false
  end.
Proof.
  intros Hh. unfold _validate_face_attributes, face_quality.
  destruct (Py.truthy attributes) eqn:Ht; simpl; [|auto].
  destruct attributes as [| | | | | |kv];
    try (simpl; intros q' E; discriminate E).
  simpl Py.get.
  destruct (match Py.lookup "facequality" kv with Some x => x | None => PDict [] end)
    as [| | | | | |qkv]; simpl; try (intros q' E; discriminate E).
  set (q := match Py.lookup "value" qkv with Some x => x | None => PInt 0 end).
  destruct (Py.gt0 q) as [b|] eqn:Hg; simpl.
  2:{ intros q' E. inversion E; subst q'. destruct q; try reflexivity; discriminate. }
  unfold has_human_attribute in Hh. simpl in Hh.
  destruct (Py.lookup "gender" kv) as [g|], (Py.lookup "age" kv) as [a|],
    (Py.lookup "ethnicity" kv) as [e|]; simpl in *;
    repeat match goal with
           | H : context [Py.is_not_None ?x] |- _ => destruct (Py.is_not_None x)
           end; simpl in *; try discriminate Hh; auto.
Qed.


(** *** The duplicate search *)

Lemma gather_app (self : FaceVerification) l acc :
  gather self l acc = (acc ++ fst (gather self l []), snd (gather self l [])).
Proof.
  revert acc. induction l as [|r l IH]; intros acc; simpl.
  - now rewrite app_nil_r.
  - destruct (result_bind (Py.get r "confidence" (PInt 0)) py_float) as [c|e]; simpl;
      [|now rewrite app_nil_r].
    destruct (PrimFloat.leb (confidence_threshold self) c); [|apply IH].
    destruct (Py.get r "face_token" (PStr "")) as [tok|e]; simpl;
      [|now rewrite app_nil_r].
    rewrite IH. rewrite (IH [_]). simpl. now rewrite <- app_assoc.
Qed.

Lemma gather_above (self : FaceVerification) l acc :
  Forall (fun m => above_threshold self m = true) acc ->
  Forall (fun m => above_threshold self m = true) (fst (gather self l acc)).
Proof.
  revert acc. induction l as [|r l IH]; intros acc Hacc; simpl; [exact Hacc|].
  destruct (result_bind (Py.get r "confidence" (PInt 0)) py_float) as [c|e]; simpl;
    [|exact Hacc].
  destruct (PrimFloat.leb (confidence_threshold self) c) eqn:E; [|now apply IH].
  destruct (Py.get r "face_token" (PStr "")) as [tok|e]; simpl; [|exact Hacc].
  apply IH. apply Forall_app. split; [exact Hacc|]. now repeat constructor.
Qed.

Lemma gathered_from_above (self : FaceVerification) outcome :
  Forall (fun m => above_threshold self m = true) (gathered_from self outcome).
Proof.
  destruct outcome as [results|e]; simpl; [|constructor].
  destruct (Py.iter results); [|constructor]. apply gather_above. constructor.
Qed.


Lemma search_facesets_gathers (self : FaceVerification) face_token facesets acc s :
  search_facesets self face_token facesets acc s
  = (Ok (acc ++ flat_map (gathered_from self)
                  (fst (gallery_searches self face_token facesets s))),
     snd (gallery_searches self face_token facesets s)).
Proof.
  revert acc s. induction facesets as [|[faceset_id stored] rest IH]; intros acc s.
  - simpl. now rewrite app_nil_r.
  - simpl. unfold bind, search_faceset. destruct stored as [|t stored].
    + simpl. apply IH.
    + destruct (search_faces (fpp_manager self) face_token faceset_id 5 s)
        as [[results|e] s1].
      * destruct (gallery_searches self face_token rest s1) as [outs s2] eqn:G.
        simpl. destruct (Py.iter results) as [l|e].
        -- rewrite IH, G. simpl. rewrite gather_app. simpl.
           now rewrite <- app_assoc.
        -- rewrite IH, G. reflexivity.
      * destruct (gallery_searches self face_token rest s1) as [outs s2] eqn:G.
        simpl. rewrite IH, G. reflexivity.
Qed.


(** C2. Every match [search_similar_faces] returns has a confidence at or
    above [confidence_threshold], and the list is in descending order of
    confidence: each match's confidence is at least that of every later one. *)
Theorem search_returns_sorted_above_threshold (self : FaceVerification)
  (face_token : pyval) (s s' : state) (found : list FaceVerificationMatch) :
  search_similar_faces self face_token s = (Ok found, s') ->
  Forall (fun m => PrimFloat.leb (confidence_threshold self) (confidence m) = true) found
  /\ StronglySorted
       (fun a b => PrimFloat.leb (confidence b) (confidence a) = true) found.
Proof.
  intros H. unfold search_similar_faces, try_except in H.
  match type of H with
  | context [match ?m s with _ => _ end] => destruct (m s) as [[ms|e] s1] eqn:E
  end; [|discriminate H].
  inversion H; subst found s1. clear H.
  apply bind_Ok_inv in E as (facesets & s0 & _ & E).
  apply bind_Ok_inv in E as (gathered & s2 & E & R).
  inversion R; subst ms s2. clear R.
  rewrite search_facesets_gathers in E. inversion E as [[Eg Es]]. clear E Es.
  simpl.
  set (l := flat_map _ _).
  assert (Hl : Forall (fun m => above_threshold self m = true) l).
  { apply Forall_flat_map. apply Forall_forall. intros o _.
    apply gathered_from_above. }
  split.
  - apply (Permutation_Forall (Permutation_sym (sorted_reverse_perm confidence l))).
    exact Hl.
  - apply sorted_reverse_descending.
    eapply Forall_impl; [|exact Hl]. intros m Hm.
    eapply leb_comparable_r. exact Hm.
Qed.

(** C10. [save_face_data] returns [True] or raises, for every face token and
    from every state; so the statement of [verify_face] guarded by
    [not await self.save_face_data(face_token)] always takes the success
    branch: whichever two continuations follow it, the one for [False] never
    runs. *)
Theorem save_face_data_never_False (self : FaceVerification) (face_token : pyval)
  (s : state) :
  (exists s', save_face_data self face_token s = (Ok true, s')
              \/ exists e, save_face_data self face_token s = (Raise e, s'))
  /\ forall (A : Type) (on_false on_true : M A),
       bind (save_face_data self face_token)
            (fun saved => if negb saved then on_false else on_true) s
       = bind (save_face_data self face_token) (fun _ => on_true) s.
Proof.
  assert (H : returns_only (fun b => b = true) (save_face_data self face_token)).
  { unfold save_face_data. repeat returns_only_step; reflexivity. }
  split.
  - destruct (save_face_data self face_token s) as [[b|e] s'] eqn:E.
    + exists s'. left. now rewrite (H _ _ _ E).
    + exists s'. right. now exists e.
  - intros A on_false on_true. unfold bind.
    destruct (save_face_data self face_token s) as [[b|e] s'] eqn:E; [|reflexivity].
    now rewrite (H _ _ _ E).
Qed.

(** C1. Whatever the image and however the provider, the transport and the
    store behave (any reply, any raised exception), [verify_face] returns a
    [VerificationResponse], and its status is "error", "duplicate_found" or
    "success": nothing is raised to the caller. *)
Theorem verify_face_always_structured (self : FaceVerification) (image_data : bytes)
  (s : state) :
  exists r s', verify_face self image_data s = (Ok r, s')
    /\ In (status r) ["error"; "duplicate_found"; "success"].
Proof.
  assert (H : returns_only
                (fun r => In (status r) ["error"; "duplicate_found"; "success"])
                (verify_face self image_data)).
  { unfold verify_face. repeat returns_only_step; simpl; auto. }
  destruct (verify_face self image_data s) as [[r|e] s'] eqn:E.
  - exists r, s'. split; [reflexivity|]. exact (H _ _ _ E).
  - exfalso. unfold verify_face, try_except in E.
    match type of E with
    | context [match ?m s with _ => _ end] => destruct (m s) as [[r0|e0] s0]
    end; discriminate E.
Qed.

End Engine_facts.

(* ================================================================= *)
(** * Further properties *)

(** ** The image normalizer: what the ladder leaves behind *)

Section Normalizer_more.
Context {pil : Pillow}.

(** When the first loop runs out, every quality on its way down from [q] has
    been encoded, and none of the encodings fits. *)
Lemma quality_loop_exhausted fuel img q max_size_mb log log' :
  quality_loop fuel img q max_size_mb log = (Ok Exit, log') ->
  forall q', 20 < q' <= q -> (q - q') mod 5 = 0 ->
    exists b, save_jpeg img q' = Ok b /\ fits b max_size_mb = false.
Proof.
  revert q log. induction fuel as [|fuel IH]; intros q log H q' Hq' Hmod.
  - simpl in H. destruct (Z.gtb_spec q 20); [discriminate H|lia].
  - simpl in H. destruct (Z.gtb_spec q 20) as [Hq|Hq]; [|lia].
    unfold bind at 1, save at 1 in H.
    destruct (save_jpeg img q) as [b|e] eqn:Es; [|discriminate H].
    destruct (fits b max_size_mb) eqn:Hfit; [discriminate H|].
    destruct (Z.eq_dec q' q) as [->|Hne]; [eauto|].
    apply (IH _ _ H).
    + Z.div_mod_to_equations. lia.
    + Z.div_mod_to_equations. lia.
Qed.

Lemma quality_loop_rung fuel img q max_size_mb :
  returns_only (fun r => match r with
                         | Returned e => exists q', out_rung e = quality_rung q'
                         | _ => True
                         end)
    (quality_loop fuel img q max_size_mb).
Proof.
  revert q. induction fuel as [|fuel IH]; intros q; simpl.
  - destruct (q >? 20); apply returns_only_ret; exact I.
  - destruct (q >? 20); [|apply returns_only_ret; exact I].
    apply returns_only_bind. intros b.
    destruct (fits b max_size_mb); [|apply IH].
    apply returns_only_ret. simpl. eauto.
Qed.

(** What the second loop returns is a resized copy: of the mode of the image
    it works on, and with a shorter side of [min_dim] or more. *)
Lemma scale_loop_rung fuel img w h scale max_size_mb min_dim :
  returns_only (fun r => match r with
                         | Returned e =>
                             (exists s, out_rung e = scale_rung s)
                             /\ mode (out_image e) = mode img
                             /\ min_dim <= Z.min (width (out_image e)) (height (out_image e))
                         | _ => True
                         end)
    (scale_loop fuel img w h scale max_size_mb min_dim).
Proof.
  revert scale. induction fuel as [|fuel IH]; intros scale; cbn [scale_loop].
  - destruct (PrimFloat.ltb 0.3 scale); apply returns_only_ret; exact I.
  - destruct (PrimFloat.ltb 0.3 scale); [|apply returns_only_ret; exact I].
    apply returns_only_bind. intros nw. apply returns_only_bind. intros nh.
    destruct (Z.ltb_spec (Z.min nw nh) min_dim) as [Hlt|Hge];
      [apply returns_only_ret; exact I|].
    apply returns_only_bind_lift. intros img' Er.
    apply returns_only_bind. intros b.
    destruct (fits b max_size_mb); [|apply IH].
    apply returns_only_ret. simpl.
    destruct (resize_gives_size _ _ _ Er) as [-> ->].
    split; [eauto|]. split; [|exact Hge].
    unfold Image.resize in Er. destruct ((nw <? 1) || (nh <? 1)); [discriminate Er|].
    destruct (resample img (nw, nh)); simpl in Er; [|discriminate Er].
    apply Ok_inj in Er. now subst img'.
Qed.

(** X1. A run that ends on the last-resort rung returns bytes over the
    budget: the last resort encodes, at quality 70, the very image the first
    loop has already encoded at quality 70 and found too large. *)
Theorem last_resort_is_over_budget (image_data : bytes)
  (max_size_mb max_dimension : Z) (e : encoded) :
  fst (resize_run image_data max_size_mb max_dimension) = Ok (Some e) ->
  out_rung e = last_resort ->
  resize_image_if_needed image_data max_size_mb max_dimension = out_bytes e
  /\ budget max_size_mb < Z.of_nat (List.length (out_bytes e)).
Proof.
  intros Hrun Hrung.
  split. { unfold resize_image_if_needed. now rewrite Hrun. }
  unfold resize_run, resize_body in Hrun.
  destruct (prepare image_data max_dimension) as [img|];
    [rewrite bind_lift_Ok in Hrun|rewrite bind_lift_Raise in Hrun; discriminate Hrun].
  unfold compress, bind in Hrun.
  destruct (quality_loop (Z.to_nat 90) img 90 max_size_mb []) as [r1 log1] eqn:E1.
  destruct r1 as [[e1| |]|]; try discriminate Hrun.
  { apply quality_loop_rung in E1 as [q' Hq']. simpl in Hrun.
    apply Ok_inj in Hrun. injection Hrun as <-. congruence. }
  destruct (scale_loop 8 img (width img) (height img) 0.8 max_size_mb min_dimension log1)
    as [r2 log2] eqn:E2.
  destruct r2 as [[e2| |]|]; try discriminate Hrun.
  { apply scale_loop_rung in E2 as [[s Hs] _]. simpl in Hrun.
    apply Ok_inj in Hrun. injection Hrun as <-. congruence. }
  pose proof E1 as Ex.
  eapply quality_loop_exhausted with (q' := 70) in Ex; [|lia|reflexivity].
  destruct Ex as (b & Eb & Hfit).
  unfold save in Hrun. rewrite Eb in Hrun. simpl in Hrun.
  apply Ok_inj in Hrun. injection Hrun as <-. simpl.
  destruct (Z.lt_ge_cases (budget max_size_mb) (Z.of_nat (List.length b)))
    as [Hlt|Hge]; [exact Hlt|].
  apply fits_spec in Hge. congruence.
Qed.

(** *** The dimensions handed to the ladder *)

Lemma thumbnail_keeps_mode (img img' : image pixels) box :
  Image.thumbnail img box = Ok img' -> mode img' = mode img.
Proof.
  unfold Image.thumbnail.
  destruct (Image.preserve_aspect_ratio (width img) (height img) box) as [[[w h]|]|];
    simpl; try discriminate.
  - destruct ((w =? width img) && (h =? height img)).
    + intros E. apply Ok_inj in E. now subst.
    + unfold Image.resize. destruct ((w <? 1) || (h <? 1)); [discriminate|].
      destruct (resample img (w, h)); simpl; [|discriminate].
      intros E. apply Ok_inj in E. now subst.
  - intros E. apply Ok_inj in E. now subst.
Qed.

Lemma resize_keeps_mode (img img' : image pixels) size :
  Image.resize img size = Ok img' -> mode img' = mode img.
Proof.
  destruct size as [w h]. unfold Image.resize.
  destruct ((w <? 1) || (h <? 1)); [discriminate|].
  destruct (resample img (w, h)); simpl; [|discriminate].
  intros E. apply Ok_inj in E. now subst.
Qed.

Lemma flatten_spec (img img' : image pixels) :
  flatten img = Ok img' ->
  width img' = width img /\ height img' = height img
  /\ mode img' = (if has_transparency img then "RGB" else mode img)
  /\ (has_transparency img = false -> img' = img).
Proof.
  unfold flatten, has_transparency.
  destruct (existsb _ _).
  - intros E. destruct (convert_keeps_size _ _ E) as [Ew Eh].
    unfold Image.convert in E. destruct (convert_pixels img "RGB"); [|discriminate E].
    simpl in E. apply Ok_inj in E. subst img'. simpl. repeat split. discriminate.
  - intros E. apply Ok_inj in E. subst img'. auto.
Qed.

(** Bringing an image with positive sides down to [d] leaves sides between 1
    and [d]. *)
Lemma downscale_bounds (img img' : image pixels) (d : Z) :
  0 < width img -> 0 < height img -> 0 < d ->
  downscale img d = Ok img' ->
  1 <= width img' <= d /\ 1 <= height img' <= d /\ mode img' = mode img.
Proof.
  intros HW HH Hd E. unfold downscale in E.
  destruct ((width img >? d) || (height img >? d)) eqn:Big.
  - pose proof (thumbnail_keeps_mode _ _ E) as Hm.
    apply orb_true_iff in Big. rewrite !Z.gtb_lt in Big.
    destruct (preserve_aspect_ratio_spec (W := width img) (H := height img) (d := d))
      as (w1 & h1 & P & Bw & Bh & _); try lia.
    unfold Image.thumbnail in E. rewrite P in E. simpl result_bind in E.
    destruct ((w1 =? width img) && (h1 =? height img)) eqn:Eq.
    + apply andb_true_iff in Eq as [A B]. apply Z.eqb_eq in A, B.
      apply Ok_inj in E. subst img'. repeat split; lia.
    + apply resize_gives_size in E as [-> ->]. auto.
  - apply orb_false_iff in Big. rewrite !Z.gtb_ltb, !Z.ltb_ge in Big.
    apply Ok_inj in E. subst img'. repeat split; lia.
Qed.

Lemma downscale_keeps_mode (img img' : image pixels) (d : Z) :
  downscale img d = Ok img' -> mode img' = mode img.
Proof.
  unfold downscale. destruct (_ || _); [apply thumbnail_keeps_mode|].
  intros E. apply Ok_inj in E. now subst.
Qed.

Lemma upscale_keeps_mode (img img' : image pixels) :
  upscale img = Ok img' -> mode img' = mode img.
Proof.
  unfold upscale. destruct (_ <? _).
  - destruct (_ =? 0); [discriminate|].
    destruct (Py.int_of_float _); [|discriminate].
    destruct (Py.int_of_float _); [|discriminate].
    cbn [result_bind]. apply resize_keeps_mode.
  - intros E. apply Ok_inj in E. now subst.
Qed.

(** X2. Whatever encoding the normalizer returns, the encoded image has the
    mode of the decoded one, except that an image with transparency (mode
    RGBA, LA or P) has been converted to RGB. *)
Theorem transparent_image_is_encoded_as_RGB (image_data : bytes)
  (max_size_mb max_dimension : Z) (img0 : image pixels) (e : encoded) :
  Image_open image_data = Ok img0 ->
  fst (resize_run image_data max_size_mb max_dimension) = Ok (Some e) ->
  mode (out_image e) = (if has_transparency img0 then "RGB" else mode img0).
Proof.
  intros Hopen Hrun.
  unfold resize_run, resize_body in Hrun.
  destruct (prepare image_data max_dimension) as [img|] eqn:Ep;
    [rewrite bind_lift_Ok in Hrun|rewrite bind_lift_Raise in Hrun; discriminate Hrun].
  assert (Hm : mode img = (if has_transparency img0 then "RGB" else mode img0)).
  { unfold prepare in Ep. rewrite Hopen in Ep. simpl result_bind in Ep.
    destruct (flatten img0) as [img1|] eqn:E1; [|discriminate Ep].
    apply flatten_spec in E1 as (_ & _ & Sm & _). simpl result_bind in Ep.
    destruct (downscale img1 max_dimension) as [img2|] eqn:E2; [|discriminate Ep].
    simpl result_bind in Ep.
    apply downscale_keeps_mode in E2. apply upscale_keeps_mode in Ep. congruence. }
  destruct (compress img max_size_mb []) as [r log] eqn:Ec. simpl in Hrun. subst r.
  unfold compress, bind in Ec.
  destruct (quality_loop (Z.to_nat 90) img 90 max_size_mb []) as [r1 log1] eqn:E1.
  destruct (@quality_loop_spec _ (Z.to_nat 90) img 90 max_size_mb [])
    as (_ & _ & _ & R1); [vm_compute; lia|].
  rewrite E1 in R1. simpl in R1.
  destruct r1 as [[e1| |]|]; try discriminate Ec.
  { injection Ec as <- _. destruct R1 as (_ & -> & _). exact Hm. }
  destruct (scale_loop 8 img (width img) (height img) 0.8 max_size_mb min_dimension log1)
    as [r2 log2] eqn:E2.
  destruct r2 as [[e2| |]|]; try discriminate Ec.
  { apply scale_loop_rung in E2 as (_ & Hm2 & _). injection Ec as <- _. congruence. }
  unfold save in Ec. destruct (save_jpeg img 70); [|discriminate Ec].
  injection Ec as <- _. exact Hm.
Qed.

(** *** The minimum side *)

(** For every shorter side [m] from 1 to 46 and every side [x] from [m] to
    2048, [upscaled m x] is 48 or more (checked by computation). *)
Lemma upscale_table (m x : Z) :
  1 <= m < 47 -> m <= x <= 2048 ->
  exists v, upscaled m x = Ok v /\ 48 <= v.
Proof.
  intros Hm Hx.
  assert (T : forallb (fun m =>
    forallb (fun x =>
      match upscaled (Z.of_nat m) (Z.of_nat x) with
      | Ok v => 48 <=? v
      | Raise _ => false
      end) (seq m (2049 - m))) (seq 1 46) = true) by (vm_compute; reflexivity).
  rewrite forallb_forall in T.
  specialize (T (Z.to_nat m) ltac:(apply in_seq; lia)).
  rewrite forallb_forall in T.
  specialize (T (Z.to_nat x) ltac:(apply in_seq; lia)).
  rewrite !Z2Nat.id in T by lia.
  destruct (upscaled m x) as [v|]; [|discriminate T].
  exists v. split; [reflexivity|]. now apply Z.leb_le.
Qed.

(** For [m = 47] it is not: the quotient [48 / 47] rounds down,
    [47 * (48 / 47)] falls just short of 48 and truncates to 47. *)
Lemma upscale_table_47 (x : Z) :
  47 <= x <= 2048 ->
  exists v, upscaled 47 x = Ok v /\ 47 <= v /\ (x = 47 -> v = 47).
Proof.
  intros Hx.
  assert (T : forallb (fun x =>
    match upscaled 47 (Z.of_nat x) with
    | Ok v => (47 <=? v) && (if Nat.eqb x 47 then v =? 47 else true)
    | Raise _ => false
    end) (seq 47 2002) = true) by (vm_compute; reflexivity).
  rewrite forallb_forall in T.
  specialize (T (Z.to_nat x) ltac:(apply in_seq; lia)).
  rewrite !Z2Nat.id in T by lia.
  destruct (upscaled 47 x) as [v|]; [|discriminate T].
  apply andb_true_iff in T as [T1 T2]. apply Z.leb_le in T1.
  exists v. split; [reflexivity|]. split; [exact T1|].
  intros ->. change (Z.to_nat 47 =? 47)%nat with true in T2. now apply Z.eqb_eq.
Qed.

(** The upscaling step on an image with sides between 1 and 2048: a shorter
    side other than 47 ends at 48 or more, a shorter side of 47 stays 47. *)
Lemma upscale_spec (img img' : image pixels) :
  1 <= width img <= 2048 -> 1 <= height img <= 2048 ->
  upscale img = Ok img' ->
  (Z.min (width img) (height img) <> 47 -> 48 <= Z.min (width img') (height img'))
  /\ (Z.min (width img) (height img) = 47 -> Z.min (width img') (height img') = 47).
Proof.
  intros HW HH E. unfold upscale in E.
  destruct (Z.ltb_spec (Z.min (width img) (height img)) min_dimension) as [Hlt|Hge].
  2:{ apply Ok_inj in E. subst img'. unfold min_dimension in Hge. split; lia. }
  unfold min_dimension in *.
  destruct (Z.eqb_spec (Z.min (width img) (height img)) 0); [lia|].
  change (result_bind (upscaled (Z.min (width img) (height img)) (width img))
            (fun new_width =>
             result_bind (upscaled (Z.min (width img) (height img)) (height img))
               (fun new_height => Image.resize img (new_width, new_height)))
          = Ok img') in E.
  destruct (Z.eq_dec (Z.min (width img) (height img)) 47) as [H47|H47].
  - rewrite H47 in E.
    destruct (upscale_table_47 (x := width img)) as (nw & Ew & Hw & Hw'); [lia|].
    destruct (upscale_table_47 (x := height img)) as (nh & Eh & Hh & Hh'); [lia|].
    rewrite Ew, Eh in E. simpl result_bind in E.
    apply resize_gives_size in E as [-> ->].
    split; [contradiction|]. intros _. lia.
  - destruct (upscale_table (m := Z.min (width img) (height img)) (x := width img))
      as (nw & Ew & Hw); [lia|lia|].
    destruct (upscale_table (m := Z.min (width img) (height img)) (x := height img))
      as (nh & Eh & Hh); [lia|lia|].
    rewrite Ew, Eh in E. simpl result_bind in E.
    apply resize_gives_size in E as [-> ->]. split; [lia|contradiction].
Qed.

(** What [prepare] hands to the ladder for an image within the bound. *)
Lemma prepare_within_bound (image_data : bytes) (img0 img : image pixels) :
  Image_open image_data = Ok img0 ->
  0 < width img0 <= 2048 -> 0 < height img0 <= 2048 ->
  prepare image_data 2048 = Ok img ->
  (Z.min (width img0) (height img0) <> 47 -> 48 <= Z.min (width img) (height img))
  /\ (Z.min (width img0) (height img0) = 47 -> Z.min (width img) (height img) = 47).
Proof.
  intros Hopen HW HH Hp. unfold prepare in Hp. rewrite Hopen in Hp.
  simpl result_bind in Hp.
  destruct (flatten img0) as [img1|] eqn:E1; [|discriminate Hp].
  apply flatten_spec in E1 as (Sw & Sh & _). simpl result_bind in Hp.
  unfold downscale in Hp. rewrite Sw, Sh in Hp.
  replace ((width img0 >? 2048) || (height img0 >? 2048)) with false in Hp
    by (symmetry; apply orb_false_iff; rewrite !Z.gtb_ltb, !Z.ltb_ge; lia).
  simpl result_bind in Hp.
  apply upscale_spec in Hp; [|lia|lia]. destruct Hp as [A B].
  rewrite Sw, Sh in A, B. split; [exact A|]. intros H47. now apply B.
Qed.



(** X4. An image within the bound whose shorter side is 47 pixels is not
    brought up to the minimum: whatever encoding the normalizer returns for it
    still has a shorter side of 47, because [47 * (48 / 47)] is just below 48
    in binary64 and [int] truncates it to 47. *)
Theorem side_of_47_stays_below_provider_minimum (image_data : bytes)
  (max_size_mb : Z) (img0 : image pixels) (e : encoded) :
  Image_open image_data = Ok img0 ->
  width img0 <= 2048 -> height img0 <= 2048 ->
  Z.min (width img0) (height img0) = 47 ->
  fst (resize_run image_data max_size_mb 2048) = Ok (Some e) ->
  Z.min (width (out_image e)) (height (out_image e)) = 47
  /\ forall s, out_rung e <> scale_rung s.
Proof.
  intros Hopen HW HH H47 Hrun.
  unfold resize_run, resize_body in Hrun.
  destruct (prepare image_data 2048) as [img|] eqn:Ep;
    [rewrite bind_lift_Ok in Hrun|rewrite bind_lift_Raise in Hrun; discriminate Hrun].
  assert (Hmin : Z.min (width img) (height img) = 47).
  { apply (prepare_within_bound image_data Hopen); try lia. exact Ep. }
  destruct (compress img max_size_mb []) as [r log] eqn:Ec. simpl in Hrun. subst r.
  pose proof (compress_spec _ _ Ec) as [_ R].
  destruct (out_rung e) as [q|scale|] eqn:Er.
  - destruct R as (_ & -> & _). split; [exact Hmin|discriminate].
  - exfalso. unfold compress, bind in Ec.
    destruct (quality_loop (Z.to_nat 90) img 90 max_size_mb []) as [r1 log1] eqn:E1.
    destruct r1 as [[e1| |]|]; try discriminate Ec.
    { apply quality_loop_rung in E1 as [q' Hq']. injection Ec as <- _. congruence. }
    destruct (scale_loop 8 img (width img) (height img) 0.8 max_size_mb
                min_dimension log1) as [r2 log2] eqn:E2.
    destruct r2 as [[e2| |]|]; try discriminate Ec.
    + pose proof E2 as E2'.
      apply scale_loop_rung in E2 as (_ & _ & H48). injection Ec as <- _.
      apply scale_loop_spec in E2' as (_ & _ & _ & _ & k & Hk & _ & Rw & Rh).
      rewrite live_turns_default in Hk.
      unfold min_dimension in H48.
      assert (Hs : 47 * (8 - Z.of_nat k) / 10 < 48)
        by (apply Z.div_lt_upper_bound; lia).
      destruct (Z.min_spec (width img) (height img)) as [[_ M]|[_ M]];
        rewrite M in Hmin.
      * rewrite Hmin, scale_table in Rw by lia. apply Ok_inj in Rw. lia.
      * rewrite Hmin, scale_table in Rh by lia. apply Ok_inj in Rh. lia.
    + unfold save in Ec. destruct (save_jpeg img 70); [|discriminate Ec].
      injection Ec as <- _. discriminate Er.
  - rewrite R. split; [exact Hmin|discriminate].
Qed.

(** X5. An image that needs no preparation (no transparency, both sides
    within the bound, the shorter one at 48 or more) and whose encoding at
    quality 90 fits the budget is returned as that encoding: it is encoded
    once, at its own size, and never resampled. *)
Theorem image_within_bounds_is_encoded_once (image_data : bytes)
  (max_size_mb max_dimension : Z) (img0 : image pixels) (b : bytes) :
  Image_open image_data = Ok img0 ->
  has_transparency img0 = false ->
  width img0 <= max_dimension -> height img0 <= max_dimension ->
  48 <= Z.min (width img0) (height img0) ->
  save_jpeg img0 90 = Ok b ->
  Z.of_nat (List.length b) <= budget max_size_mb ->
  resize_run image_data max_size_mb max_dimension
  = (Ok (Some {| out_bytes := b; out_image := img0; out_rung := quality_rung 90 |}),
     [(width img0, height img0, 90)])
  /\ resize_image_if_needed image_data max_size_mb max_dimension = b.
Proof.
  intros Hopen Hflat HW HH Hmin Hsave Hfit.
  assert (Hp : prepare image_data max_dimension = Ok img0).
  { unfold prepare. rewrite Hopen. simpl result_bind.
    unfold flatten. unfold has_transparency in Hflat. rewrite Hflat. simpl result_bind.
    unfold downscale.
    replace ((width img0 >? max_dimension) || (height img0 >? max_dimension)) with false
      by (symmetry; apply orb_false_iff; rewrite !Z.gtb_ltb, !Z.ltb_ge; lia).
    simpl result_bind. unfold upscale.
    replace (Z.min (width img0) (height img0) <? min_dimension) with false
      by (symmetry; apply Z.ltb_ge; unfold min_dimension; lia).
    reflexivity. }
  assert (Hrun : resize_run image_data max_size_mb max_dimension
                 = (Ok (Some {| out_bytes := b; out_image := img0;
                                out_rung := quality_rung 90 |}),
                    [(width img0, height img0, 90)])).
  { unfold resize_run, resize_body. rewrite Hp, bind_lift_Ok.
    unfold compress. unfold bind at 1.
    change (Z.to_nat 90) with (S (Z.to_nat 89)). cbn [quality_loop].
    change (90 >? 20) with true. cbv iota.
    unfold bind at 1, save at 1. rewrite Hsave.
    apply fits_spec in Hfit. rewrite Hfit. reflexivity. }
  split; [exact Hrun|]. unfold resize_image_if_needed. now rewrite Hrun.
Qed.

End Normalizer_more.

(** ** The provider client and the engine: errors, traffic, outcomes *)

Section Raises.
Variables S A : Type.

Lemma raises_only_handler (P : exn -> Prop) (m : SE S A) (h : exn -> SE S A) :
  (forall e, raises_only P (h e)) -> raises_only P (try_except m h).
Proof.
  intros Hh s e s' H. unfold try_except in H.
  destruct (m s) as [[a|e0] s1]; [discriminate H|]. eapply Hh; eauto.
Qed.

Lemma raises_only_raise (P : exn -> Prop) (e : exn) :
  P e -> raises_only P (raise e : SE S A).
Proof. intros H s e' s' E. unfold raise in E. now inversion E; subst. Qed.

End Raises.

Section Engine_more.
Context {rt : PyRuntime} {pil : Pillow} {W : World}.

(** *** Errors *)

Lemma reraise_raises A prefix e :
  raises_only (fun e => is_HTTPException e = true) (reraise (A := A) prefix e).
Proof.
  unfold reraise. destruct (is_HTTPException e) eqn:E; now apply raises_only_raise.
Qed.

(** X6. Whatever goes wrong inside them (an error reply, a transport failure,
    a reply of an unexpected shape), the four gallery operations of the client
    raise nothing but [HTTPException]; the duplicate search and the
    registration raise nothing but an [HTTPException] of status 500 whose
    detail starts with their own prefix, whatever status the error inside
    carried. *)
Theorem errors_surface_as_HTTPException (self : FaceVerification)
  (face_token : pyval) (outer_id : string) (return_count : Z) :
  let fpp := fpp_manager self in
  raises_only (fun e => is_HTTPException e = true) (create_new_faceset fpp)
  /\ raises_only (fun e => is_HTTPException e = true)
       (add_face_to_faceset fpp face_token outer_id)
  /\ raises_only (fun e => is_HTTPException e = true)
       (search_faces fpp face_token outer_id return_count)
  /\ raises_only (fun e => is_HTTPException e = true) (get_faceset_detail fpp outer_id)
  /\ raises_only (fun e => exists msg,
                    e = HTTPException 500 ("Error during face search: " ++ msg)%string)
       (search_similar_faces self face_token)
  /\ raises_only (fun e => exists msg,
                    e = HTTPException 500 ("Error saving face data: " ++ msg)%string)
       (save_face_data self face_token).
Proof.
  intros fpp. repeat split;
    try (apply raises_only_handler; intros; apply reraise_raises);
    apply raises_only_handler; intros; apply raises_only_raise; eauto.
Qed.

(** X7. The duplicate search fails exactly when listing the stored galleries
    fails, and then with status 500 and the store's error in the detail: no
    failure of a gallery search ever makes it fail. *)
Theorem search_fails_only_with_the_store (self : FaceVerification)
  (face_token : pyval) (s s' : state) (e : exn) :
  search_similar_faces self face_token s = (Raise e, s')
  <-> exists e0,
        call ev_get_all_stored_faces get_all_stored_faces s = (Raise e0, s')
        /\ e = HTTPException 500 ("Error during face search: " ++ exn_str e0)%string.
Proof.
  unfold search_similar_faces, try_except, bind.
  destruct (call ev_get_all_stored_faces get_all_stored_faces s) as [[facesets|e0] s0].
  - rewrite search_facesets_gathers. simpl. split; [discriminate|].
    intros (e1 & H & _). discriminate H.
  - unfold raise. split.
    + intros H. inversion H; subst. eauto.
    + intros (e1 & H & ->). now inversion H; subst.
Qed.

(** *** The duplicate search *)

Lemma gather_well_formed (self : FaceVerification) l ms rest acc :
  Forall2 (fun r m => match_of r = Ok m) l ms ->
  gather self (l ++ rest) acc = gather self rest (acc ++ filter (above_threshold self) ms).
Proof.
  intros H. revert acc. induction H as [|r m l ms Hr Hl IH]; intros acc; simpl.
  - now rewrite app_nil_r.
  - unfold match_of in Hr.
    destruct (result_bind (Py.get r "confidence" (PInt 0)) py_float) as [c|e];
      simpl in *; [|discriminate Hr].
    destruct (Py.get r "face_token" (PStr "")) as [tok|e]; simpl in *;
      [|discriminate Hr].
    apply Ok_inj in Hr. subst m. unfold above_threshold at 1. simpl.
    destruct (PrimFloat.leb (confidence_threshold self) c); [|apply IH].
    rewrite IH. now rewrite <- app_assoc.
Qed.

(** X8. An entry the search cannot read (its confidence is no number, or it
    is no object) ends the reading of its gallery's reply: the matches found
    before it are kept, every entry after it is ignored, whatever its
    confidence. *)
Theorem unreadable_entry_ends_the_gallery (self : FaceVerification)
  (l1 l2 : list pyval) (ms : list FaceVerificationMatch) (bad : pyval) (e : exn) :
  Forall2 (fun r m => match_of r = Ok m) l1 ms ->
  match_of bad = Raise e ->
  gathered_from self (Ok (PList (l1 ++ bad :: l2))) = filter (above_threshold self) ms.
Proof.
  intros Hl Hbad. simpl. rewrite (gather_well_formed self (bad :: l2) [] Hl). simpl.
  unfold match_of in Hbad.
  destruct bad as [| | | | | |kv]; try reflexivity.
  destruct (result_bind (Py.get (PDict kv) "confidence" (PInt 0)) py_float) as [c|e0];
    [|reflexivity].
  discriminate Hbad.
Qed.

(** X9. Once the store has listed the galleries, what the search returns is a
    rearrangement of what was gathered from the gallery searches: sorting
    drops no match and repeats none. *)
Theorem search_reports_every_gathered_match (self : FaceVerification)
  (face_token : pyval) (s s0 : state) (facesets : list (string * list string)) :
  call ev_get_all_stored_faces get_all_stored_faces s = (Ok facesets, s0) ->
  exists found,
    fst (search_similar_faces self face_token s) = Ok found
    /\ Permutation found
         (flat_map (gathered_from self)
            (fst (gallery_searches self face_token facesets s0))).
Proof.
  intros Hdb. unfold search_similar_faces, try_except, bind. rewrite Hdb.
  rewrite search_facesets_gathers. simpl. eexists. split; [reflexivity|].
  apply sorted_reverse_perm.
Qed.

(** *** Attribute validation *)

Lemma gt0_number (q : pyval) (b : bool) : Py.gt0 q = Ok b -> is_number q = true.
Proof. destruct q; simpl; congruence. Qed.

Lemma number_gt0 (q : pyval) : is_number q = true -> exists b, Py.gt0 q = Ok b.
Proof. destruct q; simpl; try discriminate; eauto. Qed.

Lemma number_lt_float (q : pyval) (bound : float) :
  is_number q = true -> exists b, Py.lt_float q bound = Ok b.
Proof. destruct q; simpl; try discriminate; eauto. Qed.

(** X10. The verdict of [_validate_face_attributes] does not depend on
    [min_face_quality]: two verifiers that differ in any setting give the same
    answer (or raise the same exception) on every value. *)
Theorem min_face_quality_has_no_effect (self self' : FaceVerification)
  (attributes : pyval) :
  _validate_face_attributes self attributes = _validate_face_attributes self' attributes.
Proof.
  unfold _validate_face_attributes.
  destruct (negb (Py.truthy attributes)); [reflexivity|].
  destruct (Py.get attributes "facequality" (PDict [])) as [quality|]; [|reflexivity].
  cbn [result_bind].
  destruct (Py.get quality "value" (PInt 0)) as [q|]; [|reflexivity].
  cbn [result_bind].
  destruct (Py.gt0 q) as [b|] eqn:Eg; [|reflexivity]. cbn [result_bind].
  destruct (Py.get attributes "gender" PNone); [|reflexivity]. cbn [result_bind].
  destruct (Py.get attributes "age" PNone); [|reflexivity]. cbn [result_bind].
  destruct (Py.get attributes "ethnicity" PNone); [|reflexivity]. cbn [result_bind].
  destruct (negb _); [reflexivity|].
  destruct b; [|reflexivity].
  apply gt0_number in Eg.
  destruct (number_lt_float q (min_face_quality self) Eg) as [b1 ->].
  destruct (number_lt_float q (min_face_quality self') Eg) as [b2 ->].
  reflexivity.
Qed.

(** X11. [_validate_face_attributes] accepts exactly the values that hold a
    non-null gender, age or ethnicity and whose face quality, where present,
    is a number; it then answers "Valid human face detected".  The quality
    itself, however low, never rejects. *)
Theorem validation_accepts_iff_human_attribute (self : FaceVerification)
  (attributes : pyval) (msg : string) :
  _validate_face_attributes self attributes = Ok (true, msg)
  <-> has_human_attribute attributes = true
      /\ (exists q, face_quality attributes = Ok q /\ is_number q = true)
      /\ msg = "Valid human face detected".
Proof.
  split.
  - intros H.
    destruct (has_human_attribute attributes) eqn:Hh.
    2:{ pose proof (validate_rejects self attributes Hh) as R. rewrite H in R.
        destruct R as [R _]. discriminate R. }
    destruct attributes as [| | | | | |kv]; try discriminate Hh.
    assert (Hq : exists q, face_quality (PDict kv) = Ok q /\ is_number q = true).
    { unfold _validate_face_attributes, face_quality in *.
      destruct (negb (Py.truthy (PDict kv))); [discriminate H|].
      destruct (Py.get (PDict kv) "facequality" (PDict [])) as [quality|];
        [|discriminate H].
      cbn [result_bind] in *.
      destruct (Py.get quality "value" (PInt 0)) as [q|]; [|discriminate H].
      cbn [result_bind] in *.
      destruct (Py.gt0 q) as [b|] eqn:Eg; [|discriminate H].
      exists q. split; [reflexivity|eapply gt0_number; eauto]. }
    destruct Hq as (q & Hq & Hn).
    pose proof (validate_number self kv Hh Hq Hn) as Hv. rewrite Hv in H.
    injection H as <-. eauto.
  - intros (Hh & (q & Hq & Hn) & ->).
    destruct attributes as [| | | | | |kv]; try discriminate Hh.
    now apply validate_number with (q := q).
Qed.

End Engine_more.

(** ** Traffic: what is sent, to whom, and when *)

Ltac emits_step :=
  match goal with
  | |- emits _ (bind _ _) => apply emits_bind; [|intros]
  | |- emits _ (try_except _ _) => apply emits_try; [|intros]
  | |- emits _ (ret _) => apply emits_ret
  | |- emits _ (raise _) => apply emits_raise
  | |- emits _ (lift _) => apply emits_lift
  | |- emits _ now => apply emits_now
  | |- emits _ uuid4 => apply emits_uuid4
  | |- emits _ get_last_request_time => apply emits_get_last
  | |- emits _ (set_last_request_time _) => apply emits_set_last
  | |- emits _ (sleep _) => apply emits_call
  | |- emits _ (post _ _) => apply emits_call
  | |- emits _ (call _ _) => apply emits_call
  | |- emits _ (if ?c then _ else _) => destruct c
  | |- emits _ (match ?x with _ => _ end) => destruct x
  end.

Section Engine_traffic.
Context {rt : PyRuntime} {pil : Pillow} {W : World}.

Lemma emits_weaken A (P Q : event -> bool) (m : M A) :
  (forall ev, P ev = true -> Q ev = true) -> emits P m -> emits Q m.
Proof.
  intros HPQ Hm s. destruct (Hm s) as (evs & E & F). exists evs. split; [exact E|].
  rewrite forallb_forall in *. auto.
Qed.

Lemma emits_run A (P : event -> bool) (m : M A) s r s' :
  emits P m -> m s = (r, s') ->
  exists evs, trace s' = trace s ++ evs /\ forallb P evs = true.
Proof. intros Hm E. specialize (Hm s). now rewrite E in Hm. Qed.

Lemma lift_run A (r : res A) (s s' : state) a :
  lift r s = (Ok a, s') -> r = Ok a /\ s' = s.
Proof. unfold lift. intros E. now inversion E. Qed.

(** Every event of a request is a wait or the request itself. *)
Lemma make_request_emits_if (P : event -> bool) (self : FacePlusPlusManager)
  u data fs operation :
  (forall seconds, P (ev_sleep seconds) = true) ->
  P (ev_post operation {| url := u; form := data; files := fs |}) = true ->
  emits P (_make_request self u data fs operation).
Proof.
  intros Hsleep Hpost.
  unfold _make_request. generalize (seq 0 (max_retries self)) as attempts.
  induction attempts as [|attempt rest IH]; simpl.
  - apply emits_ret.
  - apply emits_bind.
    + unfold attempt_body, _handle_rate_limit.
      repeat emits_step; auto.
    + intros [|result]; [exact IH|apply emits_ret].
Qed.

Section Operations.
Variable P : event -> bool.
Variable self : FacePlusPlusManager.
Hypothesis P_sleep : forall seconds, P (ev_sleep seconds) = true.

Lemma detect_face_emits_if image_data :
  (forall fs, P (ev_post "detect_face"
                   {| url := detect_url self;
                      form := _get_base_params self ++ detect_params;
                      files := fs |}) = true) ->
  emits P (detect_face self image_data).
Proof.
  intros H. unfold detect_face.
  apply emits_try; [|intros; apply emits_ret].
  apply emits_bind; [now apply make_request_emits_if|intros].
  repeat emits_step.
Qed.

Lemma search_faces_emits_if face_token outer_id return_count :
  P (ev_post "search_faces"
       {| url := search_url self;
          form := _get_base_params self ++
                  [("face_token", face_token); ("outer_id", PStr outer_id);
                   ("return_result_count", PInt return_count)];
          files := None |}) = true ->
  emits P (search_faces self face_token outer_id return_count).
Proof.
  intros H. unfold search_faces, reraise.
  apply emits_try; [|intros; repeat emits_step].
  apply emits_bind; [now apply make_request_emits_if|intros].
  repeat emits_step.
Qed.

Lemma get_faceset_detail_emits_if outer_id :
  P (ev_post "get_faceset_detail"
       {| url := get_detail_url self;
          form := _get_base_params self ++ [("outer_id", PStr outer_id)];
          files := None |}) = true ->
  emits P (get_faceset_detail self outer_id).
Proof.
  intros H. unfold get_faceset_detail, reraise.
  apply emits_try; [|intros; repeat emits_step].
  apply emits_bind; [now apply make_request_emits_if|intros].
  repeat emits_step.
Qed.

Lemma add_face_to_faceset_emits_if face_token outer_id :
  P (ev_post "add_face"
       {| url := add_url self;
          form := _get_base_params self ++
                  [("face_tokens", face_token); ("outer_id", PStr outer_id)];
          files := None |}) = true ->
  emits P (add_face_to_faceset self face_token outer_id).
Proof.
  intros H. unfold add_face_to_faceset, reraise.
  apply emits_try; [|intros; repeat emits_step].
  apply emits_bind; [now apply make_request_emits_if|intros].
  repeat emits_step.
Qed.

Lemma create_new_faceset_emits_if :
  (forall id, P (ev_post "create_faceset"
                   {| url := create_url self;
                      form := _get_base_params self ++
                              [("outer_id", PStr id); ("display_name", PStr id);
                               ("tags", PStr "face_verification")];
                      files := None |}) = true) ->
  emits P (create_new_faceset self).
Proof.
  intros H. unfold create_new_faceset, reraise.
  apply emits_try; [|intros; repeat emits_step].
  apply emits_bind; [apply emits_uuid4|intros hex].
  apply emits_bind; [now apply make_request_emits_if|intros].
  repeat emits_step.
Qed.

End Operations.

Section Engine_emits.
Variable P : event -> bool.
Variable self : FaceVerification.
Hypothesis P_sleep : forall seconds, P (ev_sleep seconds) = true.

Lemma search_similar_faces_emits_if face_token :
  P ev_get_all_stored_faces = true ->
  (forall outer_id,
     P (ev_post "search_faces"
          {| url := search_url (fpp_manager self);
             form := _get_base_params (fpp_manager self) ++
                     [("face_token", face_token); ("outer_id", PStr outer_id);
                      ("return_result_count", PInt 5)];
             files := None |}) = true) ->
  emits P (search_similar_faces self face_token).
Proof.
  intros Hdb Hpost. unfold search_similar_faces.
  apply emits_try; [|intros; apply emits_raise].
  apply emits_bind; [now apply emits_call|intros facesets].
  apply emits_bind; [|intros; apply emits_ret].
  generalize (@nil FaceVerificationMatch) as acc.
  induction facesets as [|[faceset_id stored] rest IH]; intros acc; simpl.
  - apply emits_ret.
  - apply emits_bind; [|intros; apply IH].
    destruct stored as [|t stored]; [apply emits_ret|].
    intros s.
    assert (Hs : emits P (search_faces (fpp_manager self) face_token faceset_id 5))
      by (apply search_faces_emits_if; auto).
    destruct (Hs s) as (evs & E & F).
    destruct (search_faces (fpp_manager self) face_token faceset_id 5 s)
      as [[results|e] s1]; simpl in *.
    + exists evs. destruct (Py.iter results); auto.
    + exists evs. auto.
Qed.

Lemma save_face_data_emits_if face_token :
  P ev_find_available_faceset = true ->
  (forall id, P (ev_save_face_token face_token id) = true) ->
  (forall id count, P (ev_update_faceset_count id count) = true) ->
  (forall id, P (ev_post "get_faceset_detail"
                   {| url := get_detail_url (fpp_manager self);
                      form := _get_base_params (fpp_manager self)
                              ++ [("outer_id", PStr id)];
                      files := None |}) = true) ->
  (forall id, P (ev_post "create_faceset"
                   {| url := create_url (fpp_manager self);
                      form := _get_base_params (fpp_manager self) ++
                              [("outer_id", PStr id); ("display_name", PStr id);
                               ("tags", PStr "face_verification")];
                      files := None |}) = true) ->
  (forall id, P (ev_post "add_face"
                   {| url := add_url (fpp_manager self);
                      form := _get_base_params (fpp_manager self) ++
                              [("face_tokens", face_token); ("outer_id", PStr id)];
                      files := None |}) = true) ->
  emits P (save_face_data self face_token).
Proof.
  intros Hfind Hsave Hupdate Hdetail Hcreate Hadd. unfold save_face_data.
  repeat first
    [ apply get_faceset_detail_emits_if; [exact P_sleep|apply Hdetail]
    | apply create_new_faceset_emits_if; [exact P_sleep|exact Hcreate]
    | apply add_face_to_faceset_emits_if; [exact P_sleep|apply Hadd]
    | emits_step ]; auto.
Qed.

End Engine_emits.

(** X12. [detect_face] never raises.  It answers [(None, None)], or a token
    together with attributes the validator can read: an object in which the
    face quality, where present, is an object too. *)
Theorem detect_face_result_is_readable (self : FacePlusPlusManager)
  (image_data : bytes) (s : state) :
  exists face_token attributes s',
    detect_face self image_data s = (Ok (face_token, attributes), s')
    /\ ((face_token = PNone /\ attributes = PNone)
        \/ exists q, face_quality attributes = Ok q).
Proof.
  assert (H : returns_only
                (fun p => (fst p = PNone /\ snd p = PNone)
                          \/ exists q, face_quality (snd p) = Ok q)
                (detect_face self image_data)).
  { unfold detect_face.
    apply returns_only_try; [|intros; apply returns_only_ret; left; auto].
    apply returns_only_bind. intros result. apply returns_only_bind. intros faces.
    destruct (negb _); [apply returns_only_ret; left; auto|].
    do 5 (apply returns_only_bind; intros).
    apply returns_only_bind_lift. intros quality Eq.
    apply returns_only_bind_lift. intros v Ev.
    apply returns_only_ret. right. exists v. unfold face_quality. simpl snd.
    rewrite Eq. exact Ev. }
  destruct (detect_face self image_data s) as [[[tok attrs]|e] s'] eqn:E.
  - exists tok, attrs, s'. split; [reflexivity|]. exact (H _ _ _ E).
  - exfalso. unfold detect_face, try_except in E.
    match type of E with
    | context [match ?m s with _ => _ end] => destruct (m s) as [[r0|e0] s0]
    end; discriminate E.
Qed.

Ltac provider_request_holds :=
  intros; unfold provider_request, endpoint, field_is, _get_base_params, detect_params;
  simpl; rewrite ?String.eqb_refl; reflexivity.

(** X13. Every request a verification sends to the provider goes to the URL
    configured for its operation and carries the manager's [api_key] and
    [api_secret]. *)
Theorem every_request_is_addressed_and_signed (self : FaceVerification)
  (image_data : bytes) :
  emits (provider_request (fpp_manager self)) (verify_face self image_data).
Proof.
  unfold verify_face.
  apply emits_try; [|intros; apply emits_ret].
  apply emits_bind.
  { apply detect_face_emits_if; provider_request_holds. }
  intros [face_token attributes].
  destruct (negb _); [apply emits_ret|].
  apply emits_bind; [apply emits_lift|]. intros [is_valid message].
  destruct (negb is_valid); [apply emits_ret|].
  apply emits_bind.
  { apply search_similar_faces_emits_if; provider_request_holds. }
  intros [|best_match rest]; [|apply emits_ret].
  apply emits_bind.
  { apply save_face_data_emits_if; provider_request_holds. }
  intros saved. destruct (negb saved); apply emits_ret.
Qed.

End Engine_traffic.

(** ** Retries, registration and the response *)

Section Engine_outcomes.
Context {rt : PyRuntime} {pil : Pillow} {W : World}.

Lemma handle_rate_limit_trace (self : FacePlusPlusManager) s :
  exists g, trace (snd (_handle_rate_limit self s)) = trace s ++ g
            /\ filter is_post g = [] /\ filter is_backoff g = [].
Proof.
  unfold _handle_rate_limit, bind, now, get_last_request_time, sleep, call,
    set_last_request_time, ret.
  destruct (time_time (the_world s)) as [t w]. simpl.
  destruct (PrimFloat.ltb _ _); simpl;
    match goal with |- context [time_time ?x] => destruct (time_time x) end;
    simpl; eexists; (split; [reflexivity|]) || (split; [symmetry; apply app_nil_r|]);
    split; reflexivity.
Qed.

Section Unreachable.
Variable self : FacePlusPlusManager.
Variables (u : string) (data : list (string * pyval)) (fs : option bytes).
Variable operation : string.

Let req := {| url := u; form := data; files := fs |}.

Hypothesis unreachable :
  forall r w, match fst (requests_post r w) with
              | Ok resp => json resp = None
              | Raise (RequestException _) => True
              | Raise _ => False
              end.



End Unreachable.


(** *** A returned reply was asked for *)

(** Case analysis on the innermost test of a run, until it is settled. *)
Ltac split_run H :=
  simpl in H;
  repeat (match type of H with
          | context [match ?x with _ => _ end] =>
              lazymatch x with
              | context [match _ with _ => _ end] => fail
              | _ => destruct x eqn:?
              end
          end; simpl in H; try discriminate H).

Lemma attempt_body_return (self : FacePlusPlusManager) u data fs operation attempt
  s r s1 :
  attempt_body self u data fs operation attempt s = (Ok (Return r), s1) ->
  exists g, trace s1
            = trace s ++ g ++ [ev_post operation {| url := u; form := data; files := fs |}].
Proof.
  intros H. destruct (handle_rate_limit_trace self s) as (g & Eg & _). exists g.
  unfold attempt_body, try_except, bind at 1 in H.
  rewrite handle_rate_limit_returns in H.
  remember (snd (_handle_rate_limit self s)) as s0 eqn:Es0.
  unfold bind at 1 in H. unfold post, call at 1 in H.
  destruct (requests_post _ (the_world s0)) as [[resp|e] w'].
  - unfold bind, lift, raise, ret, sleep, call, response_json in H.
    split_run H.
    inversion H; subst s1. simpl. rewrite Eg, <- app_assoc. reflexivity.
  - unfold bind, lift, raise, ret, sleep, call in H. split_run H.
Qed.

Lemma attempt_body_extends (self : FacePlusPlusManager) u data fs operation attempt
  s t s1 :
  attempt_body self u data fs operation attempt s = (t, s1) ->
  exists evs, trace s1 = trace s ++ evs.
Proof.
  intros H. destruct (attempt_body_posts self u data fs operation attempt s)
    as (evs & E & _).
  rewrite H in E. eauto.
Qed.

(** A value other than [None] comes out of [_make_request] only after the
    request was posted. *)
Lemma make_request_returned_was_posted (self : FacePlusPlusManager) u data fs
  operation s r s' :
  _make_request self u data fs operation s = (Ok r, s') ->
  r = PNone
  \/ exists evs, trace s' = trace s ++ evs
                 /\ In (ev_post operation {| url := u; form := data; files := fs |}) evs.
Proof.
  unfold _make_request. generalize (seq 0 (max_retries self)) as attempts.
  intros attempts. revert s.
  induction attempts as [|attempt rest IH]; intros s H; simpl in H.
  - unfold ret in H. inversion H. now left.
  - apply bind_Ok_inv in H as (t & s1 & Ht & H).
    destruct t as [|result].
    + pose proof Ht as Hx. apply attempt_body_extends in Hx as (evs1 & E1).
      apply IH in H as [->|(evs2 & E2 & I2)]; [now left|right].
      exists (evs1 ++ evs2). rewrite E2, E1, app_assoc. split; [reflexivity|].
      apply in_or_app. now right.
    + unfold ret in H. inversion H; subst. right.
      apply attempt_body_return in Ht as (g & E).
      eexists. split; [exact E|]. apply in_or_app. right. now left.
Qed.

Ltac any_traffic :=
  repeat first
    [ apply get_faceset_detail_emits_if; [reflexivity|reflexivity]
    | apply create_new_faceset_emits_if; [reflexivity|reflexivity]
    | apply add_face_to_faceset_emits_if; [reflexivity|reflexivity]
    | emits_step ]; auto.

Lemma never_reraised A prefix e (s s' : state) (a : A) :
  reraise prefix e s = (Ok a, s') -> False.
Proof. unfold reraise, raise. destruct (is_HTTPException e); discriminate. Qed.

(** X15. The gallery id [create_new_faceset] returns is "faceset_" followed
    by the first eight characters of a fresh UUID, hence never empty; and it
    is returned only after at least one create request was sent, every one of
    them naming this very id as outer id and as display name. *)
Theorem created_gallery_is_the_one_requested (self : FacePlusPlusManager)
  (s s' : state) (id : string) :
  create_new_faceset self s = (Ok id, s') ->
  (exists hex, id = ("faceset_" ++ String.substring 0 8 hex)%string)
  /\ Py.truthy (PStr id) = true
  /\ exists evs, trace s' = trace s ++ evs
                 /\ forallb (creates_gallery id) evs = true
                 /\ existsb is_post evs = true.
Proof.
  intros H. unfold create_new_faceset, try_except in H.
  match type of H with
  | context [match ?m s with _ => _ end] => destruct (m s) as [[id0|e] s1] eqn:Eb
  end; [|now apply never_reraised in H].
  inversion H; subst id0 s1; clear H.
  unfold bind at 1, uuid4 in Eb. destruct (uuid4_hex (the_world s)) as [hex w1].
  cbv zeta in Eb.
  apply bind_Ok_inv in Eb as (result & s2 & Er & Eb).
  apply bind_Ok_inv in Eb as (tok & s3 & Et & Eb).
  destruct (Py.truthy tok) eqn:Htok; [|discriminate Eb].
  unfold ret in Eb. inversion Eb; subst id s3; clear Eb.
  assert (Hres : result <> PNone /\ s' = s2).
  { destruct (Py.truthy result) eqn:Hr.
    - apply lift_run in Et as [_ ->]. split; [|reflexivity]. intros ->. discriminate Hr.
    - unfold ret in Et. inversion Et; subst. rewrite Hr in Htok. discriminate Htok. }
  destruct Hres as [Hres ->].
  split; [exists hex; reflexivity|]. split; [reflexivity|].
  set (id := ("faceset_" ++ String.substring 0 8 hex)%string) in *.
  assert (He : emits (creates_gallery id)
                 (_make_request self (create_url self)
                    (_get_base_params self ++
                     [("outer_id", PStr id); ("display_name", PStr id);
                      ("tags", PStr "face_verification")]) None "create_faceset")).
  { apply make_request_emits_if; [reflexivity|].
    unfold creates_gallery, field_is, _get_base_params. simpl.
    now rewrite !String.eqb_refl. }
  destruct (emits_run _ He Er) as (evs & E & F). simpl in E.
  exists evs. split; [exact E|]. split; [exact F|].
  apply make_request_returned_was_posted in Er as [->|(evs' & E' & I')];
    [contradiction|].
  simpl in E'. rewrite E in E'. apply app_inv_head in E'. subst evs'.
  apply existsb_exists. eexists. split; [exact I'|reflexivity].
Qed.

(** *** The paths of a verification *)

Lemma verify_face_cases (self : FaceVerification) image_data s r s' :
  verify_face self image_data s = (Ok r, s') ->
  (exists msg, r = error_response msg)
  \/ (exists face_token attributes s1 best rest,
        detect_face (fpp_manager self) image_data s = (Ok (face_token, attributes), s1)
        /\ Py.truthy face_token = true
        /\ search_similar_faces self face_token s1 = (Ok (best :: rest), s')
        /\ r = {| status := "duplicate_found";
                  message := "Potential duplicate face detected";
                  is_duplicate := true;
                  response_face_token := Some face_token;
                  response_confidence := Some (confidence best);
                  matches := Some (best :: rest) |})
  \/ (exists face_token attributes s1 s2,
        detect_face (fpp_manager self) image_data s = (Ok (face_token, attributes), s1)
        /\ Py.truthy face_token = true
        /\ search_similar_faces self face_token s1 = (Ok [], s2)
        /\ save_face_data self face_token s2 = (Ok true, s')
        /\ r = {| status := "success";
                  message := "New face registered successfully";
                  is_duplicate := false;
                  response_face_token := Some face_token;
                  response_confidence := None;
                  matches := None |}).
Proof.
  intros H. unfold verify_face, try_except in H.
  match type of H with
  | context [match ?m s with _ => _ end] => destruct (m s) as [[r0|e] s0] eqn:Eb
  end.
  2:{ unfold ret in H. inversion H. left. eauto. }
  inversion H; subst r0 s0; clear H.
  apply bind_Ok_inv in Eb as ([face_token attributes] & s1 & Ed & Eb).
  destruct (Py.truthy face_token) eqn:Ht; simpl negb in Eb; cbv iota in Eb.
  2:{ unfold ret in Eb. inversion Eb. left. eauto. }
  apply bind_Ok_inv in Eb as ([is_valid msg] & s1' & Ev & Eb).
  apply lift_run in Ev as [Ev ->].
  destruct is_valid; simpl negb in Eb; cbv iota in Eb.
  2:{ unfold ret in Eb. inversion Eb. left. eauto. }
  apply bind_Ok_inv in Eb as (found & s2 & Es & Eb).
  destruct found as [|best rest].
  - apply bind_Ok_inv in Eb as (saved & s3 & Ea & Eb).
    destruct saved; simpl negb in Eb; cbv iota in Eb; unfold ret in Eb; inversion Eb.
    + right. right. subst. exists face_token, attributes, s1, s2. auto.
    + left. eauto.
  - unfold ret in Eb. inversion Eb. subst. right. left.
    exists face_token, attributes, s1, best, rest. auto.
Qed.

(** X16. A verification that reports a duplicate has only looked: all it did
    was wait, post detect and search requests and list the stored galleries.
    It created no gallery, added no face and wrote nothing to the store. *)
Theorem duplicate_found_registers_nothing (self : FaceVerification)
  (image_data : bytes) (s s' : state) (r : VerificationResponse) :
  verify_face self image_data s = (Ok r, s') ->
  status r = "duplicate_found" ->
  exists evs, trace s' = trace s ++ evs /\ forallb lookup_traffic evs = true.
Proof.
  intros H Hs.
  apply verify_face_cases in H.
  destruct H
    as [(msg & ->)|[(tok & attrs & s1 & best & rest & Ed & _ & Ef & _)
                   |(tok & attrs & s1 & s2 & _ & _ & _ & _ & ->)]];
    try discriminate Hs.
  assert (Hd : emits lookup_traffic (detect_face (fpp_manager self) image_data))
    by (apply detect_face_emits_if; reflexivity).
  assert (Hf : emits lookup_traffic (search_similar_faces self tok))
    by (apply search_similar_faces_emits_if; reflexivity).
  destruct (emits_run _ Hd Ed) as (e1 & E1 & F1).
  destruct (emits_run _ Hf Ef) as (e2 & E2 & F2).
  exists (e1 ++ e2). rewrite E2, E1, app_assoc, forallb_app, F1, F2. auto.
Qed.

Lemma add_face_returned (self : FacePlusPlusManager) face_token outer_id s b s' :
  add_face_to_faceset self face_token outer_id s = (Ok b, s') ->
  exists evs, trace s' = trace s ++ evs
    /\ In (ev_post "add_face"
             {| url := add_url self;
                form := _get_base_params self ++
                        [("face_tokens", face_token); ("outer_id", PStr outer_id)];
                files := None |}) evs.
Proof.
  intros H. unfold add_face_to_faceset, try_except in H.
  match type of H with
  | context [match ?m s with _ => _ end] => destruct (m s) as [[b0|e] s1] eqn:Eb
  end; [|now apply never_reraised in H].
  inversion H; subst b0 s1; clear H.
  apply bind_Ok_inv in Eb as (result & s2 & Er & Eb).
  apply bind_Ok_inv in Eb as (ok & s3 & Eo & Eb).
  apply lift_run in Eo as [Eo ->].
  destruct ok; [|discriminate Eb]. unfold ret in Eb. inversion Eb; subst.
  apply make_request_returned_was_posted in Er as [->|Hp];
    [discriminate Eo|exact Hp].
Qed.

(** What [get_faceset_detail] returns holds a "face_count". *)
Lemma get_faceset_detail_has_count (self : FacePlusPlusManager) outer_id :
  returns_only (fun details => truthy_and_contains details "face_count" = Ok true)
    (get_faceset_detail self outer_id).
Proof.
  unfold get_faceset_detail.
  apply returns_only_try; [|intros; unfold reraise; repeat returns_only_step].
  apply returns_only_bind. intros r. apply returns_only_bind_lift. intros ok Hok.
  destruct ok; repeat returns_only_step. exact Hok.
Qed.

(** A registration that succeeds has added the token to a gallery at the
    provider, then recorded it in the store under that gallery's id, and in
    the end passed the gallery's face count on to the store. *)
Lemma save_face_data_registers (self : FaceVerification) face_token s b s' :
  save_face_data self face_token s = (Ok b, s') ->
  exists id count evs1 evs2,
    trace s' = trace s ++ evs1 ++ ev_save_face_token face_token id
                 :: evs2 ++ [ev_update_faceset_count id count]
    /\ In (ev_post "add_face"
             {| url := add_url (fpp_manager self);
                form := _get_base_params (fpp_manager self) ++
                        [("face_tokens", face_token); ("outer_id", PStr id)];
                files := None |}) evs1.
Proof.
  intros H. unfold save_face_data, try_except in H.
  match type of H with
  | context [match ?m s with _ => _ end] => destruct (m s) as [[b0|e] s0] eqn:Eb
  end; [|discriminate H].
  inversion H; subst b0 s0; clear H.
  apply bind_Ok_inv in Eb as (faceset_info & s1 & E1 & Eb).
  apply bind_Ok_inv in Eb as (candidate & s2 & E2 & Eb).
  cbv zeta in Eb.
  apply bind_Ok_inv in Eb as (id & s3 & E3 & Eb).
  apply bind_Ok_inv in Eb as (added & s4 & E4 & Eb).
  apply bind_Ok_inv in Eb as (x & s5 & E5 & Eb).
  apply bind_Ok_inv in Eb as (saved & s6 & E6 & Eb).
  apply bind_Ok_inv in Eb as (y & s7 & E7 & Eb).
  apply bind_Ok_inv in Eb as (details & s8 & E8 & Eb).
  apply bind_Ok_inv in Eb as (has_count & s9 & E9 & Eb).
  apply bind_Ok_inv in Eb as (z & s10 & E10 & Eb).
  unfold ret in Eb. inversion Eb; subst b s10; clear Eb.
  apply lift_run in E9 as [E9 ->].
  rewrite (get_faceset_detail_has_count _ _ _ E8) in E9. apply Ok_inj in E9.
  subst has_count.
  apply bind_Ok_inv in E10 as (count & s11 & Ec & E10). apply lift_run in Ec as [_ ->].
  apply bind_Ok_inv in E10 as (u & s12 & Eu & E10).
  unfold ret in E10. inversion E10; subst s12; clear E10.
  eapply emits_run with (P := fun _ => true) in E1 as (e1 & T1 & _); [|any_traffic].
  eapply emits_run with (P := fun _ => true) in E2 as (e2 & T2 & _); [|any_traffic].
  eapply emits_run with (P := fun _ => true) in E3 as (e3 & T3 & _); [|any_traffic].
  apply add_face_returned in E4 as (e4 & T4 & I4).
  eapply emits_run with (P := fun _ => true) in E5 as (e5 & T5 & _); [|any_traffic].
  eapply emits_run with (P := fun _ => true) in E7 as (e7 & T7 & _); [|any_traffic].
  eapply emits_run with (P := fun _ => true) in E8 as (e8 & T8 & _); [|any_traffic].
  assert (T6 : trace s6 = trace s5 ++ [ev_save_face_token face_token id]).
  { unfold call in E6. destruct (save_face_token face_token id (the_world s5)).
    inversion E6; subst. reflexivity. }
  assert (T9 : trace s' = trace s8 ++ [ev_update_faceset_count id count]).
  { unfold call in Eu. destruct (update_faceset_count id count (the_world s8)).
    inversion Eu; subst. reflexivity. }
  exists id, count, (e1 ++ e2 ++ e3 ++ e4 ++ e5), (e7 ++ e8). split.
  - rewrite T9, T8, T7, T6, T5, T4, T3, T2, T1, <- !app_assoc. reflexivity.
  - apply in_or_app. right. apply in_or_app. right. apply in_or_app. right.
    apply in_or_app. now left.
Qed.

(** X17. A verification reports success only after the face was registered:
    an add request carrying the detected token and a gallery id was posted to
    the provider, afterwards the token was saved to the store under the same
    gallery id, and the last thing done was to pass that gallery's face count
    on to the store.  The token in the response is that token. *)
Theorem success_means_registered (self : FaceVerification)
  (image_data : bytes) (s s' : state) (r : VerificationResponse) :
  verify_face self image_data s = (Ok r, s') ->
  status r = "success" ->
  exists face_token id count evs1 evs2,
    response_face_token r = Some face_token
    /\ trace s' = trace s ++ evs1 ++ ev_save_face_token face_token id
                    :: evs2 ++ [ev_update_faceset_count id count]
    /\ In (ev_post "add_face"
             {| url := add_url (fpp_manager self);
                form := _get_base_params (fpp_manager self) ++
                        [("face_tokens", face_token); ("outer_id", PStr id)];
                files := None |}) evs1.
Proof.
  intros H Hs. apply verify_face_cases in H.
  destruct H
    as [(msg & ->)|[(tok & attrs & s1 & best & rest & _ & _ & _ & ->)
                   |(tok & attrs & s1 & s2 & Ed & _ & Ef & Ea & ->)]];
    try discriminate Hs.
  assert (Hd : emits (fun _ => true) (detect_face (fpp_manager self) image_data))
    by (apply detect_face_emits_if; reflexivity).
  assert (Hf : emits (fun _ => true) (search_similar_faces self tok))
    by (apply search_similar_faces_emits_if; reflexivity).
  destruct (emits_run _ Hd Ed) as (e1 & E1 & _).
  destruct (emits_run _ Hf Ef) as (e2 & E2 & _).
  apply save_face_data_registers in Ea as (id & count & evs1 & evs2 & E3 & I3).
  exists tok, id, count, (e1 ++ e2 ++ evs1), evs2. split; [reflexivity|]. split.
  - rewrite E3, E2, E1, <- !app_assoc. reflexivity.
  - apply in_or_app. right. apply in_or_app. now right.
Qed.

(** *** The response *)

Lemma search_similar_returns (self : FaceVerification) face_token :
  returns_only
    (fun found =>
       Forall (fun m => above_threshold self m = true) found
       /\ StronglySorted
            (fun a b => PrimFloat.leb (confidence b) (confidence a) = true) found)
    (search_similar_faces self face_token).
Proof.
  intros s found s' H. unfold search_similar_faces, try_except in H.
  match type of H with
  | context [match ?m s with _ => _ end] => destruct (m s) as [[ms|e] s1] eqn:E
  end; [|discriminate H].
  inversion H; subst found s1. clear H.
  apply bind_Ok_inv in E as (facesets & s0 & _ & E).
  apply bind_Ok_inv in E as (gathered & s2 & E & R).
  inversion R; subst ms s2. clear R.
  rewrite search_facesets_gathers in E. inversion E as [[Eg Es]]. clear E Es.
  simpl.
  set (l := flat_map _ _).
  assert (Hl : Forall (fun m => above_threshold self m = true) l).
  { apply Forall_flat_map. apply Forall_forall. intros o _.
    apply gathered_from_above. }
  split.
  - apply (Permutation_Forall (Permutation_sym (sorted_reverse_perm confidence l))).
    exact Hl.
  - apply sorted_reverse_descending.
    eapply Forall_impl; [|exact Hl]. intros m Hm.
    eapply leb_comparable_r. exact Hm.
Qed.

(** X18. The fields of a response agree with its status.  A response is
    flagged as a duplicate exactly when its status is "duplicate_found"; it
    then lists at least one match, all at or above the threshold, and the
    confidence it reports is that of the first match, which no other match
    exceeds.  Any other response carries neither matches nor a confidence, and
    a token is reported exactly when the status is not "error". *)
Theorem response_fields_agree_with_status (self : FaceVerification)
  (image_data : bytes) (s s' : state) (r : VerificationResponse) :
  verify_face self image_data s = (Ok r, s') ->
  (is_duplicate r = true <-> status r = "duplicate_found")
  /\ (status r = "duplicate_found" ->
      exists best rest,
        matches r = Some (best :: rest)
        /\ response_confidence r = Some (confidence best)
        /\ Forall (fun m => PrimFloat.leb (confidence_threshold self) (confidence m) = true
                            /\ PrimFloat.leb (confidence m) (confidence best) = true)
             (best :: rest))
  /\ (status r <> "duplicate_found" -> matches r = None /\ response_confidence r = None)
  /\ (status r = "error" <-> response_face_token r = None).
Proof.
  intros H. apply verify_face_cases in H.
  destruct H as [(msg & ->)|[(tok & attrs & s1 & best & rest & _ & _ & Ef & ->)
                            |(tok & attrs & s1 & s2 & _ & _ & _ & _ & ->)]]; simpl.
  - repeat split; try discriminate; auto.
  - apply search_similar_returns in Ef as [Ha Hs].
    split; [tauto|]. split; [|split; [tauto|split; discriminate]].
    intros _. exists best, rest. split; [reflexivity|]. split; [reflexivity|].
    inversion Hs as [|? ? Hs' Hb]; subst.
    inversion Ha as [|? ? Hab Har]; subst. unfold above_threshold in *.
    constructor.
    + split; [exact Hab|]. eapply leb_comparable_r. exact Hab.
    + apply Forall_forall. intros m Hm. rewrite Forall_forall in Har, Hb. auto.
  - repeat split; try discriminate; auto.
Qed.

(** *** Requests per call *)

Lemma posts_at_most_le A (m : M A) (n n' : nat) :
  (n <= n')%nat -> posts_at_most n m -> posts_at_most n' m.
Proof.
  intros Hle Hm s. destruct (Hm s) as (evs & E & L). exists evs. split; [exact E|lia].
Qed.

Lemma silent_posts A (m : M A) :
  emits (fun ev => negb (is_post ev)) m -> posts_at_most 0 m.
Proof.
  intros Hm s. destruct (Hm s) as (evs & E & F). exists evs. split; [exact E|].
  clear E. induction evs as [|ev evs IH]; simpl in *; [lia|].
  apply andb_true_iff in F as [F1 F2]. apply negb_true_iff in F1. rewrite F1. auto.
Qed.

Lemma make_request_posts (self : FacePlusPlusManager) u data fs operation :
  posts_at_most (max_retries self) (_make_request self u data fs operation).
Proof.
  pose proof (attempts_from_posts self (seq 0 (max_retries self)) u data fs operation)
    as H.
  rewrite length_seq in H. exact H.
Qed.

(** An operation: one request, then a conclusion drawn without any. *)
Lemma operation_posts A (self : FacePlusPlusManager) u data fs operation
  (k : pyval -> M A) (h : exn -> M A) :
  (forall r, emits (fun ev => negb (is_post ev)) (k r)) ->
  (forall e, emits (fun ev => negb (is_post ev)) (h e)) ->
  posts_at_most (max_retries self)
    (try_except (bind (_make_request self u data fs operation) k) h).
Proof.
  intros Hk Hh. apply posts_at_most_le with (n := (max_retries self + 0 + 0)%nat); [lia|].
  apply posts_at_most_try; [|intros; now apply silent_posts].
  apply posts_at_most_bind; [apply make_request_posts|intros; now apply silent_posts].
Qed.

Lemma get_faceset_detail_posts (self : FacePlusPlusManager) outer_id :
  posts_at_most (max_retries self) (get_faceset_detail self outer_id).
Proof.
  unfold get_faceset_detail, reraise. apply operation_posts; intros; repeat emits_step.
Qed.

Lemma add_face_to_faceset_posts (self : FacePlusPlusManager) face_token outer_id :
  posts_at_most (max_retries self) (add_face_to_faceset self face_token outer_id).
Proof.
  unfold add_face_to_faceset, reraise. apply operation_posts; intros; repeat emits_step.
Qed.

Lemma search_faces_posts (self : FacePlusPlusManager) face_token outer_id n :
  posts_at_most (max_retries self) (search_faces self face_token outer_id n).
Proof.
  unfold search_faces, reraise. apply operation_posts; intros; repeat emits_step.
Qed.

Lemma detect_face_posts (self : FacePlusPlusManager) image_data :
  posts_at_most (max_retries self) (detect_face self image_data).
Proof.
  unfold detect_face. apply operation_posts; intros; repeat emits_step.
Qed.

Lemma create_new_faceset_posts (self : FacePlusPlusManager) :
  posts_at_most (max_retries self) (create_new_faceset self).
Proof.
  unfold create_new_faceset, reraise.
  apply posts_at_most_le with (n := (0 + (max_retries self + 0) + 0)%nat); [lia|].
  apply posts_at_most_try;
    [|intros; apply silent_posts; repeat emits_step].
  apply posts_at_most_bind; [apply silent_posts, emits_uuid4|intros hex].
  apply posts_at_most_bind; [apply make_request_posts|].
  intros; apply silent_posts; repeat emits_step.
Qed.

(** X19. Requests per call: detecting a face takes at most [max_retries]
    requests (3 for the manager [__init__] builds), and a registration at most
    four times as many: the candidate's details, a new gallery, the addition
    and the details again. *)
Theorem requests_per_call_are_bounded (self : FaceVerification)
  (image_data : bytes) (face_token : pyval) :
  posts_at_most (max_retries (fpp_manager self))
    (detect_face (fpp_manager self) image_data)
  /\ posts_at_most (4 * max_retries (fpp_manager self)) (save_face_data self face_token).
Proof.
  split; [apply detect_face_posts|].
  set (n := max_retries (fpp_manager self)).
  unfold save_face_data.
  apply posts_at_most_le with (n := (0 + (n + (n + (n + (0 + (0 + (0 + n)))))) + 0)%nat);
    [lia|].
  apply posts_at_most_try; [|intros; apply silent_posts; repeat emits_step].
  apply posts_at_most_bind; [apply silent_posts; now apply emits_call|].
  intros faceset_info. apply posts_at_most_bind.
  { destruct faceset_info as [[faceset_id count]|];
      [|apply posts_at_most_le with (n := 0%nat); [lia|];
        apply silent_posts; repeat emits_step].
    apply posts_at_most_le with (n := (n + 0)%nat); [lia|].
    apply posts_at_most_bind; [apply get_faceset_detail_posts|].
    intros; apply silent_posts; repeat emits_step. }
  intros candidate. cbv zeta. apply posts_at_most_bind.
  { assert (Hc : posts_at_most n
                   (faceset_id <- create_new_faceset (fpp_manager self) ;;
                    if negb (Py.truthy (PStr faceset_id))
                    then raise (HTTPException 500
                                  "Failed to create new FaceSet in Face++ API")
                    else ret faceset_id)).
    { apply posts_at_most_le with (n := (n + 0)%nat); [lia|].
      apply posts_at_most_bind; [apply create_new_faceset_posts|].
      intros; apply silent_posts; repeat emits_step. }
    destruct candidate as [faceset_id|]; [|exact Hc].
    destruct (negb _); [exact Hc|].
    apply posts_at_most_le with (n := 0%nat); [lia|]. apply silent_posts, emits_ret. }
  intros faceset_id. apply posts_at_most_bind; [apply add_face_to_faceset_posts|].
  intros added. apply posts_at_most_bind; [apply silent_posts; repeat emits_step|].
  intros _. apply posts_at_most_bind; [apply silent_posts; now apply emits_call|].
  intros saved. apply posts_at_most_bind; [apply silent_posts; repeat emits_step|].
  intros _. apply posts_at_most_le with (n := (n + 0)%nat); [lia|].
  apply posts_at_most_bind; [apply get_faceset_detail_posts|].
  intros; apply silent_posts; repeat emits_step; reflexivity.
Qed.

Lemma search_facesets_posts (self : FaceVerification) face_token facesets acc :
  posts_at_most (max_retries (fpp_manager self) * List.length (filter searched facesets))
    (search_facesets self face_token facesets acc).
Proof.
  revert acc. induction facesets as [|[faceset_id stored] rest IH]; intros acc; simpl.
  - apply posts_at_most_le with (n := 0%nat); [lia|]. apply silent_posts, emits_ret.
  - destruct stored as [|t stored]; simpl.
    + apply posts_at_most_le
        with (n := (0 + max_retries (fpp_manager self)
                        * List.length (filter searched rest))%nat); [lia|].
      apply posts_at_most_bind; [apply silent_posts, emits_ret|intros; apply IH].
    + apply posts_at_most_le
        with (n := (max_retries (fpp_manager self)
                    + max_retries (fpp_manager self)
                      * List.length (filter searched rest))%nat); [lia|].
      apply posts_at_most_bind; [|intros; apply IH].
      intros s.
      destruct (search_faces_posts (fpp_manager self) face_token faceset_id 5 s)
        as (evs & E & L).
      destruct (search_faces (fpp_manager self) face_token faceset_id 5 s)
        as [[results|e] s1]; simpl in *.
      * exists evs. destruct (Py.iter results); auto.
      * exists evs. auto.
Qed.

(** X20. The duplicate search posts no request for a gallery without stored
    tokens and at most [max_retries] for each other gallery the store lists
    (and none at all when the listing fails). *)
Theorem search_requests_are_bounded (self : FaceVerification) (face_token : pyval)
  (s : state) :
  exists evs,
    trace (snd (search_similar_faces self face_token s)) = trace s ++ evs
    /\ (List.length (filter is_post evs)
        <= max_retries (fpp_manager self)
           * match fst (call ev_get_all_stored_faces get_all_stored_faces s) with
             | Ok facesets => List.length (filter searched facesets)
             | Raise _ => 0
             end)%nat.
Proof.
  unfold search_similar_faces, try_except, bind.
  destruct (call ev_get_all_stored_faces get_all_stored_faces s) as [[facesets|e] s0] eqn:Ec.
  - destruct (search_facesets_posts self face_token facesets [] s0) as (evs & E & L).
    destruct (search_facesets self face_token facesets [] s0) as [[found|e] s1];
      simpl in *.
    + exists (ev_get_all_stored_faces :: evs). split; [|simpl; exact L].
      unfold call in Ec. destruct (get_all_stored_faces (the_world s)).
      inversion Ec; subst. simpl in E. rewrite E, <- app_assoc. reflexivity.
    + exists (ev_get_all_stored_faces :: evs). split; [|simpl; exact L].
      unfold call in Ec. destruct (get_all_stored_faces (the_world s)).
      inversion Ec; subst. simpl in E. rewrite E, <- app_assoc. reflexivity.
  - simpl. exists [ev_get_all_stored_faces]. split; [|simpl; lia].
    unfold call in Ec. destruct (get_all_stored_faces (the_world s)).
    inversion Ec; subst. reflexivity.
Qed.

End Engine_outcomes.

(** ** Ties in the order of matches *)



Section Stable.
Variable A : Type.
Variable key : A -> float.
Variable c : float.

Let asc (a b : A) : Prop := PrimFloat.leb (key a) (key b) = true.





End Stable.

Section Engine_ties.
Context {rt : PyRuntime} {pil : Pillow} {W : World}.


(** X22. Every request [detect_face] posts uploads the normalized image (the
    output of [resize_image_if_needed] with the default budget and bound, not
    the caller's bytes) and asks for gender, age, ethnicity and face
    quality. *)
Theorem detect_uploads_the_normalized_image (self : FacePlusPlusManager)
  (image_data : bytes) :
  emits (detect_request (resize_image_if_needed image_data 2 2048))
    (detect_face self image_data).
Proof.
  unfold detect_face.
  apply emits_try; [|intros; apply emits_ret].
  apply emits_bind; [|intros; repeat emits_step].
  apply make_request_emits_if; [reflexivity|].
  unfold detect_request, field_is, _get_base_params, detect_params. simpl.
  destruct (list_eq_dec _ _ _); [reflexivity|contradiction].
Qed.

End Engine_ties.

(** ** Replies *)

Section Engine_replies.
Context {rt : PyRuntime} {pil : Pillow} {W : World}.

(** X23. A reply of status 200 whose body is an object without
    "error_message" is returned at once: one request, no wait after it, and
    the body handed back as it came (an empty object included). *)
Theorem good_reply_is_returned_at_once (self : FacePlusPlusManager) (u : string)
  (data : list (string * pyval)) (fs : option bytes) (operation : string)
  (s : state) (resp : response) (w' : world) (kv : list (string * pyval)) :
  let req := {| url := u; form := data; files := fs |} in
  let s0 := snd (_handle_rate_limit self s) in
  (0 < max_retries self)%nat ->
  requests_post req (the_world s0) = (Ok resp, w') ->
  status_code resp = 200 ->
  json resp = Some (PDict kv) ->
  Py.lookup "error_message" kv = None ->
  exists s1,
    _make_request self u data fs operation s = (Ok (PDict kv), s1)
    /\ trace s1 = trace s0 ++ [ev_post operation req]
    /\ the_world s1 = w'.
Proof.
  intros req s0 Hn Hpost Hcode Hjson Hmsg.
  assert (Hbody : forall attempt,
            attempt_body self u data fs operation attempt s
            = (Ok (Return (PDict kv)), log_event (ev_post operation req) (set_world w' s0))).
  { intros attempt. unfold attempt_body, try_except, bind at 1.
    rewrite handle_rate_limit_returns. fold s0.
    unfold bind at 1. unfold post, call at 1. fold req. rewrite Hpost.
    unfold response_json, rate_limited. rewrite Hjson. simpl.
    unfold bind, lift. simpl. rewrite Hmsg, Hcode. reflexivity. }
  unfold _make_request. destruct (max_retries self) as [|k]; [lia|].
  change (seq 0 (S k)) with (0%nat :: seq 1 k). cbn [attempts_from].
  unfold bind at 1. rewrite Hbody.
  eexists. split; [reflexivity|]. split; reflexivity.
Qed.

(** X24. A reply whose JSON body is null, a boolean or a number makes
    [_make_request] raise [TypeError] at once, whatever the status code and
    the attempt: the test ['error_message' in result] fails on it, and neither
    of the two handlers catches the error.  One request was posted, none is
    retried. *)
Theorem scalar_body_raises_TypeError (self : FacePlusPlusManager) (u : string)
  (data : list (string * pyval)) (fs : option bytes) (operation : string)
  (s : state) (resp : response) (w' : world) (v : pyval) :
  let req := {| url := u; form := data; files := fs |} in
  let s0 := snd (_handle_rate_limit self s) in
  (0 < max_retries self)%nat ->
  requests_post req (the_world s0) = (Ok resp, w') ->
  json resp = Some v ->
  is_scalar v = true ->
  exists s1,
    _make_request self u data fs operation s = (Raise TypeError, s1)
    /\ trace s1 = trace s0 ++ [ev_post operation req].
Proof.
  intros req s0 Hn Hpost Hjson Hv.
  assert (Hbody : forall attempt,
            attempt_body self u data fs operation attempt s
            = (Raise TypeError, log_event (ev_post operation req) (set_world w' s0))).
  { intros attempt. unfold attempt_body, try_except, bind at 1.
    rewrite handle_rate_limit_returns. fold s0.
    unfold bind at 1. unfold post, call at 1. fold req. rewrite Hpost.
    unfold response_json, rate_limited. rewrite Hjson.
    destruct v; try discriminate Hv; reflexivity. }
  unfold _make_request. destruct (max_retries self) as [|k]; [lia|].
  change (seq 0 (S k)) with (0%nat :: seq 1 k). cbn [attempts_from].
  unfold bind at 1. rewrite Hbody.
  eexists. split; reflexivity.
Qed.

Ltac registers_into_holds :=
  intros; unfold registers_into, field_is, _get_base_params;
  simpl; rewrite ?String.eqb_refl; reflexivity.

(** X25. When the store offers a gallery (with a non-empty id) and the
    registration succeeds, everything was done for that gallery: the detail
    and add requests name it, the token is saved under it, its count is
    updated, and no gallery is created. *)
Theorem offered_gallery_is_reused (self : FaceVerification) (face_token : pyval)
  (s s1 s' : state) (b : bool) (faceset_id : string) (count : Z) :
  call ev_find_available_faceset find_available_faceset s
  = (Ok (Some (faceset_id, count)), s1) ->
  faceset_id <> "" ->
  save_face_data self face_token s = (Ok b, s') ->
  exists evs, trace s' = trace s ++ evs
              /\ forallb (registers_into faceset_id) evs = true
              /\ In (ev_save_face_token face_token faceset_id) evs.
Proof.
  intros Hfind Hid H. unfold save_face_data, try_except in H.
  match type of H with
  | context [match ?m s with _ => _ end] => destruct (m s) as [[b0|e] s0] eqn:Eb
  end; [|discriminate H].
  inversion H; subst b0 s0; clear H.
  apply bind_Ok_inv in Eb as (faceset_info & s1' & E1 & Eb).
  rewrite Hfind in E1. inversion E1; subst faceset_info s1'; clear E1.
  apply bind_Ok_inv in Eb as (candidate & s2 & E2 & Eb).
  cbv zeta in Eb.
  apply bind_Ok_inv in Eb as (id & s3 & E3 & Eb).
  assert (Hc : candidate = Some faceset_id
               /\ exists e2, trace s2 = trace s1 ++ e2
                             /\ forallb (registers_into faceset_id) e2 = true).
  { apply bind_Ok_inv in E2 as (details & s2' & Ed & E2).
    pose proof (get_faceset_detail_never_stale _ _ _ Ed) as [Ht Hc].
    apply bind_Ok_inv in E2 as (stale & s2'' & Es & E2).
    rewrite Ht in Es. simpl negb in Es. cbv iota in Es.
    apply lift_run in Es as [Es ->]. rewrite Hc in Es. apply Ok_inj in Es. subst stale.
    unfold ret in E2. inversion E2; subst. split; [reflexivity|].
    eapply emits_run in Ed; [exact Ed|].
    apply get_faceset_detail_emits_if; registers_into_holds. }
  destruct Hc as (-> & e2 & T2 & F2).
  assert (Hi : id = faceset_id /\ s3 = s2).
  { destruct (String.eqb faceset_id "") eqn:En;
      [apply String.eqb_eq in En; contradiction|].
    simpl in E3. rewrite En in E3. simpl in E3. unfold ret in E3.
    now inversion E3. }
  destruct Hi as [-> ->].
  apply bind_Ok_inv in Eb as (added & s4 & E4 & Eb).
  apply bind_Ok_inv in Eb as (x & s5 & E5 & Eb).
  apply bind_Ok_inv in Eb as (saved & s6 & E6 & Eb).
  apply bind_Ok_inv in Eb as (y & s7 & E7 & Eb).
  apply bind_Ok_inv in Eb as (details & s8 & E8 & Eb).
  eapply emits_run with (P := registers_into faceset_id) in E4 as (e4 & T4 & F4);
    [|apply add_face_to_faceset_emits_if; registers_into_holds].
  eapply emits_run with (P := registers_into faceset_id) in E5 as (e5 & T5 & F5);
    [|repeat emits_step].
  eapply emits_run with (P := registers_into faceset_id) in E7 as (e7 & T7 & F7);
    [|repeat emits_step].
  eapply emits_run with (P := registers_into faceset_id) in E8 as (e8 & T8 & F8);
    [|apply get_faceset_detail_emits_if; registers_into_holds].
  eapply emits_run with (P := registers_into faceset_id) in Eb as (e9 & T9 & F9);
    [|repeat emits_step; registers_into_holds].
  assert (T6 : trace s6 = trace s5 ++ [ev_save_face_token face_token faceset_id]).
  { unfold call in E6. destruct (save_face_token face_token faceset_id (the_world s5)).
    inversion E6; subst. reflexivity. }
  assert (T1 : trace s1 = trace s ++ [ev_find_available_faceset]).
  { unfold call in Hfind. destruct (find_available_faceset (the_world s)).
    inversion Hfind; subst. reflexivity. }
  exists ([ev_find_available_faceset] ++ e2 ++ e4 ++ e5
          ++ [ev_save_face_token face_token faceset_id] ++ e7 ++ e8 ++ e9).
  split; [|split].
  - rewrite T9, T8, T7, T6, T5, T4, T2, T1, <- !app_assoc. reflexivity.
  - rewrite !forallb_app, F2, F4, F5, F7, F8, F9. simpl.
    now rewrite String.eqb_refl.
  - apply in_or_app. right. apply in_or_app. right. apply in_or_app. right.
    apply in_or_app. right. apply in_or_app. left. now left.
Qed.

End Engine_replies.

Module Examples.
Import Fixture.

#[local] Existing Instance runtime.
#[local] Existing Instance scripted.
#[local] Existing Instance small_image.



Lemma search_returns_sorted_above_threshold_witness :
  let found := [{| confidence := 97.75; face_token := PStr "t9" |};
                {| confidence := 91.5; face_token := PStr "t7" |}] in
  Forall (fun m => PrimFloat.leb (confidence_threshold verifier) (confidence m) = true)
    found
  /\ StronglySorted (fun a b => PrimFloat.leb (confidence b) (confidence a) = true)
       found.
Proof.
  intros found.
  assert (H : search_similar_faces verifier (PStr "tokB") (start three_galleries)
              = (Ok found,
                 snd (search_similar_faces verifier (PStr "tokB")
                        (start three_galleries)))).
  { vm_compute. reflexivity. }
  eapply search_returns_sorted_above_threshold. exact H.
Defined.

Lemma retry_policy_witness :
  let s := start (empty_store [busy]) in
  let s' := start (empty_store
                     [reply 400 [("error_message", PStr "INVALID_FACE_TOKEN")]]) in
  (exists s1,
     attempt_body manager "https://fpp/search" [] None "search_faces" 0 s
     = (Ok Continue, s1)
     /\ trace s1 = trace (snd (_handle_rate_limit manager s))
                   ++ [ev_post "search_faces" search_request; ev_sleep (PInt (2 * (0 + 1)))]
     /\ attempts_from manager [0%nat; 1%nat; 2%nat] "https://fpp/search" [] None
          "search_faces" s
        = attempts_from manager [1%nat; 2%nat] "https://fpp/search" [] None
            "search_faces" s1)
  /\ (exists s1,
        attempts_from manager [0%nat; 1%nat; 2%nat] "https://fpp/search" [] None
          "search_faces" s'
        = (Raise (HTTPException 400
                    ("search_faces failed: "
                     ++ json_dumps (PDict [("error_message", PStr "INVALID_FACE_TOKEN")]))),
           s1)
        /\ trace s1 = trace (snd (_handle_rate_limit manager s'))
                      ++ [ev_post "search_faces" search_request]).
Proof.
  intros s s'.
  pose proof (proj2 (retry_policy manager "https://fpp/search" [] None "search_faces"))
    as H.
  split.
  - assert (Hp : requests_post search_request
                   (the_world (snd (_handle_rate_limit manager s)))
                 = (Ok {| status_code := 403;
                          json := Some (PDict [("error_message",
                                                PStr "CONCURRENCY_LIMIT_EXCEEDED")]) |},
                    snd (requests_post search_request
                           (the_world (snd (_handle_rate_limit manager s)))))).
    { vm_compute. reflexivity. }
    exact (proj1 (H 0%nat [1%nat; 2%nat] s _ _ _ _ Hp eq_refl eq_refl) eq_refl eq_refl).
  - assert (Hp : requests_post search_request
                   (the_world (snd (_handle_rate_limit manager s')))
                 = (Ok {| status_code := 400;
                          json := Some (PDict [("error_message",
                                                PStr "INVALID_FACE_TOKEN")]) |},
                    snd (requests_post search_request
                           (the_world (snd (_handle_rate_limit manager s')))))).
    { vm_compute. reflexivity. }
    exact (proj2 (H 0%nat [1%nat; 2%nat] s' _ _ _ _ Hp eq_refl eq_refl)
             (or_introl eq_refl)).
Defined.

(** An error reported inside an HTTP 200 reply is raised with status 400, not
    with the reply's status code. *)
Lemma error_in_200_reply_raised_as_400 :
  let s := start (empty_store [reply 200 [("error_message", PStr "BAD_ARGUMENTS")]]) in
  fst (requests_post search_request (the_world s))
  = Ok {| status_code := 200;
          json := Some (PDict [("error_message", PStr "BAD_ARGUMENTS")]) |}
  /\ fst (_make_request manager "https://fpp/search" [] None "search_faces" s)
     = Raise (HTTPException 400 "search_faces failed: BAD_ARGUMENTS").
Proof. vm_compute. split; reflexivity. Qed.



Lemma deep_grey_falls_back (image_data : bytes) :
  @resize_run deep_grey_pillow image_data 2 2048
  = (Raise (OSError "cannot write mode as JPEG"), [(2048, 1536, 90)])
  /\ @resize_image_if_needed deep_grey_pillow image_data 2 2048 = image_data.
Proof. vm_compute. split; reflexivity. Qed.

(** A 16-bit greyscale image of three megabytes decodes, the first encoding
    raises, and the caller gets its own bytes back: over the 2 MB budget, and
    not out of the last-resort step. *)
Lemma unwritable_image_returned_over_budget :
  is_ok (@Image_open deep_grey_pillow three_megabytes) = true
  /\ @resize_image_if_needed deep_grey_pillow three_megabytes 2 2048 = three_megabytes
  /\ budget 2 < Z.of_nat (List.length three_megabytes)
  /\ fst (@resize_run deep_grey_pillow three_megabytes 2 2048)
     = Raise (OSError "cannot write mode as JPEG").
Proof.
  split; [reflexivity|]. split; [apply deep_grey_falls_back|]. split.
  - unfold three_megabytes. rewrite repeat_length, N_nat_Z. reflexivity.
  - now rewrite (proj1 (deep_grey_falls_back three_megabytes)).
Qed.

(** C3. The provider rejects the detect request (HTTP 401 with an
    "error_message"), or cannot be reached at all: [_make_request] raises the
    error under the operation's name, [detect_face] answers [(None, None)], and
    [verify_face] reports "No face detected in image". *)
Theorem detect_error_reported_as_no_face :
  let rejected :=
    start (empty_store [reply 401 [("error_message", PStr "AUTHENTICATION_ERROR")]]) in
  let unreachable := start (empty_store []) in
  let request s :=
    fst (_make_request manager (detect_url manager)
           (_get_base_params manager ++ detect_params)
           (Some (resize_image_if_needed [] 2 2048)) "detect_face" s) in
  request rejected = Raise (HTTPException 401 "detect_face failed: <json>")
  /\ request unreachable
     = Raise (HTTPException 503 "API request failed in detect_face: connection refused")
  /\ fst (detect_face manager [] rejected) = Ok (PNone, PNone)
  /\ fst (detect_face manager [] unreachable) = Ok (PNone, PNone)
  /\ fst (verify_face verifier [] rejected)
     = Ok (error_response "No face detected in image")
  /\ fst (verify_face verifier [] unreachable)
     = Ok (error_response "No face detected in image").
Proof. vm_compute. repeat split; reflexivity. Qed.

(** C9. With a stale candidate, [save_face_data] raises: the failed detail
    request ends the registration, no gallery is created (the three replies
    that would have served a fresh registration are never asked for). *)
Theorem stale_candidate_aborts_registration :
  let r := save_face_data verifier (PStr "tokA") (start stale_world) in
  fst r = Raise (HTTPException 500
                   "Error saving face data: get_faceset_detail failed: <json>")
  /\ existsb is_create_request (trace (snd r)) = false
  /\ List.length (replies (the_world (snd r))) = 3%nat.
Proof. vm_compute. repeat split; reflexivity. Qed.


(** ** The further properties at work *)

Lemma last_resort_is_over_budget_witness :
  @resize_image_if_needed small_image [] 0 2048 = out_bytes small_last_resort
  /\ budget 0 < Z.of_nat (List.length (out_bytes small_last_resort)).
Proof.
  apply (@last_resort_is_over_budget small_image [] 0 2048 small_last_resort).
  - vm_compute. reflexivity.
  - reflexivity.
Defined.

Lemma transparent_image_is_encoded_as_RGB_witness :
  mode (out_image rgba_encoded)
  = (if has_transparency rgba_decoded then "RGB" else mode rgba_decoded).
Proof.
  apply (@transparent_image_is_encoded_as_RGB rgba_pillow [] 2 2048
           rgba_decoded rgba_encoded).
  - reflexivity.
  - vm_compute. reflexivity.
Defined.


Lemma side_of_47_stays_below_provider_minimum_witness :
  Z.min (width (out_image strip_encoded)) (height (out_image strip_encoded)) = 47
  /\ forall s, out_rung strip_encoded <> scale_rung s.
Proof.
  apply (@side_of_47_stays_below_provider_minimum strip_pillow [] 2
           strip_decoded strip_encoded).
  - reflexivity.
  - vm_compute. discriminate.
  - vm_compute. discriminate.
  - reflexivity.
  - vm_compute. reflexivity.
Defined.

Lemma image_within_bounds_is_encoded_once_witness :
  @resize_run small_image [] 2 2048
  = (Ok (Some {| out_bytes := repeat Byte.x00 4; out_image := small_decoded;
                 out_rung := quality_rung 90 |}),
     [(width small_decoded, height small_decoded, 90)])
  /\ @resize_image_if_needed small_image [] 2 2048 = repeat Byte.x00 4.
Proof.
  apply (@image_within_bounds_is_encoded_once small_image [] 2 2048 small_decoded
           (repeat Byte.x00 4)).
  - reflexivity.
  - reflexivity.
  - vm_compute. discriminate.
  - vm_compute. discriminate.
  - vm_compute. discriminate.
  - reflexivity.
  - vm_compute. discriminate.
Defined.

Lemma unreadable_entry_ends_the_gallery_witness :
  gathered_from verifier
    (Ok (PList ([search_entry 91.5 "t7"; search_entry 80.25 "t8"]
                ++ PStr "unavailable" :: [search_entry 97.75 "t9"])))
  = filter (above_threshold verifier)
      [{| confidence := 91.5; face_token := PStr "t7" |};
       {| confidence := 80.25; face_token := PStr "t8" |}].
Proof.
  apply (@unreadable_entry_ends_the_gallery runtime verifier
           [search_entry 91.5 "t7"; search_entry 80.25 "t8"]
           [search_entry 97.75 "t9"]
           [{| confidence := 91.5; face_token := PStr "t7" |};
            {| confidence := 80.25; face_token := PStr "t8" |}]
           (PStr "unavailable") AttributeError).
  - repeat constructor.
  - reflexivity.
Defined.

Lemma search_reports_every_gathered_match_witness :
  exists found,
    fst (search_similar_faces verifier (PStr "tokB") (start three_galleries)) = Ok found
    /\ Permutation found
         (flat_map (gathered_from verifier)
            (fst (gallery_searches verifier (PStr "tokB")
                    [("fs_empty", []); ("fs_gone", ["t1"]);
                     ("fs_live", ["t7"; "t8"; "t9"])]
                    (snd (call ev_get_all_stored_faces get_all_stored_faces
                            (start three_galleries)))))).
Proof.
  assert (Hdb : call ev_get_all_stored_faces get_all_stored_faces (start three_galleries)
                = (Ok [("fs_empty", []); ("fs_gone", ["t1"]);
                       ("fs_live", ["t7"; "t8"; "t9"])],
                   snd (call ev_get_all_stored_faces get_all_stored_faces
                          (start three_galleries)))).
  { vm_compute. reflexivity. }
  exact (search_reports_every_gathered_match verifier (PStr "tokB")
           (start three_galleries) Hdb).
Defined.


Lemma created_gallery_is_the_one_requested_witness :
  (exists hex, "faceset_01234567" = ("faceset_" ++ String.substring 0 8 hex)%string)
  /\ Py.truthy (PStr "faceset_01234567") = true
  /\ exists evs,
       trace (snd (create_new_faceset manager
                     (start (empty_store [reply 200 [("faceset_token", PStr "fs1")]]))))
       = trace (start (empty_store [reply 200 [("faceset_token", PStr "fs1")]])) ++ evs
       /\ forallb (creates_gallery "faceset_01234567") evs = true
       /\ existsb is_post evs = true.
Proof.
  assert (H : create_new_faceset manager
                (start (empty_store [reply 200 [("faceset_token", PStr "fs1")]]))
              = (Ok "faceset_01234567",
                 snd (create_new_faceset manager
                        (start (empty_store [reply 200 [("faceset_token", PStr "fs1")]]))))).
  { vm_compute. reflexivity. }
  exact (created_gallery_is_the_one_requested manager
           (start (empty_store [reply 200 [("faceset_token", PStr "fs1")]])) H).
Defined.

Lemma duplicate_found_registers_nothing_witness :
  exists evs,
    trace (snd (verify_face verifier [] (start known_face)))
    = trace (start known_face) ++ evs
    /\ forallb lookup_traffic evs = true.
Proof.
  assert (H : verify_face verifier [] (start known_face)
              = (Ok duplicate_response, snd (verify_face verifier [] (start known_face)))).
  { vm_compute. reflexivity. }
  exact (duplicate_found_registers_nothing verifier [] (start known_face) H eq_refl).
Defined.

Lemma success_means_registered_witness :
  exists face_token id count evs1 evs2,
    response_face_token success_response = Some face_token
    /\ trace (snd (verify_face verifier [] (start new_face)))
       = trace (start new_face) ++ evs1 ++ ev_save_face_token face_token id
           :: evs2 ++ [ev_update_faceset_count id count]
    /\ In (ev_post "add_face"
             {| url := add_url (fpp_manager verifier);
                form := _get_base_params (fpp_manager verifier) ++
                        [("face_tokens", face_token); ("outer_id", PStr id)];
                files := None |}) evs1.
Proof.
  assert (H : verify_face verifier [] (start new_face)
              = (Ok success_response, snd (verify_face verifier [] (start new_face)))).
  { vm_compute. reflexivity. }
  exact (success_means_registered verifier [] (start new_face) H eq_refl).
Defined.

Lemma response_fields_agree_with_status_witness :
  (is_duplicate duplicate_response = true <-> status duplicate_response = "duplicate_found")
  /\ (status duplicate_response = "duplicate_found" ->
      exists best rest,
        matches duplicate_response = Some (best :: rest)
        /\ response_confidence duplicate_response = Some (confidence best)
        /\ Forall (fun m => PrimFloat.leb (confidence_threshold verifier) (confidence m)
                            = true
                            /\ PrimFloat.leb (confidence m) (confidence best) = true)
             (best :: rest))
  /\ (status duplicate_response <> "duplicate_found" ->
      matches duplicate_response = None /\ response_confidence duplicate_response = None)
  /\ (status duplicate_response = "error" <-> response_face_token duplicate_response = None).
Proof.
  assert (H : verify_face verifier [] (start known_face)
              = (Ok duplicate_response, snd (verify_face verifier [] (start known_face)))).
  { vm_compute. reflexivity. }
  exact (response_fields_agree_with_status verifier [] (start known_face) H).
Defined.


Lemma good_reply_is_returned_at_once_witness :
  exists s1,
    @_make_request runtime scripted manager "https://fpp/search" [] None "search_faces"
      (start (empty_store [reply 200 no_results]))
    = (Ok (PDict no_results), s1)
    /\ trace s1
       = trace (snd (_handle_rate_limit manager (start (empty_store [reply 200 no_results]))))
         ++ [ev_post "search_faces" search_request]
    /\ the_world s1 = empty_store [].
Proof.
  apply (@good_reply_is_returned_at_once runtime scripted manager
           "https://fpp/search" [] None "search_faces"
           (start (empty_store [reply 200 no_results]))
           {| status_code := 200; json := Some (PDict no_results) |}
           (empty_store []) no_results).
  - simpl. lia.
  - vm_compute. reflexivity.
  - reflexivity.
  - reflexivity.
  - reflexivity.
Defined.

Lemma scalar_body_raises_TypeError_witness :
  exists s1,
    @_make_request runtime scripted manager "https://fpp/search" [] None "search_faces"
      (start (empty_store [Ok null_reply]))
    = (Raise TypeError, s1)
    /\ trace s1
       = trace (snd (_handle_rate_limit manager (start (empty_store [Ok null_reply]))))
         ++ [ev_post "search_faces" search_request].
Proof.
  apply (@scalar_body_raises_TypeError runtime scripted manager
           "https://fpp/search" [] None "search_faces"
           (start (empty_store [Ok null_reply])) null_reply (empty_store []) PNone).
  - simpl. lia.
  - vm_compute. reflexivity.
  - reflexivity.
  - reflexivity.
Defined.

Lemma offered_gallery_is_reused_witness :
  exists evs,
    trace (snd (save_face_data verifier (PStr "tokA") (start offered_gallery)))
    = trace (start offered_gallery) ++ evs
    /\ forallb (registers_into "faceset_live") evs = true
    /\ In (ev_save_face_token (PStr "tokA") "faceset_live") evs.
Proof.
  assert (Hfind : call ev_find_available_faceset find_available_faceset
                    (start offered_gallery)
                  = (Ok (Some ("faceset_live", 5)),
                     snd (call ev_find_available_faceset find_available_faceset
                            (start offered_gallery)))).
  { vm_compute. reflexivity. }
  assert (H : save_face_data verifier (PStr "tokA") (start offered_gallery)
              = (Ok true,
                 snd (save_face_data verifier (PStr "tokA") (start offered_gallery)))).
  { vm_compute. reflexivity. }
  assert (Hid : "faceset_live" <> "") by discriminate.
  exact (offered_gallery_is_reused verifier (PStr "tokA") (start offered_gallery)
           Hfind Hid H).
Defined.

End Examples.
